(** * Verification of the traffic analyzer's ingestion, persistence and
      alerting core

    The development embeds, function by function, the parts of
    [src/database_manager.py], [src/traffic_capture.py] and
    [src/traffic_analyzer.py] that the behavioural properties of the
    specification talk about:

    - [PyStr]     the Python string primitives the code relies on;
    - [ConnKey]   [create_connection_key] / [parse_connection_key];
    - [Alerts]    the alert pipeline of [analyze_traffic];
    - [Decoder]   the accumulation buffer of [capture_packets];
    - [Capture]   [add_packet] and its call from [process_packet_ek];
    - [Sync]      [sync_databases].

    Python [str] values are modelled as [string] (8-bit characters; every
    character the code inspects is ASCII).  Python [int] values are [Z].
    What SQLite makes of a value is modelled where the behaviour of the
    code depends on it: an [int] is bound as a signed 64-bit integer, the
    counters of [connections] hold 64-bit integers or binary64 numbers,
    and a timestamp column holds NULL, a number or a date text. *)

From Stdlib Require Import ZArith Ascii Decimal DecimalString DecimalPos DecimalZ Lia.
From Stdlib Require Floats.SpecFloat.
From stdpp Require Import gmap strings list fin_maps.

Local Open Scope Z_scope.

(* ===================================================================== *)
(** * Exceptions *)
(* ===================================================================== *)

(** The exception classes that the modelled code can meet.  All of them
    are subclasses of [Exception]. *)
Inductive exn : Type :=
  | ValueError
  | TypeError
  | IndexError
  | OverflowError
  | OperationalError.

(** A computation that either returns or raises. *)
Inductive res (A : Type) : Type :=
  | Ok (a : A)
  | Raise (e : exn).
Arguments Ok {A} a.
Arguments Raise {A} e.

#[global] Instance res_bind : MBind res := fun A B k m =>
  match m with
  | Ok a => k a
  | Raise e => Raise e
  end.

#[global] Instance exn_eq_dec : EqDecision exn.
Proof. solve_decision. Defined.

(** [try: m except E: h] for one exception class. *)
Definition try_except {A : Type} (m : res A) (E : exn) (h : res A) : res A :=
  match m with
  | Ok a => Ok a
  | Raise e => if decide (e = E) then h else Raise e
  end.

(** [try: m except Exception: h] catches every class. *)
Definition try_except_all {A : Type} (m : res A) (h : A) : A :=
  match m with
  | Ok a => a
  | Raise _ => h
  end.

(* ===================================================================== *)
(** * Python string primitives *)
(* ===================================================================== *)

Module PyStr.

(** [len(s)] *)
Definition len (s : string) : Z := Z.of_nat (String.length s).

(** [s.startswith(p)] *)
Definition startswith (p s : string) : bool := String.prefix p s.

(** [sub in s] *)
Fixpoint contains (sub s : string) : bool :=
  if String.prefix sub s then true
  else match s with
       | EmptyString => false
       | String _ s' => contains sub s'
       end.

(** [s.find(sub)]: index of the first occurrence, [-1] when absent. *)
Fixpoint find (sub s : string) : Z :=
  if String.prefix sub s then 0
  else match s with
       | EmptyString => -1
       | String _ s' => let r := find sub s' in
                        if r <? 0 then -1 else r + 1
       end.

Fixpoint sdrop (n : nat) (s : string) : string :=
  match n, s with
  | O, _ => s
  | S n', String _ s' => sdrop n' s'
  | S _, EmptyString => EmptyString
  end.

Fixpoint stake (n : nat) (s : string) : string :=
  match n, s with
  | S n', String c s' => String c (stake n' s')
  | _, _ => EmptyString
  end.

(** Normalisation of a slice bound: negative bounds count from the end,
    everything is clamped to [0 .. len]. *)
Definition clamp (n i : Z) : Z :=
  if i <? 0 then Z.max 0 (n + i) else Z.min i n.

(** [s[a:b]] *)
Definition slice (s : string) (a b : Z) : string :=
  let a' := clamp (len s) a in
  let b' := clamp (len s) b in
  stake (Z.to_nat (b' - a')) (sdrop (Z.to_nat a') s).

(** [s[a:]] *)
Definition slice_from (s : string) (a : Z) : string :=
  sdrop (Z.to_nat (clamp (len s) a)) s.

(** [s[-n:]] for a positive literal [n]. *)
Definition last_chars (n : Z) (s : string) : string := slice_from s (- n).

(** [s.split(sep)] for a non-empty separator: leftmost, non-overlapping
    occurrences.  [skip] counts the characters of a matched separator
    that remain to be consumed. *)
Fixpoint split_aux (sep : string) (skip : nat) (s : string) : list string :=
  match s with
  | EmptyString => [EmptyString]
  | String c s' =>
      match skip with
      | S k => split_aux sep k s'
      | O =>
          if String.prefix sep s
          then EmptyString :: split_aux sep (String.length sep - 1) s'
          else match split_aux sep 0 s' with
               | h :: t => String c h :: t
               | [] => [String c EmptyString]
               end
      end
  end.

Definition split (sep s : string) : list string := split_aux sep 0 s.

(** [s.rsplit(c, 1)] for a one-character separator: cut at the last
    occurrence; a single part when there is none. *)
Fixpoint rcut (c : ascii) (s : string) : option (string * string) :=
  match s with
  | EmptyString => None
  | String a s' =>
      match rcut c s' with
      | Some (h, t) => Some (String a h, t)
      | None => if Ascii.eqb a c then Some (EmptyString, s') else None
      end
  end.

Definition rsplit1 (c : ascii) (s : string) : list string :=
  match rcut c s with
  | Some (h, t) => [h; t]
  | None => [s]
  end.

(** [a, b = parts]: unpacking into exactly two targets. *)
Definition unpack2 (parts : list string) : res (string * string) :=
  match parts with
  | [a; b] => Ok (a, b)
  | _ => Raise ValueError
  end.

(** Characters removed by [str.strip()] (the ASCII ones). *)
Definition is_space (c : ascii) : bool :=
  let n := nat_of_ascii c in
  ((9 <=? n)%nat && (n <=? 13)%nat) || ((28 <=? n)%nat && (n <=? 32)%nat).

Fixpoint lstrip (s : string) : string :=
  match s with
  | EmptyString => EmptyString
  | String c s' => if is_space c then lstrip s' else s
  end.

Fixpoint rstrip (s : string) : string :=
  match s with
  | EmptyString => EmptyString
  | String c s' =>
      match rstrip s' with
      | EmptyString => if is_space c then EmptyString else String c EmptyString
      | r => String c r
      end
  end.

(** [s.strip()] *)
Definition strip (s : string) : string := rstrip (lstrip s).

Definition is_digit (c : ascii) : bool :=
  let n := nat_of_ascii c in (48 <=? n)%nat && (n <=? 57)%nat.

(** The digit part of an integer literal: decimal digits, single
    underscores allowed between two digits.  Returns the digits with the
    underscores removed. *)
Fixpoint digits_us (prev_digit : bool) (s : string) : option string :=
  match s with
  | EmptyString => if prev_digit then Some EmptyString else None
  | String c s' =>
      if is_digit c then option_map (String c) (digits_us true s')
      else if Ascii.eqb c "_" && prev_digit then digits_us false s'
      else None
  end.

(** The white space that [int()] skips around a literal: tab, line feed,
    vertical tab, form feed, carriage return and space, and, of the
    characters past the ASCII range, U+0085 and U+00A0, which [int()]
    turns into a space first.  The separators U+001C .. U+001F, which
    [str.strip()] removes, are not among them: [int()] rejects a text
    that holds one. *)
Definition int_space (c : ascii) : bool :=
  let n := nat_of_ascii c in
  ((9 <=? n)%nat && (n <=? 13)%nat) || (n =? 32)%nat
  || (n =? 133)%nat || (n =? 160)%nat.

(** Removal of the leading and of the trailing characters of a class. *)
Fixpoint lstrip_by (p : ascii -> bool) (s : string) : string :=
  match s with
  | EmptyString => EmptyString
  | String c s' => if p c then lstrip_by p s' else s
  end.

Fixpoint rstrip_by (p : ascii -> bool) (s : string) : string :=
  match s with
  | EmptyString => EmptyString
  | String c s' =>
      match rstrip_by p s' with
      | EmptyString => if p c then EmptyString else String c EmptyString
      | r => String c r
      end
  end.

(** [int(s)] on a string: surrounding whitespace, optional sign, digits. *)
Definition py_int (s : string) : res Z :=
  let t := rstrip_by int_space (lstrip_by int_space s) in
  let '(neg, body) :=
    match t with
    | String "-" r => (true, r)
    | String "+" r => (false, r)
    | _ => (false, t)
    end in
  match digits_us false body with
  | None => Raise ValueError
  | Some ds =>
      match NilEmpty.uint_of_string ds with
      | Some u => Ok (if neg then - Z.of_uint u else Z.of_uint u)
      | None => Raise ValueError
      end
  end.

(** The characters an integer literal can hold: digits, the underscore,
    a sign, and the white space around it. *)
Definition int_char (c : ascii) : bool :=
  is_digit c || Ascii.eqb c "_" || Ascii.eqb c "+" || Ascii.eqb c "-"
  || int_space c.

(** [f"{n}"] / [str(n)] for an integer. *)
Definition str_int (n : Z) : string := NilZero.string_of_int (Z.to_int n).

(** [s.lower()] on ASCII letters. *)
Definition lower_char (c : ascii) : ascii :=
  let n := nat_of_ascii c in
  if (65 <=? n)%nat && (n <=? 90)%nat then ascii_of_nat (n + 32) else c.

Fixpoint lower (s : string) : string :=
  match s with
  | EmptyString => EmptyString
  | String c s' => String (lower_char c) (lower s')
  end.

End PyStr.

(* ===================================================================== *)
(** * Connection keys ([database_manager.py]) *)
(* ===================================================================== *)

Module ConnKey.
Import PyStr.

(** [create_connection_key(src_ip, dst_ip, src_port, dst_port)] *)
Definition create_connection_key
    (src_ip dst_ip : string) (src_port dst_port : Z) : string :=
  let src_part :=
    if contains ":" src_ip
    then "[" +:+ src_ip +:+ "]:" +:+ str_int src_port
    else src_ip +:+ ":" +:+ str_int src_port in
  let dst_part :=
    if contains ":" dst_ip
    then "[" +:+ dst_ip +:+ "]:" +:+ str_int dst_port
    else dst_ip +:+ ":" +:+ str_int dst_port in
  src_part +:+ "->" +:+ dst_part.

(** One endpoint of a key: the bracketed (IPv6) form or the plain form. *)
Definition parse_part (part : string) : res (string * string) :=
  if contains "[" part && contains "]" part
  then Ok (slice part (find "[" part + 1) (find "]" part),
           slice_from part (find "]" part + 2))
  else unpack2 (rsplit1 ":" part).

(** The value returned by [parse_connection_key]: a 4-tuple whose
    components are all [None] in the failure case. *)
Definition quad : Type := option string * option string * option Z * option Z.

Definition sentinel : quad := (None, None, None, None).

(** The body of the outer [try] block. *)
Definition parse_connection_key_body (connection_key : string) : res quad :=
  '(src_part, dst_part) ← unpack2 (split "->" connection_key);
  '(src_ip, src_port_str) ← parse_part src_part;
  '(dst_ip, dst_port_str) ← parse_part dst_part;
  '(src_port, dst_port) ←
    try_except
      (src_port ← py_int src_port_str;
       dst_port ← py_int dst_port_str;
       Ok (src_port, dst_port))
      ValueError
      (Ok (0, 0));
  Ok (Some src_ip, Some dst_ip, Some src_port, Some dst_port).

(** [parse_connection_key(connection_key)] *)
Definition parse_connection_key (connection_key : string) : quad :=
  try_except_all (parse_connection_key_body connection_key) sentinel.

(** The textual shape of addresses of the two families.  Only the
    character set matters to the key format: dotted decimal for IPv4,
    colon-separated hexadecimal (possibly with an embedded dotted quad)
    for IPv6. *)
Definition is_hex (c : ascii) : bool :=
  let n := nat_of_ascii c in
  is_digit c || ((97 <=? n)%nat && (n <=? 102)%nat)
             || ((65 <=? n)%nat && (n <=? 70)%nat).

Definition ipv4_char (c : ascii) : bool := is_digit c || Ascii.eqb c ".".

Definition ipv6_char (c : ascii) : bool :=
  is_hex c || Ascii.eqb c ":" || Ascii.eqb c ".".

Fixpoint all_chars (p : ascii -> bool) (s : string) : bool :=
  match s with
  | EmptyString => true
  | String c s' => p c && all_chars p s'
  end.

Definition valid_ipv4 (s : string) : bool :=
  all_chars ipv4_char s && negb (String.eqb s "").

Definition valid_ipv6 (s : string) : bool :=
  all_chars ipv6_char s && contains ":" s.

Definition valid_ip (s : string) : bool := valid_ipv4 s || valid_ipv6 s.

Definition valid_port (p : Z) : Prop := 0 <= p <= 65535.

(** A port substring that keeps the key well formed: it does not itself
    contain one of the key's delimiters. *)
Definition port_text_char (c : ascii) : bool :=
  negb (Ascii.eqb c ":" || Ascii.eqb c ">" || Ascii.eqb c "[" || Ascii.eqb c "]").

Definition port_text_ok (pt : string) : Prop :=
  all_chars port_text_char pt = true.

(** What the key format needs from an address text: none of the
    delimiters that [parse_connection_key] looks for. *)
Definition ip_ok (ip : string) : Prop :=
  contains ">" ip = false /\ contains "[" ip = false /\ contains "]" ip = false.

(** One endpoint of a key, as [create_connection_key] lays it out. *)
Definition endpoint (ip pt : string) : string :=
  if contains ":" ip then "[" +:+ ip +:+ "]:" +:+ pt else ip +:+ ":" +:+ pt.

(** The key text with the same layout as [create_connection_key] but with
    arbitrary port substrings. *)
Definition key_text (src_ip dst_ip src_port_str dst_port_str : string) : string :=
  (if contains ":" src_ip
   then "[" +:+ src_ip +:+ "]:" +:+ src_port_str
   else src_ip +:+ ":" +:+ src_port_str)
  +:+ "->" +:+
  (if contains ":" dst_ip
   then "[" +:+ dst_ip +:+ "]:" +:+ dst_port_str
   else dst_ip +:+ ":" +:+ dst_port_str).

(** The text ["1"] followed by the separator U+001C: [str.strip()] would
    remove the separator, [int()] rejects the text. *)
Definition digit_then_separator : string :=
  String "1" (String (ascii_of_nat 28) EmptyString).

End ConnKey.

(* ===================================================================== *)
(** * The alert pipeline ([analyze_traffic] in [traffic_analyzer.py]) *)
(* ===================================================================== *)

Module Alerts.
Import PyStr.

(** ** [re.findall(r'(\d+\.\d+\.\d+\.\d+)', alert)] *)

(** The longest run of digits at the head of [s], and what follows it. *)
Fixpoint digit_run (s : string) : string * string :=
  match s with
  | EmptyString => (EmptyString, EmptyString)
  | String c s' =>
      if is_digit c
      then let '(d, r) := digit_run s' in (String c d, r)
      else (EmptyString, s)
  end.

(** [\d+] followed by [n] groups [\.\d+], anchored at the head of [s].
    Every [\d+] is greedy and is followed by a non-digit or the end, so
    the match, when there is one, takes each run whole. *)
Fixpoint dotted (n : nat) (s : string) : option string :=
  let '(d, r) := digit_run s in
  if String.eqb d "" then None
  else match n with
       | O => Some d
       | S n' =>
           match r with
           | String c r' =>
               if Ascii.eqb c "."
               then option_map (fun t => d +:+ "." +:+ t) (dotted n' r')
               else None
           | EmptyString => None
           end
       end.

(** The pattern [\d+\.\d+\.\d+\.\d+] anchored at the head of [s]. *)
Definition match_ipv4 (s : string) : option string := dotted 3 s.

(** Left-to-right scan for non-overlapping matches; [skip] counts the
    characters of the last match that are still to be passed over. *)
Fixpoint findall_aux (skip : nat) (s : string) : list string :=
  match s with
  | EmptyString => []
  | String _ s' =>
      match skip with
      | S k => findall_aux k s'
      | O =>
          match match_ipv4 s with
          | Some m => m :: findall_aux (String.length m - 1) s'
          | None => findall_aux 0 s'
          end
      end
  end.

Definition findall_ipv4 (alert : string) : list string := findall_aux 0 alert.

(** ** Attribution of the offending address *)

(** The [if len(ip_matches) >= 2: ... elif len(ip_matches) == 1: ...]
    block; [None] is Python's [None]. *)
Definition attribute (alert : string) (ip_matches : list string) : option string :=
  match ip_matches with
  | src_ip :: dst_ip :: _ =>
      if contains "Malicious IP detected in connection from" alert
      then Some dst_ip
      else if contains "from Malicious IP" alert
              || contains "from suspicious IP" alert
      then Some src_ip
      else if contains "VirusTotal" alert
      then Some dst_ip
      else Some src_ip
  | [ip] => Some ip
  | [] => None
  end.

Definition malicious_ip_of (alert : string) : option string :=
  attribute alert (findall_ipv4 alert).

(** Truth value of an optional string ([if malicious_ip:]). *)
Definition truthy (o : option string) : bool :=
  match o with
  | Some s => negb (String.eqb s "")
  | None => false
  end.

(** ** Pipeline state *)

(** The in-memory objects the pipeline reads and writes:
    - [false_positives]: the set object created by [load_false_positives];
      [IPManager.false_positives] is the same object (it is assigned from
      [app.false_positives] and never rebound), so one field models both;
    - [alerts_by_ip]: the [defaultdict(set)] of the capture engine;
    - [alert_queue]: the items put on [db_manager.alert_queue], oldest
      first, as [(ip_address, alert_message, rule_name)];
    - [notified]: the calls made to [tray_app.show_alert_notification],
      oldest first, as [(alert, rule_name, ip)];
    - [shown]: the local list [alerts] of texts to display. *)
Record state : Type := mkState {
  false_positives : gset string;
  alerts_by_ip : gmap string (gset string);
  alert_queue : list (string * string * string);
  notified : list (string * string * string);
  shown : list string
}.

(** [d[k]] on a [defaultdict(set)]: the value read, and the dictionary
    after the read (a missing key is created with an empty set). *)
Definition dd_read (d : gmap string (gset string)) (k : string)
  : gset string * gmap string (gset string) :=
  match d !! k with
  | Some v => (v, d)
  | None => (∅, <[k := ∅]> d)
  end.

(** [d[k].add(x)] *)
Definition dd_add (d : gmap string (gset string)) (k x : string)
  : gmap string (gset string) :=
  let '(v, d') := dd_read d k in <[k := {[x]} ∪ v]> d'.

(** [db_manager.queue_alert(ip, alert, rule_name)] *)
Definition queue_alert (ip alert rule_name : string)
    (q : list (string * string * string)) : list (string * string * string) :=
  q ++ [(ip, alert, rule_name)].

(** One iteration of [for alert in rule_alerts]. *)
Definition process_alert (rule_name alert : string) (st : state) : state :=
  let malicious_ip := malicious_ip_of alert in
  match malicious_ip with
  | Some ip =>
      if truthy malicious_ip then
        if decide (ip ∈ false_positives st) then st   (* continue *)
        else
          let '(seen, d) := dd_read (alerts_by_ip st) ip in
          if decide (alert ∈ seen)
          then mkState (false_positives st) d (alert_queue st) (notified st)
                       (shown st ++ [alert])
          else
            let d' := dd_add d ip alert in
            let q' := queue_alert ip alert rule_name (alert_queue st) in
            let n' :=
              if contains "malicious" (lower alert)
                 || contains "virustotal" (lower alert)
              then notified st ++ [(alert, rule_name, ip)]
              else notified st in
            mkState (false_positives st) d' q' n' (shown st ++ [alert])
      else mkState (false_positives st) (alerts_by_ip st) (alert_queue st)
                   (notified st) (shown st ++ [alert])
  | None => mkState (false_positives st) (alerts_by_ip st) (alert_queue st)
                    (notified st) (shown st ++ [alert])
  end.

(** What one rule contributes to a cycle: its name, its [enabled] flag and
    the list its [analyze] returned. *)
Record rule_run : Type := mkRun {
  rule_name : string;
  enabled : bool;
  rule_alerts : list string
}.

Definition run_rule (r : rule_run) (st : state) : state :=
  if enabled r
  then foldl (fun s alert => process_alert (rule_name r) alert s) st (rule_alerts r)
  else st.

(** The rule loop of one [analyze_traffic] cycle. *)
Definition analyze_traffic (rules : list rule_run) (st : state) : state :=
  foldl (fun s r => run_rule r s) st rules.

(** [IPManager.mark_as_false_positive(ip)] on the shared set. *)
Definition mark_as_false_positive (ip : string) (st : state) : state :=
  if negb (String.eqb ip "")
  then mkState ({[ip]} ∪ false_positives st) (alerts_by_ip st)
               (alert_queue st) (notified st) (shown st)
  else st.

(** What can happen to the pipeline state: an analysis cycle, or the
    operator marking an address. *)
Inductive event : Type :=
  | Cycle (rules : list rule_run)
  | Mark (ip : string).

Definition apply_event (st : state) (e : event) : state :=
  match e with
  | Cycle rules => analyze_traffic rules st
  | Mark ip => mark_as_false_positive ip st
  end.

Definition run (trace : list event) (st : state) : state :=
  foldl apply_event st trace.

(** [TrafficCaptureEngine.add_alert(ip_address, alert_message, rule_name)]
    ([traffic_capture.py]).  With an analysis manager the alert is handed
    over to it; its store is not part of this state and the value it
    returns is not modelled ([None]).  Without one the engine records the
    message in the same [alerts_by_ip] and puts it on the same queue; a
    message already recorded gives [False]. *)
Definition add_alert (analysis_manager : bool) (ip alert rule_name : string)
    (st : state) : state * option bool :=
  if analysis_manager then (st, None)
  else
    let '(seen, d) := dd_read (alerts_by_ip st) ip in
    if decide (alert ∈ seen)
    then (mkState (false_positives st) d (alert_queue st) (notified st)
                  (shown st), Some false)
    else (mkState (false_positives st) (dd_add d ip alert)
                  (queue_alert ip alert rule_name (alert_queue st))
                  (notified st) (shown st), Some true).

(** Everything that can put an item on the alert queue: the events of
    the pipeline, and direct calls of the engine's [add_alert]. *)
Inductive producer : Type :=
  | Pipeline (e : event)
  | EngineAlert (analysis_manager : bool) (ip alert rule_name : string).

Definition apply_producer (st : state) (p : producer) : state :=
  match p with
  | Pipeline e => apply_event st e
  | EngineAlert am ip alert rule => (add_alert am ip alert rule st).1
  end.

Definition run_all (trace : list producer) (st : state) : state :=
  foldl apply_producer st trace.

(** The state at process start: nothing recorded, nothing queued; the
    false-positive set is whatever the persisted list held. *)
Definition start (fp : gset string) : state := mkState fp ∅ [] [] [].

(** The [(ip, message)] pair of a queue item and of a notification. *)
Definition queued_pair (item : string * string * string) : string * string :=
  let '(ip, alert, _) := item in (ip, alert).

Definition notified_pair (item : string * string * string) : string * string :=
  let '(alert, _, ip) := item in (ip, alert).

(** [msg] is in the set stored for [ip]. *)
Definition recorded (d : gmap string (gset string)) (ip msg : string) : Prop :=
  exists v, d !! ip = Some v /\ msg ∈ v.

(** The invariant behind deduplication: the queue holds each
    [(ip, message)] pair once, every queued pair is recorded in
    [alerts_by_ip], and the notifications are a duplicate-free part of
    what was queued. *)
Record dedup_inv (st : state) : Prop := {
  inv_queue_nodup : NoDup (queued_pair <$> alert_queue st);
  inv_queue_recorded :
    forall ip msg, (ip, msg) ∈ (queued_pair <$> alert_queue st) ->
                   recorded (alerts_by_ip st) ip msg;
  inv_notified_nodup : NoDup (notified_pair <$> notified st);
  inv_notified_queued :
    forall p, p ∈ (notified_pair <$> notified st) ->
              p ∈ (queued_pair <$> alert_queue st)
}.

(** [X] cannot be the address of a new queue item: it is in the
    false-positive set, or it is the empty text (which is never an
    attributed address). *)
Definition suppressed (X : string) (st : state) : Prop :=
  X ∈ false_positives st \/ X = "".

(** From [st] to [st'] the queue and the notifications only grew, and by
    nothing attributed to [X]. *)
Definition no_new_for (X : string) (st st' : state) : Prop :=
  exists added_q added_n,
    alert_queue st' = alert_queue st ++ added_q /\
    notified st' = notified st ++ added_n /\
    Forall (fun item => (queued_pair item).1 <> X) added_q /\
    Forall (fun item => (notified_pair item).1 <> X) added_n.

(** While [X] is suppressed, a step keeps it so and adds nothing for it. *)
Definition keeps_suppressed (X : string) (st st' : state) : Prop :=
  suppressed X st -> suppressed X st' /\ no_new_for X st st'.

(** ** The operator's actions ([traffic_analyzer.py]) *)

(** [clear_alerts]: [self.capture_engine.alerts_by_ip.clear()] *)
Definition clear_alerts (st : state) : state :=
  mkState (false_positives st) ∅ (alert_queue st) (notified st) (shown st).

(** [remove_false_positive]: [self.false_positives.discard(ip)] *)
Definition remove_false_positive (ip : string) (st : state) : state :=
  mkState (false_positives st ∖ {[ip]}) (alerts_by_ip st) (alert_queue st)
          (notified st) (shown st).

(** ** [Rule.add_alert] ([traffic_analyzer.py])

    What a rule may call from its [analyze]: with an analysis manager
    the alert goes to the analysis manager, which keeps its own table;
    without one, and with a database manager, [queue_alert] is called
    directly, without a look at [alerts_by_ip] or at the false
    positives.  [rule] is [self.name]. *)
Definition rule_add_alert (analysis_manager db_manager : bool)
    (ip alert rule : string) (st : state) : state :=
  if analysis_manager then st
  else if db_manager
       then mkState (false_positives st) (alerts_by_ip st)
                    (queue_alert ip alert rule (alert_queue st))
                    (notified st) (shown st)
       else st.

(** Everything that writes the pipeline state during the life of the
    process: the producers above, the two actions of the operator, of
    which [clear_alerts] is the other writer of [alerts_by_ip], and
    [Rule.add_alert], the other caller of [queue_alert]. *)
Inductive action : Type :=
  | Produce (p : producer)
  | ClearAlerts
  | Unmark (ip : string)
  | RuleAlert (analysis_manager db_manager : bool) (ip alert rule : string).

Definition apply_action (st : state) (a : action) : state :=
  match a with
  | Produce p => apply_producer st p
  | ClearAlerts => clear_alerts st
  | Unmark ip => remove_false_positive ip st
  | RuleAlert am db ip alert rule => rule_add_alert am db ip alert rule st
  end.

(** The actions that consult or leave alone the record of what was
    queued: all but [clear_alerts] and the direct [queue_alert] of
    [Rule.add_alert]. *)
Definition keeps_dedup (a : action) : bool :=
  match a with
  | ClearAlerts => false
  | RuleAlert am db _ _ _ => am || negb db
  | _ => true
  end.

Definition run_process (trace : list action) (st : state) : state :=
  foldl apply_action st trace.

(** The deduplication invariant of an epoch that began with the queue
    [q0] and the notifications [n0] (at process start, or at a
    [clear_alerts]): what was added since holds each [(ip, message)]
    pair once, every pair added is recorded in [alerts_by_ip], and the
    notifications added are a duplicate-free part of what was queued. *)
Definition dedup_since (q0 n0 : list (string * string * string))
    (st : state) : Prop :=
  exists added_q added_n,
    alert_queue st = q0 ++ added_q /\
    notified st = n0 ++ added_n /\
    NoDup (queued_pair <$> added_q) /\
    (forall ip msg, (ip, msg) ∈ (queued_pair <$> added_q) ->
                    recorded (alerts_by_ip st) ip msg) /\
    NoDup (notified_pair <$> added_n) /\
    (forall p, p ∈ (notified_pair <$> added_n) ->
               p ∈ (queued_pair <$> added_q)).

(** A cycle in which one rule returns one text, twice around a
    [clear_alerts]. *)
Definition repeated_scan : list action :=
  [Produce (Pipeline (Cycle [mkRun "r" true ["malicious scan from 10.0.0.9"]]));
   ClearAlerts;
   Produce (Pipeline (Cycle [mkRun "r" true ["malicious scan from 10.0.0.9"]]))].

End Alerts.

(* ===================================================================== *)
(** * The decode loop ([capture_packets] in [traffic_capture.py]) *)
(* ===================================================================== *)

Module Decoder.
Import PyStr.

(** The newline character and the text that opens an index line. *)
Definition nl : string := String (ascii_of_nat 10) EmptyString.

Definition dquote : ascii := ascii_of_nat 34.

Definition index_prefix : string :=
  String "{" (String dquote ("index" +:+ String dquote EmptyString)).

(** The two literals of the loop: the size above which the buffer is
    dropped, and the length of the tail kept after a successful
    extraction. *)
Definition max_buffer : Z := 10000000.
Definition tail_keep : Z := 1000.

Section Loop.

(** [json.loads(text)] succeeds. *)
Variable json_ok : string -> bool.

(** The [while i < len(lines)] loop of [extract_ek_objects]; the list is
    [lines[i:]]. *)
Fixpoint extract_lines (lines : list string) : list string :=
  match lines with
  | [] => []
  | l :: rest =>
      let line := strip l in
      if String.eqb line "" then extract_lines rest
      else if startswith index_prefix line then
        match rest with
        | d :: rest' =>
            if negb (String.eqb (strip d) "") then
              if json_ok (strip d)
              then strip d :: extract_lines rest'
              else extract_lines rest
            else extract_lines rest
        | [] => extract_lines rest
        end
      else if json_ok line then line :: extract_lines rest
      else extract_lines rest
  end.

(** [extract_ek_objects(buffer)] *)
Definition extract_ek_objects (buffer : string) : list string :=
  extract_lines (split nl (strip buffer)).

(** The buffer after [buffer += line + "\n"]. *)
Definition appended (buffer line : string) : string :=
  buffer +:+ line +:+ nl.

(** The buffer after the [if packet_objects:] block: when objects were
    found, only the last [keep] characters are kept. *)
Definition trimmed (keep : Z) (buffer : string) : string :=
  match extract_ek_objects buffer with
  | [] => buffer
  | _ :: _ => if keep <? len buffer then last_chars keep buffer else buffer
  end.

(** The buffer after the size check that ends the iteration. *)
Definition checked (limit : Z) (buffer : string) : string :=
  if limit <? len buffer then EmptyString else buffer.

(** One iteration of the [for binary_line in ...] loop, as far as the
    buffer is concerned, with the two literals as parameters.  An input
    line that is blank after [strip()] is skipped by [continue]. *)
Definition feed_with (limit keep : Z) (buffer raw_line : string) : string :=
  let line := strip raw_line in
  if String.eqb line "" then buffer
  else checked limit (trimmed keep (appended buffer line)).

(** The iteration with the literals of the source. *)
Definition feed (buffer raw_line : string) : string :=
  feed_with max_buffer tail_keep buffer raw_line.

(** The buffer at the start of the iteration that follows the given
    input lines; the loop starts with [buffer = ""]. *)
Definition buffer_after_with (limit keep : Z) (lines : list string) : string :=
  foldl (feed_with limit keep) EmptyString lines.

Definition buffer_after (lines : list string) : string :=
  foldl feed EmptyString lines.

End Loop.

End Decoder.

(* ===================================================================== *)
(** * Connection upsert ([add_packet]) and its caller ([process_packet_ek]) *)
(* ===================================================================== *)

Module Capture.
Import PyStr.

(** ** Numbers as the driver binds them and as the store keeps them *)

(** A Python [int] is bound to a statement as a signed 64-bit integer;
    [execute] raises [OverflowError] for a wider one, before the
    statement runs. *)
Definition int64 (z : Z) : bool := (- 2 ^ 63 <=? z) && (z <=? 2 ^ 63 - 1).

Definition bind_int (z : Z) : res Z :=
  if int64 z then Ok z else Raise OverflowError.

(** An optional integer: [None] is bound as NULL. *)
Definition bindable (o : option Z) : bool := from_option int64 true o.

Definition bind_opt (o : option Z) : res (option Z) :=
  if bindable o then Ok o else Raise OverflowError.

(** The number held by a counter column ([total_bytes], [packet_count],
    declared INTEGER): a 64-bit integer, or a REAL, a binary64
    floating-point number, once a sum has left the 64-bit range. *)
Inductive sqlnum : Type :=
  | Int (z : Z)
  | Real (f : SpecFloat.spec_float).
Coercion Int : Z >-> sqlnum.

#[global] Instance spec_float_eq_dec : EqDecision SpecFloat.spec_float.
Proof. solve_decision. Defined.
#[global] Instance sqlnum_eq_dec : EqDecision sqlnum.
Proof. solve_decision. Defined.

(** The binary64 number nearest to an integer (ties to even). *)
Definition real_of_int (z : Z) : SpecFloat.spec_float :=
  SpecFloat.binary_normalize 53 1024 z 0 false.

(** Binary64 addition. *)
Definition real_add (x y : SpecFloat.spec_float) : SpecFloat.spec_float :=
  SpecFloat.SFadd 53 1024 x y.

(** The integer a floating-point number is equal to, when there is one. *)
Definition integral (f : SpecFloat.spec_float) : option Z :=
  match f with
  | SpecFloat.S754_zero _ => Some 0
  | SpecFloat.S754_finite s m e =>
      if 0 <=? e then Some (SpecFloat.cond_Zopp s (Z.pos m * 2 ^ e))
      else if Z.pos m mod 2 ^ (- e) =? 0
           then Some (SpecFloat.cond_Zopp s (Z.pos m / 2 ^ (- e)))
           else None
  | _ => None
  end.

(** INTEGER affinity at the write of a REAL: it is stored as an integer
    when it equals one that lies strictly between the least and the
    greatest 64-bit integer, and stays a REAL otherwise. *)
Definition integer_affinity (f : SpecFloat.spec_float) : sqlnum :=
  match integral f with
  | Some z => if (- 2 ^ 63 <? z) && (z <? 2 ^ 63 - 1) then Int z else Real f
  | None => Real f
  end.

(** [column + ?] with a bound integer, as written back to the column:
    the integer sum while it fits 64 bits, else the floating-point sum of
    the two operands. *)
Definition sql_add (a : sqlnum) (b : Z) : sqlnum :=
  match a with
  | Int z =>
      if int64 (z + b) then Int (z + b)
      else integer_affinity (real_add (real_of_int z) (real_of_int b))
  | Real f => integer_affinity (real_add f (real_of_int b))
  end.

(** A row of the [connections] table; the primary key [connection_key] is
    the key of the map that holds the rows. *)
Record connection : Type := mkConn {
  src_ip : string;
  dst_ip : string;
  src_port : option Z;
  dst_port : option Z;
  total_bytes : sqlnum;
  packet_count : sqlnum;
  timestamp : Z;
  vt_result : string;
  is_rdp_client : Z;
  protocol : option string;
  ttl : option Z
}.

(** [UPDATE connections SET total_bytes = total_bytes + ?,
     packet_count = packet_count + 1, timestamp = CURRENT_TIMESTAMP] *)
Definition bump (length now : Z) (c : connection) : connection :=
  mkConn (src_ip c) (dst_ip c) (src_port c) (dst_port c)
         (sql_add (total_bytes c) length) (sql_add (packet_count c) 1) now
         (vt_result c) (is_rdp_client c) (protocol c) (ttl c).

(** The row written by the [INSERT] of [add_packet]; the columns it does
    not list take their declared defaults. *)
Definition fresh (sip dip : string) (sport dport : option Z)
    (length is_rdp now : Z) : connection :=
  mkConn sip dip sport dport length 1 now "unknown" is_rdp None None.

(** The [try] block of [add_packet]: the [UPDATE] binds [length]; when
    it touched no row ([cursor.rowcount == 0]) the [INSERT] binds the
    ports, the length and [is_rdp].  The result is the table after the
    commit. *)
Definition add_packet_body (connection_key sip dip : string)
    (sport dport : option Z) (length is_rdp now : Z)
    (db : gmap string connection) : res (gmap string connection) :=
  l ← bind_int length;
  match db !! connection_key with
  | Some c => Ok (<[connection_key := bump l now c]> db)
  | None =>
      sp ← bind_opt sport;
      dp ← bind_opt dport;
      l' ← bind_int length;
      r ← bind_int is_rdp;
      Ok (<[connection_key := fresh sip dip sp dp l' r now]> db)
  end.

(** [add_packet(connection_key, src_ip, dst_ip, src_port, dst_port, length,
    is_rdp)]: [True] and the table after the commit, or, from the handler
    [except Exception: return False], [False] and the table as it was.
    The parameters hold what the caller passes: text for the key and the
    addresses, [int] or [None] for the ports, [int] for the rest. *)
Definition add_packet (connection_key sip dip : string)
    (sport dport : option Z) (length is_rdp now : Z)
    (db : gmap string connection) : bool * gmap string connection :=
  match add_packet_body connection_key sip dip sport dport length is_rdp now db with
  | Ok db' => (true, db')
  | Raise _ => (false, db)
  end.

(** [update_connection_ttl(connection_key, ttl)]:
    [UPDATE connections SET ttl = ? WHERE connection_key = ?], with the
    handler [except Exception: return False] around it. *)
Definition update_connection_ttl (connection_key : string) (t : Z)
    (db : gmap string connection) : bool * gmap string connection :=
  match bind_int t with
  | Ok t' =>
      (true,
       alter (fun c => mkConn (src_ip c) (dst_ip c) (src_port c) (dst_port c)
                              (total_bytes c) (packet_count c) (timestamp c)
                              (vt_result c) (is_rdp_client c) (protocol c)
                              (Some t'))
             connection_key db)
  | Raise _ => (false, db)
  end.

(** Binding of positional arguments at a call of a method that has
    [required] parameters without default and [optional] ones with a
    default (the bound [self] apart): a call that passes fewer or more
    positional arguments raises [TypeError] before the body runs. *)
Definition py_call {A : Type} (required optional given : nat) (body : res A)
  : res A :=
  if ((required <=? given)%nat && (given <=? required + optional)%nat)%bool
  then body
  else Raise TypeError.

(** The layers of a decoded record: field name to array of values. *)
Definition layers_t : Type := gmap string (list string).

(** [get_layer_value(layers, field_name)] *)
Definition get_layer_value (layers : layers_t) (field_name : string)
  : option string :=
  match layers !! field_name with
  | Some (v :: _) => Some v
  | _ => None
  end.

(** [name.replace(".", "_")] *)
Fixpoint replace_dot (s : string) : string :=
  match s with
  | EmptyString => EmptyString
  | String c s' =>
      String (if Ascii.eqb c "." then "_"%char else c) (replace_dot s')
  end.

(** Truth value of an optional text ([if not src_ip], [if tcp_src]). *)
Definition truthy (o : option string) : bool :=
  match o with
  | Some s => negb (String.eqb s "")
  | None => false
  end.

(** [int(text)] guarded by [except (ValueError, TypeError): pass]. *)
Definition int_or (default : option Z) (text : string) : option Z :=
  match py_int text with
  | Ok n => Some n
  | Raise _ => default
  end.

Section Decode.

(** [capture_fields.get_field_by_tshark_name(name)["tshark_field"]], or
    [None] when the registry has no such field.  The registry module is
    not part of the modelled sources; it is a parameter. *)
Variable tshark_field : string -> option string.

(** [gui.false_positives] *)
Variable false_positives : gset string.

(** The value of [CURRENT_TIMESTAMP] at the write. *)
Variable now : Z.

(** The recurring lookup: the field definition, then the layer value. *)
Definition field_value (layers : layers_t) (name : string) : option string :=
  match tshark_field name with
  | Some f => get_layer_value layers (replace_dot f)
  | None => None
  end.

(** One port: the TCP field when it holds an integer, else the UDP one. *)
Definition extract_port (layers : layers_t) (tcp udp : string) : option Z :=
  let p :=
    match field_value layers tcp with
    | Some v => if truthy (Some v) then int_or None v else None
    | None => None
    end in
  match p with
  | Some n => Some n
  | None =>
      match field_value layers udp with
      | Some v => if truthy (Some v) then int_or None v else None
      | None => None
      end
  end.

(** [_extract_ports(layers)] *)
Definition extract_ports (layers : layers_t) : option Z * option Z :=
  (extract_port layers "tcp.srcport" "udp.srcport",
   extract_port layers "tcp.dstport" "udp.dstport").

(** [_extract_length(layers)] *)
Definition extract_length (layers : layers_t) : Z :=
  match field_value layers "frame.len" with
  | Some v =>
      if truthy (Some v)
      then match py_int v with Ok n => n | Raise _ => 0 end
      else 0
  | None => 0
  end.

(** An address: the IPv4 field, and when that gives nothing the IPv6
    field if the registry defines it. *)
Definition extract_ip (layers : layers_t) (v4 v6 : string) : option string :=
  let ip := field_value layers v4 in
  if truthy ip then ip
  else match tshark_field v6 with
       | Some f => get_layer_value layers (replace_dot f)
       | None => ip
       end.

(** [ip and ip in self.gui.false_positives] *)
Definition is_false_positive (ip : option string) : bool :=
  match ip with
  | Some s => truthy ip && bool_decide (s ∈ false_positives)
  | None => false
  end.

Definition has_key (layers : layers_t) (k : string) : bool :=
  bool_decide (is_Some (layers !! k)).

(** [f"{src_ip}:{src_port}->{dst_ip}:{dst_port}"], or [f"{src_ip}->{dst_ip}"]
    when a port is missing. *)
Definition packet_key (sip dip : string) (sport dport : option Z) : string :=
  match sport, dport with
  | Some sp, Some dp =>
      sip +:+ ":" +:+ str_int sp +:+ "->" +:+ dip +:+ ":" +:+ str_int dp
  | _, _ => sip +:+ "->" +:+ dip
  end.

(** The body of the [try] block of [process_packet_ek], as far as the
    [connections] table is concerned.  The protocol-specific stores
    ([_store_dns_data], [_store_http_data], ...), the ARP store and the
    calls to the analysis manager write other tables and are left out;
    were one of them to raise, the handler below would return [False]
    just the same. *)
Definition process_packet_ek_body (layers : layers_t)
    (db : gmap string connection) : gmap string connection * res bool :=
  if bool_decide (layers = ∅) then (db, Ok false)
  else
    let sip := extract_ip layers "ip.src" "ipv6.src" in
    let dip := extract_ip layers "ip.dst" "ipv6.dst" in
    let src_mac := field_value layers "eth.src" in
    let is_arp :=
      has_key layers "arp_src_proto_ipv4" || has_key layers "arp_dst_proto_ipv4" in
    if negb is_arp && (negb (truthy sip) || negb (truthy dip))
    then (db, Ok false)
    else
      let '(sport, dport) := extract_ports layers in
      let length := extract_length layers in
      if is_false_positive sip || is_false_positive dip
      then (db, Ok false)
      else
        match sip, dip with
        | Some s, Some d =>
            if truthy sip && truthy dip then
              let connection_key := packet_key s d sport dport in
              let ttl_value :=
                match get_layer_value layers "ip_ttl" with
                | Some v => Some v
                | None => get_layer_value layers "ipv6_hlim"
                end in
              let db1 :=
                match ttl_value with
                | Some v =>
                    match py_int v with
                    | Ok t => (update_connection_ttl connection_key t db).2
                    | Raise _ => db
                    end
                | None => db
                end in
              let is_rdp := if bool_decide (dport = Some 3389) then 1 else 0 in
              (* add_packet(connection_key, src_ip, dst_ip, src_port,
                            dst_port, length, is_rdp, src_mac) *)
              match py_call 6 1 8
                      (Ok (add_packet connection_key s d sport dport length
                                      is_rdp now db1)) with
              | Ok (r, db2) => (db2, Ok r)
              | Raise e => (db1, Raise e)
              end
            else (db, Ok true)
        | _, _ => (db, Ok true)
        end.

(** [process_packet_ek(packet_data)]: the handler
    [except Exception: ... return False] closes the body. *)
Definition process_packet_ek (layers : layers_t)
    (db : gmap string connection) : gmap string connection * bool :=
  let '(db', r) := process_packet_ek_body layers db in
  (db', try_except_all r false).

(** Decoding a sequence of records, oldest first. *)
Definition decode_all (packets : list layers_t)
    (db : gmap string connection) : gmap string connection :=
  foldl (fun d p => (process_packet_ek p d).1) db packets.

End Decode.

(** A registry that knows every field under its own name. *)
Definition full_registry (name : string) : option string := Some name.

(** A TCP record between two IPv4 endpoints with the given frame length. *)
Definition tcp_packet (sip dip sport dport length : string) : layers_t :=
  <["ip_src" := [sip]]> (<["ip_dst" := [dip]]> (<["tcp_srcport" := [sport]]>
  (<["tcp_dstport" := [dport]]> (<["frame_len" := [length]]> ∅)))).

End Capture.

(* ===================================================================== *)
(** * Synchronization ([sync_databases] in [database_manager.py]) *)
(* ===================================================================== *)

Module Sync.

(** ** Timestamps

    The timestamp columns this code declares ([timestamp TIMESTAMP
    DEFAULT CURRENT_TIMESTAMP], [timestamp REAL]) have numeric
    affinity.  Such a column holds NULL, a number (the code binds
    [time.time()]), or a date text in the format of [CURRENT_TIMESTAMP],
    [YYYY-MM-DD HH:MM:SS].  A number is given by a whole number that
    keeps the order of the numbers, 0 for the number 0; a date text by
    its rank in the order of texts, which for this format is the order
    in time, rank 0 for [1970-01-01 00:00:00]. *)
Inductive stamp : Type :=
  | Num (v : Z)
  | Date (r : Z).

#[global] Instance stamp_eq_dec : EqDecision stamp.
Proof. solve_decision. Defined.

(** SQLite's [<] between two values that are not NULL: numbers by
    value, texts by text order, every number before every text. *)
Definition sql_lt (a b : stamp) : bool :=
  match a, b with
  | Num x, Num y => x <? y
  | Num _, Date _ => true
  | Date _, Num _ => false
  | Date x, Date y => x <? y
  end.

Definition sql_max (a b : stamp) : stamp := if sql_lt a b then b else a.

Definition is_date (s : stamp) : bool :=
  match s with
  | Date _ => true
  | Num _ => false
  end.

(** ** The two stores

    A store maps a table name to a table; a table holds its rows under
    their primary key, the key [INSERT OR REPLACE] resolves conflicts on.
    [None] is SQL's [NULL]. *)

Record row : Type := mkRow {
  row_ts : option stamp;
  row_data : list string
}.

(** What [PRAGMA table_info] tells [sync_databases] about a table:
    whether [get_table_columns] returned any column, whether one of them
    is named [timestamp], and whether its declared type is one of
    [REAL], [INTEGER], [NUMERIC], [NUMBER]. *)
Record schema : Type := mkSchema {
  columns_ok : bool;
  has_timestamp : bool;
  numeric_ts : bool
}.

(** Where an exception can be raised inside the [try] block that wraps
    the work on one table. *)
Inductive fault_point : Type :=
  | NoFault
  | AtLookup    (* the existence check or the [CREATE TABLE] *)
  | AtSelect    (* after the table exists, up to the [SELECT] on the capture store *)
  | AtFetch.    (* after the [DELETE] of the ARP table, before the rows are written *)

#[global] Instance fault_point_eq_dec : EqDecision fault_point.
Proof. solve_decision. Defined.

(** The designated full-replace table. *)
Definition arp_table : string := "arp_data".

(** The table that [resolve_domain_names] updates. *)
Definition tls_table : string := "tls_connections".

(** The default ['1970-01-01'] of the text branch, as [datetime] reads
    it: [1970-01-01 00:00:00]. *)
Definition epoch : stamp := Date 0.

(** Python's [x or d] on the result of [MAX(timestamp)]: the default
    replaces [None] and the falsy number [0]; a date text is not empty,
    hence truthy. *)
Definition or_default (x : option stamp) (d : stamp) : stamp :=
  match x with
  | Some (Num v) => if v =? 0 then d else Num v
  | Some (Date r) => Date r
  | None => d
  end.

Definition opt_max (a b : option stamp) : option stamp :=
  match a, b with
  | Some x, Some y => Some (sql_max x y)
  | Some x, None => Some x
  | None, _ => b
  end.

(** The test [timestamp > ?] on a row; it is not true of a [NULL]
    timestamp, nor when the value compared with is [NULL]. *)
Definition newer (cutoff : option stamp) (r : row) : bool :=
  match cutoff, row_ts r with
  | Some c, Some t => sql_lt c t
  | _, _ => false
  end.

Section Store.
Context {K : Type} `{Countable K}.

Record table : Type := mkTable {
  tschema : schema;
  rows : gmap K row
}.

(** [SELECT MAX(timestamp) FROM t]: the largest non-[NULL] timestamp. *)
Definition max_ts (rs : gmap K row) : option stamp :=
  map_fold (fun _ r acc => opt_max (row_ts r) acc) None rs.

(** [SELECT * FROM t WHERE timestamp > ?] *)
Definition newer_than (cutoff : option stamp) (rs : gmap K row) : gmap K row :=
  filter (fun kr => newer cutoff kr.2) rs.

(** SQL [datetime(x)] on a number: the number is read as a Julian day,
    and the result is NULL for a number outside the range of days that
    have a date (0 to 5373484.5), such as the seconds since 1970 that
    [time.time()] gives; otherwise it is the text of the date, given
    here by its rank. *)
Variable julian : Z -> option Z.

(** SQL [datetime(?)]: a date text in the format above is returned as
    it is. *)
Definition datetime (s : stamp) : option stamp :=
  match s with
  | Date r => Some (Date r)
  | Num v => Date <$> julian v
  end.

(** What the rows of the capture store are compared with when the
    analysis store has the rows [rs]: [last_timestamp] in the numeric
    branch, [datetime(last_timestamp)] in the other. *)
Definition cutoff (numeric : bool) (rs : gmap K row) : option stamp :=
  if numeric then Some (or_default (max_ts rs) (Num 0))
  else datetime (or_default (max_ts rs) epoch).

(** The faults of one pass: at the statements outside the per-table
    [try] (enumerating the tables, the final commit), inside it, and at
    the [INSERT OR REPLACE] of single rows. *)
Record faults : Type := mkFaults {
  enumerate_fails : bool;
  table_fault : string -> fault_point;
  row_fault : string -> K -> bool;
  commit_fails : bool
}.

Definition no_faults : faults :=
  mkFaults false (fun _ => NoFault) (fun _ _ => false) false.

(** The [for row in rows] loop: [INSERT OR REPLACE] of each selected row;
    a row whose insert raises is logged and skipped.  Returns the rows of
    the destination table and the number of rows written. *)
Definition insert_rows (faulty : K -> bool) (selected dest : gmap K row)
  : gmap K row * Z :=
  map_fold (fun k r acc =>
              if faulty k then acc else (<[k := r]> acc.1, acc.2 + 1))
           (dest, 0) selected.

(** The rows the [SELECT] on the capture store returns for a table other
    than the ARP table: incremental when the table has a timestamp column
    and already existed in the analysis store, everything otherwise. *)
Definition select_rows (ct : table) (dest : option table) : gmap K row :=
  match dest with
  | Some dt =>
      if has_timestamp (tschema ct) then
        if numeric_ts (tschema ct) then
          let last_timestamp := or_default (max_ts (rows dt)) (Num 0) in
          newer_than (Some last_timestamp) (rows ct)
        else
          let last_timestamp := or_default (max_ts (rows dt)) epoch in
          newer_than (datetime last_timestamp) (rows ct)
      else rows ct
  | None => rows ct
  end.

(** The body of [for table_name in all_tables] for one table: [dest] is
    the table of that name in the analysis store before ([None] when it
    is missing); the result is the table after, and the number of rows
    written.  An exception is caught by the handler of the per-table
    [try], which logs it and lets the loop go on. *)
Definition table_step (f : faults) (name : string) (ct : table)
    (dest : option table) : option table * Z :=
  if decide (table_fault f name = AtLookup) then (dest, 0)
  else
    let table_exists := bool_decide (is_Some dest) in
    (* the table after [CREATE TABLE] when it was missing *)
    let dt := default (mkTable (tschema ct) ∅) dest in
    if decide (table_fault f name = AtSelect) then (Some dt, 0)
    else if decide (name = arp_table) then
      let selected := rows ct in
      let dt' := if table_exists then mkTable (tschema dt) ∅ else dt in
      if decide (table_fault f name = AtFetch) then (Some dt', 0)
      else
        let '(rs, n) := insert_rows (row_fault f name) selected (rows dt') in
        (Some (mkTable (tschema dt') rs), n)
    else if negb (columns_ok (tschema ct)) then (Some dt, 0)   (* continue *)
    else
      let selected := select_rows ct dest in
      if decide (table_fault f name = AtFetch) then (Some dt, 0)
      else
        let '(rs, n) := insert_rows (row_fault f name) selected (rows dt) in
        (Some (mkTable (tschema dt) rs), n).

(** Writing the outcome of a step back into the store. *)
Definition put (name : string) (o : option table) (an : gmap string table)
  : gmap string table :=
  match o with
  | Some t => <[name := t]> an
  | None => an
  end.

(** The loop over the tables of the capture store. *)
Definition sync_tables (f : faults) (capture an : gmap string table)
  : gmap string table * Z :=
  map_fold (fun name ct acc =>
              let '(o, n) := table_step f name ct (acc.1 !! name) in
              (put name o acc.1, acc.2 + n))
           (an, 0) capture.

Section Pass.

(** The outcome of the reverse lookup for the data of a TLS row; the
    identity where nothing is resolved (or the row is past the batch
    limit, or the lookup fails). *)
Variable enrich : list string -> list string.

(** The rows of the TLS table after the updates. *)
Definition enrich_rows (rs : gmap K row) : gmap K row :=
  (fun r => mkRow (row_ts r) (enrich (row_data r))) <$> rs.

Definition enrich_table (t : table) : table :=
  mkTable (tschema t) (enrich_rows (rows t)).

(** The effect of the enrichment on the table [name]: only the TLS table
    is touched. *)
Definition touch (name : string) : table -> table :=
  if decide (name = tls_table) then enrich_table else id.

(** [resolve_domain_names(cursor)]: updates the data of rows of the TLS
    table in place and returns how many it changed; every exception is
    caught inside. *)
Definition resolve_domain_names (an : gmap string table)
  : gmap string table * Z :=
  match an !! tls_table with
  | Some t =>
      (<[tls_table := enrich_table t]> an,
       Z.of_nat (size (filter (fun kr => enrich (row_data kr.2) <> row_data kr.2)
                              (rows t))))
  | None => (an, 0)
  end.

(** [sync_databases()]: the analysis store after the pass and the value
    returned.  An exception outside the per-table handlers reaches the
    outer handler, which rolls the transaction back and returns 0. *)
Definition sync_databases (f : faults) (capture an : gmap string table)
  : gmap string table * Z :=
  if enumerate_fails f then (an, 0)
  else
    let '(an1, sync_count) := sync_tables f capture an in
    let '(an2, resolved) := resolve_domain_names an1 in
    if commit_fails f then (an, 0)
    else (an2, sync_count + resolved).

(** The rows of a table of a store; none when the table is missing. *)
Definition rows_of (an : gmap string table) (name : string) : gmap K row :=
  match an !! name with
  | Some t => rows t
  | None => ∅
  end.

(** [SELECT COUNT( * ) FROM name] *)
Definition row_count (an : gmap string table) (name : string) : nat :=
  size (rows_of an name).

(** The timestamps of the rows of a table, by key. *)
Definition stamps (rs : gmap K row) : gmap K (option stamp) := row_ts <$> rs.

End Pass.
End Store.

Arguments table K {_ _}.
Arguments faults K : clear implicits.

(** ** Sample stores (integer primary keys) *)

(** [datetime] on the numbers that [time.time()] gives: they lie above
    the last Julian day, and none is read as a date. *)
Definition no_julian_date : Z -> option Z := fun _ => None.

(** A table whose timestamp column is declared [REAL]. *)
Definition sample_schema : schema := mkSchema true true true.

(** A table whose timestamp column is declared [TIMESTAMP]. *)
Definition timestamp_schema : schema := mkSchema true true false.

(** Rows stamped with [time.time()]. *)
Definition clock_rows : gmap Z row :=
  {[ 1 := mkRow (Some (Num 1700000005)) ["10.0.0.5"];
     2 := mkRow (Some (Num 1700000020)) ["10.0.0.9"] ]}.

(** A capture store whose table has a [TIMESTAMP] column that holds
    numbers, and an analysis store that has the older row. *)
Definition clock_capture : gmap string (table Z) :=
  {[ "app_protocols" := mkTable timestamp_schema clock_rows ]}.

Definition clock_analysis : gmap string (table Z) :=
  {[ "app_protocols" :=
       mkTable timestamp_schema
               {[ 1 := mkRow (Some (Num 1700000005)) ["10.0.0.5"] ]} ]}.




Definition packet_rows : gmap Z row :=
  {[ 1 := mkRow (Some (Num 5)) ["10.0.0.5"]; 2 := mkRow (Some (Num 20)) ["10.0.0.9"] ]}.

(** The capture store: three tables with the same two rows. *)
Definition sample_capture : gmap string (table Z) :=
  {[ "alerts" := mkTable sample_schema packet_rows;
     "connections" := mkTable sample_schema packet_rows;
     "arp_data" := mkTable sample_schema packet_rows ]}.

(** The analysis store after an earlier pass: the older row of each
    table, and an ARP entry that the capture store no longer has. *)
Definition sample_analysis : gmap string (table Z) :=
  {[ "alerts" := mkTable sample_schema {[ 1 := mkRow (Some (Num 5)) ["10.0.0.5"] ]};
     "arp_data" := mkTable sample_schema
                     {[ 1 := mkRow (Some (Num 5)) ["10.0.0.5"];
                        3 := mkRow (Some (Num 7)) ["10.0.0.7"] ]} ]}.

(** A pass in which the work on [alerts] fails at its first statement. *)
Definition alerts_fault : faults Z :=
  mkFaults false
           (fun name => if decide (name = "alerts") then AtLookup else NoFault)
           (fun _ _ => false) false.

(** A pass whose final commit fails. *)
Definition commit_fault : faults Z :=
  mkFaults false (fun _ => NoFault) (fun _ _ => false) true.

End Sync.

(* ===================================================================== *)
(** * More of the capture store ([database_manager.py]) *)
(* ===================================================================== *)

Module CaptureMore.
Import PyStr Capture.

(** The arguments of one call of [add_packet], with the clock value at
    the write. *)
Record packet_call : Type := mkCall {
  call_key : string;
  call_src : string;
  call_dst : string;
  call_sport : option Z;
  call_dport : option Z;
  call_length : Z;
  call_rdp : Z;
  call_now : Z
}.

Definition add_packet_call (db : gmap string connection) (c : packet_call)
  : gmap string connection :=
  (add_packet (call_key c) (call_src c) (call_dst c) (call_sport c)
              (call_dport c) (call_length c) (call_rdp c) (call_now c) db).2.

(** A sequence of calls of [add_packet], oldest first. *)
Definition add_packets (calls : list packet_call)
    (db : gmap string connection) : gmap string connection :=
  foldl add_packet_call db calls.

(** The calls made for one key. *)
Definition calls_for (key : string) (calls : list packet_call)
  : list packet_call :=
  filter (fun c => call_key c = key) calls.

(** The sum of the lengths passed in a list of calls. *)
Definition sum_lengths (calls : list packet_call) : Z :=
  foldr (fun c acc => call_length c + acc) 0 calls.

(** The counters of the row of a key; both are 0 while there is no row. *)
Definition bytes_of (db : gmap string connection) (key : string) : sqlnum :=
  from_option total_bytes (Int 0) (db !! key).

Definition count_of (db : gmap string connection) (key : string) : sqlnum :=
  from_option packet_count (Int 0) (db !! key).

(** What a call passes can be bound. *)
Definition call_ok (c : packet_call) : bool :=
  int64 (call_length c) && bindable (call_sport c) && bindable (call_dport c)
  && int64 (call_rdp c).

(** Starting from [b], adding the numbers one by one never leaves the
    64-bit range. *)
Fixpoint sums_in_range (b : Z) (ls : list Z) : bool :=
  int64 b &&
  match ls with
  | [] => true
  | l :: rest => sums_in_range (b + l) rest
  end.

(** A row whose byte counter is the greatest 64-bit integer. *)
Definition full_row : connection :=
  mkConn "10.0.0.5" "10.0.0.9" (Some 51000) (Some 443) (2 ^ 63 - 1) 7 0
         "unknown" 0 None None.

End CaptureMore.

(* ===================================================================== *)
(** * More sample stores for the synchronization pass *)
(* ===================================================================== *)

Module SyncMore.
Import Sync.

(** Rows of a capture table: one stamped with a number above 0, one
    stamped 0, one whose timestamp is [NULL]. *)
Definition mixed_rows : gmap Z row :=
  {[ 1 := mkRow (Some (Num 5)) ["10.0.0.5"];
     2 := mkRow (Some (Num 0)) ["10.0.0.9"];
     3 := mkRow None ["10.0.0.7"] ]}.

Definition mixed_capture : gmap string (table Z) :=
  {[ "alerts" := mkTable sample_schema mixed_rows ]}.

(** An analysis store in which the table exists and is empty, as after
    [_create_tables]. *)
Definition empty_analysis : gmap string (table Z) :=
  {[ "alerts" := mkTable sample_schema ∅ ]}.

(** The same rows in a table whose timestamp column is declared
    [TIMESTAMP], with a row stamped by [CURRENT_TIMESTAMP]. *)
Definition mixed_dated_rows : gmap Z row :=
  <[4 := mkRow (Some (Date 1700000005)) ["10.0.0.8"]]> mixed_rows.

Definition mixed_dated_capture : gmap string (table Z) :=
  {[ "alerts" := mkTable timestamp_schema mixed_dated_rows ]}.

Definition empty_dated_analysis : gmap string (table Z) :=
  {[ "alerts" := mkTable timestamp_schema ∅ ]}.

(** A pass in which the rows of the ARP table cannot be fetched. *)
Definition arp_fetch_fault : faults Z :=
  mkFaults false
           (fun name => if decide (name = arp_table) then AtFetch else NoFault)
           (fun _ _ => false) false.

(** A pass in which every row insert fails. *)
Definition all_rows_fault : faults Z :=
  mkFaults false (fun _ => NoFault) (fun _ _ => true) false.

End SyncMore.

(* ===================================================================== *)
(** * Other readers of connection keys ([database_manager.py]) *)
(* ===================================================================== *)

Module KeyMore.
Import PyStr ConnKey Capture.

(** [sep.join(parts)] *)
Fixpoint join (sep : string) (parts : list string) : string :=
  match parts with
  | [] => EmptyString
  | p :: rest =>
      match rest with
      | [] => p
      | _ :: _ => p +:+ sep +:+ join sep rest
      end
  end.

(** [parts[i]] for a non-negative literal [i]. *)
Definition index (parts : list string) (i : nat) : res string :=
  match parts !! i with
  | Some p => Ok p
  | None => Raise IndexError
  end.

(** [parts[-1]] *)
Definition index_last (parts : list string) : res string :=
  match last parts with
  | Some p => Ok p
  | None => Raise IndexError
  end.

(** ** [_is_ip_address(value)] *)

(** [all(0 <= int(p) <= 255 for p in parts)]: the generator is consumed
    up to the first part out of range; [int] may raise on the way. *)
Fixpoint all_octets (parts : list string) : res bool :=
  match parts with
  | [] => Ok true
  | p :: rest =>
      n ← py_int p;
      if (0 <=? n) && (n <=? 255) then all_octets rest else Ok false
  end.

Definition _is_ip_address (value : string) : bool :=
  if String.eqb value "" then false
  else
    let parts := split "." value in
    if negb (length parts =? 4)%nat then false
    else try_except_all
           (try_except (all_octets parts) ValueError (Ok false)) false.

(** The text of a dotted quad. *)
Definition dotted_quad (a b c d : Z) : string :=
  str_int a +:+ "." +:+ str_int b +:+ "." +:+ str_int c +:+ "." +:+ str_int d.

(** ** The destination that [resolve_domain_names] looks up *)

(** [connection_key.split('->')[1].split(':')[0]] *)
Definition key_dst_ip (connection_key : string) : res string :=
  dst_part ← index (split "->" connection_key) 1;
  index (split ":" dst_part) 0.

(** Truth value of an optional text ([if server_name], [if hostname]). *)
Definition nonempty (o : option string) : bool :=
  match o with
  | Some s => negb (String.eqb s "")
  | None => false
  end.

(** One iteration of [for row in rows] in [resolve_domain_names]:
    [None] when the row is left as it is, the new [server_name] when it
    is updated.  [gethostbyaddr] gives the host name of the reverse
    lookup, [None] when it raises [socket.herror] or [socket.gaierror]. *)
Definition resolve_row (gethostbyaddr : string -> option string)
    (server_name : option string) (connection_key : string) : option string :=
  match try_except (x ← key_dst_ip connection_key; Ok (Some x))
                   IndexError (Ok None) with
  | Ok (Some dst_ip) =>
      if nonempty server_name
         && negb (_is_ip_address (default "" server_name))
      then None
      else
        match gethostbyaddr dst_ip with
        | Some hostname =>
            if negb (String.eqb hostname "")
               && negb (String.eqb hostname dst_ip)
               && negb (_is_ip_address hostname)
            then Some hostname
            else None
        | None => None
        end
  | _ => None
  end.

(** ** [add_app_protocol]: the connection created from the key *)

(** The fields read off the key when the connection has no row:
    [None] stands for the two [return False] exits. *)
Definition auto_fields (connection_key : string)
  : option (string * string * Z * Z) :=
  match split "->" connection_key with
  | [p0; p1] =>
      let src_part := split ":" p0 in
      let dst_part := split ":" p1 in
      if ((2 <=? length src_part)%nat && (2 <=? length dst_part)%nat)%bool then
        let src_ip := join ":" (removelast src_part) in
        let dst_ip := join ":" (removelast dst_part) in
        match try_except
                (sp ← index_last src_part;
                 src_port ← py_int sp;
                 dp ← index_last dst_part;
                 dst_port ← py_int dp;
                 Ok (src_port, dst_port))
                ValueError (Ok (0, 0)) with
        | Ok (src_port, dst_port) => Some (src_ip, dst_ip, src_port, dst_port)
        | Raise _ => None
        end
      else None
  | _ => None
  end.





End KeyMore.

(* ===================================================================== *)
(** * The alert table and its writer ([database_manager.py]) *)
(* ===================================================================== *)

Module AlertStore.
Import Alerts.

Section Connection.
Context {S : Type}.

(** An SQLite connection as the writers see it: the content that is
    committed, the content as the statements of the connection see it,
    and the connection's [in_transaction] flag. *)
Record conn : Type := mkConnection {
  committed : S;
  working : S;
  in_transaction : bool
}.

(** [connection.commit()] *)
Definition commit (c : conn) : conn :=
  mkConnection (working c) (working c) false.

(** [connection.rollback()] *)
Definition rollback (c : conn) : conn :=
  mkConnection (committed c) (committed c) false.

(** [cursor.execute("BEGIN TRANSACTION")]: inside a transaction SQLite
    refuses with "cannot start a transaction within a transaction". *)
Definition begin_transaction (c : conn) : res conn :=
  if in_transaction c then Raise OperationalError
  else Ok (mkConnection (committed c) (working c) true).

(** [TransactionContext.__enter__]: the connection after it and the
    [transaction_active] flag of the context.  The refusal of [BEGIN]
    inside a transaction is the one the handler recognises by its
    message: the context then uses the open transaction. *)
Definition enter (c : conn) : conn * bool :=
  match begin_transaction c with
  | Ok c' => (c', true)
  | Raise _ => (c, false)
  end.

(** [TransactionContext.__exit__(exc_type, ...)]: [failed] tells whether
    the body raised.  It returns [False], so the exception goes on. *)
Definition exit (transaction_active failed : bool) (c : conn) : conn :=
  if transaction_active
  then if failed then rollback c else commit c
  else c.

(** [with self.transaction(connection) as cursor: body]: the body's
    statements act on the content the connection sees; it gives that
    content as it is when the body ends, and the body's result or the
    exception that ended it. *)
Definition with_transaction {A : Type} (body : S -> S * res A) (c : conn)
  : conn * res A :=
  let '(c1, transaction_active) := enter c in
  let '(w, r) := body (working c1) in
  let c2 := mkConnection (committed c1) w (in_transaction c1) in
  (exit transaction_active (match r with Ok _ => false | Raise _ => true end) c2,
   r).

End Connection.

Arguments conn S : clear implicits.

(** A row of [alerts] as far as the writer sets it:
    [(ip_address, alert_message, rule_name)]; the rows are held in the
    order of their insertion. *)
Definition alert_row : Type := string * string * string.

(** [INSERT INTO alerts (ip_address, alert_message, rule_name)
    VALUES (?, ?, ?)]; [fails] tells whether the statement raises. *)
Definition insert_alert (fails : bool) (item : alert_row)
    (rows : list alert_row) : list alert_row * res unit :=
  if fails then (rows, Raise OperationalError) else (rows ++ [item], Ok tt).

(** One item taken off the alert queue by [_process_alerts]; an
    exception of the insert is logged and the loop goes on. *)
Definition process_alert_item (c : conn (list alert_row))
    (job : alert_row * bool) : conn (list alert_row) :=
  (with_transaction (insert_alert job.2 job.1) c).1.

(** [_process_alerts()] over the items of the queue, oldest first, each
    with the outcome of its insert. *)
Definition _process_alerts (jobs : list (alert_row * bool))
    (c : conn (list alert_row)) : conn (list alert_row) :=
  foldl process_alert_item c jobs.

(** The items whose insert did not fail. *)
Definition inserted (jobs : list (alert_row * bool)) : list alert_row :=
  (filter (fun job => job.2 = false) jobs).*1.

(** A freshly created, empty alert table. *)
Definition empty_table : conn (list alert_row) := mkConnection [] [] false.

End AlertStore.

(* ===================================================================== *)
(** * The decode loop with what it hands on ([capture_packets]) *)
(* ===================================================================== *)

Module DecoderMore.
Import PyStr Decoder.

Section Loop.
Variable json_ok : string -> bool.

(** One iteration of the [for binary_line in ...] loop on the buffer and
    on the record of the [packet_objects] lists of the iterations so far
    (every object of such a list is decoded and handed to
    [process_packet_ek]).  A blank input line is skipped by [continue]. *)
Definition iteration (st : string * list (list string)) (raw_line : string)
  : string * list (list string) :=
  let line := strip raw_line in
  if String.eqb line "" then st
  else
    let buffer := appended st.1 line in
    (checked max_buffer (trimmed json_ok tail_keep buffer),
     st.2 ++ [extract_ek_objects json_ok buffer]).

(** The loop over the lines read from the decoder process. *)
Definition capture_loop (raw_lines : list string)
  : string * list (list string) :=
  foldl iteration (EmptyString, []) raw_lines.

End Loop.

(** The text of a buffer to which the given lines were appended, each
    followed by a newline. *)
Definition buffer_of (lines : list string) : string :=
  foldr (fun l acc => l +:+ nl +:+ acc) EmptyString lines.

(** A line as [readline] and [strip] give it to the loop: not blank and
    without a newline inside. *)
Definition input_line (raw_line : string) : Prop :=
  strip raw_line <> EmptyString /\ contains nl (strip raw_line) = false.

(** A line of the buffer: [strip] leaves it as it is, it is not blank
    and holds no newline. *)
Definition clean_line (l : string) : Prop :=
  strip l = l /\ l <> EmptyString /\ contains nl l = false.

(** A line that is a data object by itself: valid JSON for [json.loads],
    and not an index line. *)
Definition data_line (json_ok : string -> bool) (raw_line : string) : Prop :=
  json_ok (strip raw_line) = true /\
  startswith index_prefix (strip raw_line) = false.

(** The first character of a text is not white space. *)
Definition head_ok (s : string) : bool :=
  match s with
  | EmptyString => true
  | String c _ => negb (is_space c)
  end.

End DecoderMore.

(* ===================================================================== *)
(** * The false-positive list on disk ([traffic_analyzer.py]) *)
(* ===================================================================== *)

From stdpp Require sorting.

Module FpFile.
Import PyStr Decoder.

Definition cr : ascii := ascii_of_nat 13.
Definition lf : ascii := ascii_of_nat 10.

(** Reading in text mode: the line ends ["\r\n"] and ["\r"] arrive as
    ["\n"]. *)
Fixpoint universal_newlines (s : string) : string :=
  match s with
  | EmptyString => EmptyString
  | String c s' =>
      if Ascii.eqb c cr then
        match s' with
        | String d s'' =>
            if Ascii.eqb d lf then String lf (universal_newlines s'')
            else String lf (universal_newlines s')
        | EmptyString => String lf EmptyString
        end
      else String c (universal_newlines s')
  end.

(** [for line in f]: the lines of the text, each with its newline; a last
    line without newline is given as it is. *)
Definition file_lines (content : string) : list string :=
  let parts := split nl (universal_newlines content) in
  ((fun p => p +:+ nl) <$> removelast parts)
  ++ match last parts with
     | Some p => if String.eqb p "" then [] else [p]
     | None => []
     end.

(** The body of [for line in f] in [load_false_positives]. *)
Definition load_line (false_positives : gset string) (line : string)
  : gset string :=
  let line := strip line in
  if negb (String.eqb line "") && negb (startswith "#" line)
  then {[line]} ∪ false_positives
  else false_positives.

(** [load_false_positives()]: [content] is the text of the file, [None]
    when the file does not exist. *)
Definition load_false_positives (content : option string) : gset string :=
  match content with
  | Some text => foldl load_line ∅ (file_lines text)
  | None => ∅
  end.

(** The order of [sorted] on texts. *)
Definition str_le (a b : string) : Prop := String.leb a b = true.

#[global] Instance str_le_dec (a b : string) : Decision (str_le a b).
Proof. unfold str_le. apply _. Defined.





End FpFile.

(* ===================================================================== *)
(** * The DNS and ARP stores of the decoder ([traffic_capture.py]) *)
(* ===================================================================== *)

Module Stores.
Import PyStr Capture.

(** A row of [dns_queries] as [add_dns_query] writes it; the rows are
    held in the order of their insertion. *)
Record dns_row : Type := mkDns {
  dns_timestamp : Z;
  dns_src_ip : string;
  query_domain : string;
  query_type : string
}.

(** [add_dns_query(src_ip, query_domain, query_type)]: the value
    returned and the table after the commit. *)
Definition add_dns_query (src_ip query_domain query_type : string)
    (current_time : Z) (tbl : list dns_row) : bool * list dns_row :=
  (true, tbl ++ [mkDns current_time src_ip query_domain query_type]).

(** [x or default] on an optional text. *)
Definition or_text (x : option string) (default : string) : string :=
  match x with
  | Some s => if String.eqb s "" then default else s
  | None => default
  end.

(** [_store_dns_data(layers, src_ip)]: the call of [add_dns_query]
    passes ten positional arguments; every exception is caught by
    [except Exception: ... return False]. *)
Definition _store_dns_data (layers : layers_t) (src_ip : string)
    (current_time : Z) (tbl : list dns_row) : bool * list dns_row :=
  let query_name := get_layer_value layers "dns_qry_name" in
  if negb (truthy query_name) then (false, tbl)
  else
    let query_type := or_text (get_layer_value layers "dns_qry_type") "unknown" in
    match py_call 3 0 10
            (Ok (add_dns_query src_ip (or_text query_name "") query_type
                               current_time tbl)) with
    | Ok out => out
    | Raise _ => (false, tbl)
    end.




End Stores.

(* ===================================================================== *)
(** * Facts about the string primitives *)
(* ===================================================================== *)

Module PyStrFacts.
Import PyStr ConnKey.

Lemma prefix_empty (s : string) : String.prefix "" s = true.
Proof. by destruct s. Qed.

Lemma prefix_char (c a : ascii) (s : string) :
  String.prefix (String c "") (String a s) = Ascii.eqb c a.
Proof.
  simpl. destruct (ascii_dec c a) as [->|Hne].
  - by rewrite prefix_empty, Ascii.eqb_refl.
  - symmetry. by apply Ascii.eqb_neq.
Qed.

Lemma contains_char_cons (c a : ascii) (s : string) :
  contains (String c "") (String a s)
  = Ascii.eqb c a || contains (String c "") s.
Proof.
  cbn [contains]. rewrite prefix_char. by destruct (Ascii.eqb c a).
Qed.

Lemma contains_char_nil (c : ascii) : contains (String c "") "" = false.
Proof. reflexivity. Qed.

Lemma contains_char_app (c : ascii) (a b : string) :
  contains (String c "") (a +:+ b)
  = contains (String c "") a || contains (String c "") b.
Proof.
  induction a as [|x a IH]; [done|].
  change (String x a +:+ b) with (String x (a +:+ b)).
  rewrite !contains_char_cons, IH. by destruct (Ascii.eqb c x).
Qed.

Lemma all_chars_app (p : ascii -> bool) (a b : string) :
  all_chars p (a +:+ b) = all_chars p a && all_chars p b.
Proof.
  induction a as [|x a IH]; [done|].
  change (String x a +:+ b) with (String x (a +:+ b)).
  cbn [all_chars]. rewrite IH. by destruct (p x).
Qed.

Lemma all_chars_impl (p q : ascii -> bool) (s : string) :
  (forall c, p c = true -> q c = true) ->
  all_chars p s = true -> all_chars q s = true.
Proof.
  intros Hpq. induction s as [|x s IH]; [done|].
  cbn. intros [Hx Hs]%andb_prop. by rewrite (Hpq _ Hx), IH.
Qed.

Lemma all_chars_no_char (p : ascii -> bool) (c : ascii) (s : string) :
  p c = false -> all_chars p s = true -> contains (String c "") s = false.
Proof.
  intros Hc. induction s as [|x s IH]; [done|].
  cbn [all_chars]. intros [Hx Hs]%andb_prop.
  rewrite contains_char_cons, IH by done.
  destruct (Ascii.eqb_spec c x) as [->|]; [congruence|done].
Qed.

Lemma length_app (a b : string) :
  String.length (a +:+ b) = (String.length a + String.length b)%nat.
Proof.
  induction a as [|x a IH]; [done|].
  change (String x a +:+ b) with (String x (a +:+ b)).
  cbn [String.length]. by rewrite IH.
Qed.

Lemma len_app (a b : string) : len (a +:+ b) = len a + len b.
Proof. unfold len. rewrite length_app. lia. Qed.

Lemma len_cons (c : ascii) (s : string) : len (String c s) = 1 + len s.
Proof. unfold len. cbn [String.length]. lia. Qed.

Lemma len_nonneg (s : string) : 0 <= len s.
Proof. unfold len. lia. Qed.

Lemma sdrop_app (a b : string) : sdrop (String.length a) (a +:+ b) = b.
Proof. induction a as [|x a IH]; [done|]. exact IH. Qed.

Lemma stake_app (a b : string) : stake (String.length a) (a +:+ b) = a.
Proof.
  induction a as [|x a IH]; [by destruct b|].
  change (String x a +:+ b) with (String x (a +:+ b)).
  cbn [String.length stake]. by rewrite IH.
Qed.

Lemma find_char_app (c : ascii) (a b : string) :
  contains (String c "") a = false ->
  find (String c "") (a +:+ String c b) = len a.
Proof.
  induction a as [|x a IH].
  - intros _. change ("" +:+ String c b) with (String c b).
    cbn [find]. by rewrite prefix_char, Ascii.eqb_refl.
  - rewrite contains_char_cons. intros [Hx Ha]%orb_false_elim.
    change (String x a +:+ String c b) with (String x (a +:+ String c b)).
    cbn [find]. rewrite prefix_char, Hx, (IH Ha), len_cons.
    pose proof (len_nonneg a).
    destruct (Z.ltb_spec (len a) 0); lia.
Qed.

Lemma rcut_none (c : ascii) (s : string) :
  contains (String c "") s = false -> rcut c s = None.
Proof.
  induction s as [|x s IH]; [done|].
  rewrite contains_char_cons. intros [Hx Hs]%orb_false_elim.
  cbn. rewrite (IH Hs). rewrite Ascii.eqb_sym in Hx. by rewrite Hx.
Qed.

Lemma rcut_app (c : ascii) (h t : string) :
  contains (String c "") t = false ->
  rcut c (h +:+ String c t) = Some (h, t).
Proof.
  intros Ht. induction h as [|x h IH].
  - change ("" +:+ String c t) with (String c t).
    cbn [rcut]. by rewrite (rcut_none _ _ Ht), Ascii.eqb_refl.
  - change (String x h +:+ String c t) with (String x (h +:+ String c t)).
    cbn [rcut]. by rewrite IH.
Qed.

Lemma prefix_cons (a x : ascii) (p s : string) :
  String.prefix (String a p) (String x s) = Ascii.eqb a x && String.prefix p s.
Proof.
  cbn [String.prefix]. destruct (ascii_dec a x) as [->|Hne].
  - by rewrite Ascii.eqb_refl.
  - apply Ascii.eqb_neq in Hne. by rewrite Hne.
Qed.

Lemma prefix_char_absent (c : ascii) (s : string) :
  contains (String c "") s = false -> String.prefix (String c "") s = false.
Proof.
  destruct s as [|y s]; [done|].
  rewrite contains_char_cons, prefix_char. by intros [? _]%orb_false_elim.
Qed.

Lemma prefix_char_app_absent (c d : ascii) (a t : string) :
  contains (String c "") a = false -> Ascii.eqb c d = false ->
  String.prefix (String c "") (a +:+ String d t) = false.
Proof.
  intros Ha Hd. destruct a as [|y a].
  - change ("" +:+ String d t) with (String d t). by rewrite prefix_char.
  - change (String y a +:+ String d t) with (String y (a +:+ String d t)).
    rewrite prefix_char. rewrite contains_char_cons in Ha.
    by apply orb_false_elim in Ha as [? _].
Qed.

Lemma split_arrow_none (s : string) :
  contains ">" s = false -> split "->" s = [s].
Proof.
  unfold split. induction s as [|x s IH]; [done|].
  rewrite contains_char_cons. intros [Hx Hs]%orb_false_elim.
  cbn [split_aux]. rewrite (IH Hs), prefix_cons, (prefix_char_absent _ _ Hs).
  by rewrite andb_false_r.
Qed.

Lemma split_arrow_app (a b : string) :
  contains ">" a = false -> contains ">" b = false ->
  split "->" (a +:+ "->" +:+ b) = [a; b].
Proof.
  intros Ha Hb. unfold split. induction a as [|x a IH].
  - change ("" +:+ "->" +:+ b) with (String "-" (String ">" b)).
    cbn [split_aux String.length Nat.sub].
    rewrite prefix_cons, prefix_char, !Ascii.eqb_refl. cbn [andb].
    fold (split "->" b). rewrite split_arrow_none by done.
    reflexivity.
  - rewrite contains_char_cons in Ha. apply orb_false_elim in Ha as [Hx Ha].
    change (String x a +:+ "->" +:+ b) with (String x (a +:+ "->" +:+ b)).
    cbn [split_aux]. rewrite (IH Ha), prefix_cons.
    change ("->" +:+ b) with (String "-" (String ">" b)).
    rewrite prefix_char_app_absent, andb_false_r; done.
Qed.

Lemma digit_not_space (c : ascii) : is_digit c = true -> is_space c = false.
Proof. destruct c as [[] [] [] [] [] [] [] []]; by vm_compute. Qed.

Lemma rstrip_no_space (s : string) :
  all_chars (fun c => negb (is_space c)) s = true -> rstrip s = s.
Proof.
  induction s as [|x s IH]; [done|].
  cbn [all_chars rstrip]. intros [Hx Hs]%andb_prop. rewrite (IH Hs).
  apply negb_true_iff in Hx. rewrite Hx. by destruct s.
Qed.

Lemma strip_no_space (s : string) :
  all_chars (fun c => negb (is_space c)) s = true -> strip s = s.
Proof.
  intros Hs. unfold strip.
  replace (lstrip s) with s; [by apply rstrip_no_space|].
  destruct s as [|x s]; [done|].
  cbn [all_chars] in Hs. apply andb_prop in Hs as [Hx _].
  apply negb_true_iff in Hx. cbn [lstrip]. by rewrite Hx.
Qed.

Lemma uint_text_digits (u : uint) :
  all_chars is_digit (NilEmpty.string_of_uint u) = true.
Proof. induction u; cbn [NilEmpty.string_of_uint all_chars]; by rewrite ?IHu. Qed.

Lemma digit_not_int_space (c : ascii) :
  is_digit c = true -> int_space c = false.
Proof. destruct c as [[] [] [] [] [] [] [] []]; by vm_compute. Qed.

Lemma rstrip_by_none (p : ascii -> bool) (s : string) :
  all_chars (fun c => negb (p c)) s = true -> rstrip_by p s = s.
Proof.
  induction s as [|x s IH]; [done|].
  cbn [all_chars rstrip_by]. intros [Hx Hs]%andb_prop. rewrite (IH Hs).
  apply negb_true_iff in Hx. rewrite Hx. by destruct s.
Qed.

Lemma strip_by_none (p : ascii -> bool) (s : string) :
  all_chars (fun c => negb (p c)) s = true ->
  rstrip_by p (lstrip_by p s) = s.
Proof.
  intros Hs.
  replace (lstrip_by p s) with s; [by apply rstrip_by_none|].
  destruct s as [|x s]; [done|].
  cbn [all_chars] in Hs. apply andb_prop in Hs as [Hx _].
  apply negb_true_iff in Hx. cbn [lstrip_by]. by rewrite Hx.
Qed.

Lemma digits_us_digits (b : bool) (s : string) :
  all_chars is_digit s = true -> s <> "" \/ b = true ->
  digits_us b s = Some s.
Proof.
  revert b. induction s as [|x s IH]; intros b Hs Hb.
  - destruct Hb as [?| ->]; done.
  - cbn [all_chars] in Hs. apply andb_prop in Hs as [Hx Hs].
    cbn [digits_us]. rewrite Hx, (IH true Hs) by (by right). done.
Qed.

Lemma sign_split_digit (c : ascii) (s : string) :
  is_digit c = true ->
  match String c s with
  | String "-" r => (true, r)
  | String "+" r => (false, r)
  | _ => (false, String c s)
  end = (false, String c s).
Proof. destruct c as [[] [] [] [] [] [] [] []]; by vm_compute. Qed.

Lemma py_int_uint (u : uint) :
  u <> Nil -> py_int (NilEmpty.string_of_uint u) = Ok (Z.of_uint u).
Proof.
  intros Hu. pose proof (uint_text_digits u) as Hd.
  assert (Hne : NilEmpty.string_of_uint u <> "") by (by destruct u).
  unfold py_int. rewrite strip_by_none.
  2:{ eapply all_chars_impl; [|exact Hd].
      intros c Hc. by rewrite (digit_not_int_space _ Hc). }
  destruct (NilEmpty.string_of_uint u) as [|c s] eqn:E; [done|].
  pose proof Hd as Hd'. cbn [all_chars] in Hd'. apply andb_prop in Hd' as [Hc _].
  rewrite (sign_split_digit _ _ Hc).
  rewrite digits_us_digits by (done || by left).
  by rewrite <- E, NilEmpty.usu.
Qed.

Lemma py_int_neg_uint (u : uint) :
  u <> Nil ->
  py_int (String "-" (NilEmpty.string_of_uint u)) = Ok (- Z.of_uint u).
Proof.
  intros Hu. pose proof (uint_text_digits u) as Hd.
  assert (Hne : NilEmpty.string_of_uint u <> "") by (by destruct u).
  unfold py_int. rewrite strip_by_none.
  2:{ cbn [all_chars]. apply andb_true_intro. split; [done|].
      eapply all_chars_impl; [|exact Hd].
      intros c Hc. by rewrite (digit_not_int_space _ Hc). }
  rewrite digits_us_digits by (done || by left).
  by rewrite NilEmpty.usu.
Qed.

(** [int(str(n)) == n] for every integer. *)
Lemma py_int_str_int (n : Z) : py_int (str_int n) = Ok n.
Proof.
  unfold str_int. destruct n as [|p|p]; cbn [Z.to_int NilZero.string_of_int].
  - reflexivity.
  - pose proof (DecimalPos.Unsigned.to_uint_nonnil p) as Hp.
    replace (NilZero.string_of_uint (Pos.to_uint p))
      with (NilEmpty.string_of_uint (Pos.to_uint p))
      by (by destruct (Pos.to_uint p)).
    rewrite py_int_uint by done.
    f_equal. exact (DecimalZ.of_to (Z.pos p)).
  - pose proof (DecimalPos.Unsigned.to_uint_nonnil p) as Hp.
    replace (NilZero.string_of_uint (Pos.to_uint p))
      with (NilEmpty.string_of_uint (Pos.to_uint p))
      by (by destruct (Pos.to_uint p)).
    rewrite py_int_neg_uint by done.
    f_equal. exact (DecimalZ.of_to (Z.neg p)).
Qed.

(** The decimal text of a non-negative integer consists of digits. *)
Lemma str_int_digits (n : Z) : 0 <= n -> all_chars is_digit (str_int n) = true.
Proof.
  intros Hn. unfold str_int. destruct n as [|p|p]; [done| |lia].
  cbn [Z.to_int NilZero.string_of_int].
  pose proof (DecimalPos.Unsigned.to_uint_nonnil p) as Hp.
  replace (NilZero.string_of_uint (Pos.to_uint p))
    with (NilEmpty.string_of_uint (Pos.to_uint p))
    by (by destruct (Pos.to_uint p)).
  apply uint_text_digits.
Qed.

(** ** What [int()] rejects *)

Lemma all_chars_lstrip_by (p q : ascii -> bool) (s : string) :
  (forall c, p c = true -> q c = true) ->
  all_chars q (lstrip_by p s) = all_chars q s.
Proof.
  intros Hpq. induction s as [|x s IH]; [done|]. cbn [lstrip_by].
  destruct (p x) eqn:E; [|done]. cbn [all_chars]. by rewrite (Hpq _ E), IH.
Qed.

Lemma all_chars_rstrip_by (p q : ascii -> bool) (s : string) :
  (forall c, p c = true -> q c = true) ->
  all_chars q (rstrip_by p s) = all_chars q s.
Proof.
  intros Hpq. induction s as [|x s IH]; [done|]. cbn [rstrip_by all_chars].
  rewrite <- IH. destruct (rstrip_by p s) as [|y r]; [|done].
  destruct (p x) eqn:E; cbn [all_chars]; [by rewrite (Hpq _ E)|].
  by rewrite andb_true_r.
Qed.

Lemma digits_us_foreign (b : bool) (s : string) :
  all_chars int_char s = false -> digits_us b s = None.
Proof.
  revert b. induction s as [|x s IH]; intros b; [done|].
  cbn [all_chars digits_us]. intros Hs.
  destruct (is_digit x) eqn:Hd.
  { rewrite IH; [done|]. unfold int_char in Hs. by rewrite Hd in Hs. }
  destruct (Ascii.eqb x "_") eqn:Hu; cbn [andb]; [|done].
  destruct b; [|done]. apply IH.
  unfold int_char in Hs. by rewrite Hu, orb_true_r in Hs.
Qed.

(** A text that holds a character other than a digit, an underscore, a
    sign or the white space of [int()] is no integer literal. *)
Lemma py_int_foreign (s : string) :
  all_chars int_char s = false -> py_int s = Raise ValueError.
Proof.
  intros Hs. unfold py_int.
  set (t := rstrip_by int_space (lstrip_by int_space s)).
  assert (Hsp : forall c, int_space c = true -> int_char c = true).
  { intros c Hc. unfold int_char. by rewrite Hc, !orb_true_r. }
  assert (Ht : all_chars int_char t = false).
  { unfold t. by rewrite all_chars_rstrip_by, all_chars_lstrip_by. }
  assert (Hbody : all_chars int_char
                    (match t with
                     | String "-" r => (true, r)
                     | String "+" r => (false, r)
                     | _ => (false, t)
                     end).2 = false).
  { destruct t as [|c r]; [exact Ht|].
    destruct c as [[] [] [] [] [] [] [] []]; exact Ht. }
  destruct (match t with
            | String "-" r => (true, r)
            | String "+" r => (false, r)
            | _ => (false, t)
            end) as [neg body].
  by rewrite (digits_us_foreign false body Hbody).
Qed.

End PyStrFacts.

(* ===================================================================== *)
(** * Connection keys: round trip and failure behaviour *)
(* ===================================================================== *)

Module ConnKeyFacts.
Import PyStr ConnKey PyStrFacts.

Lemma sdrop_add (a b : string) (k : nat) :
  sdrop (String.length a + k) (a +:+ b) = sdrop k b.
Proof. induction a as [|x a IH]; [done|]. exact IH. Qed.

Lemma parse_part_plain (ip pt : string) :
  contains "[" ip = false -> contains "[" pt = false ->
  contains ":" pt = false ->
  parse_part (ip +:+ ":" +:+ pt) = Ok (ip, pt).
Proof.
  intros Hip Hpt Hcolon. unfold parse_part.
  change (":" +:+ pt) with (String ":" pt).
  rewrite contains_char_app, contains_char_cons, Hip, Hpt. cbn [orb andb].
  replace (Ascii.eqb "[" ":") with false by done. cbn [orb andb].
  unfold rsplit1. by rewrite rcut_app.
Qed.

Lemma parse_part_bracket (ip pt : string) :
  contains "]" ip = false ->
  parse_part ("[" +:+ ip +:+ "]:" +:+ pt) = Ok (ip, pt).
Proof.
  intros Hip. unfold parse_part.
  change ("[" +:+ ip +:+ "]:" +:+ pt)
    with (String "[" (ip +:+ String "]" (String ":" pt))).
  set (rest := ip +:+ String "]" (String ":" pt)).
  assert (Hfind : find "]" (String "[" rest) = 1 + len ip).
  { cbn [find]. rewrite prefix_char. replace (Ascii.eqb "]" "[") with false by done.
    unfold rest. rewrite find_char_app by done.
    pose proof (len_nonneg ip). destruct (Z.ltb_spec (len ip) 0); lia. }
  assert (Hlen : len (String "[" rest) = 1 + len ip + 2 + len pt).
  { unfold rest. rewrite len_cons, len_app, !len_cons. lia. }
  rewrite contains_char_cons. replace (Ascii.eqb "[" "[") with true by done.
  cbn [orb andb].
  unfold rest at 1. rewrite contains_char_cons, contains_char_app, contains_char_cons.
  replace (Ascii.eqb "]" "]") with true by done. rewrite !orb_true_r.
  rewrite Hfind.
  replace (find "[" (String "[" rest)) with 0
    by (cbn [find]; by rewrite prefix_char).
  pose proof (len_nonneg ip). pose proof (len_nonneg pt).
  unfold slice, slice_from, clamp. rewrite Hlen.
  destruct (Z.ltb_spec (0 + 1) 0); [lia|].
  destruct (Z.ltb_spec (1 + len ip) 0); [lia|].
  destruct (Z.ltb_spec (1 + len ip + 2) 0); [lia|].
  replace (Z.to_nat (Z.min (0 + 1) (1 + len ip + 2 + len pt))) with 1%nat by lia.
  replace (Z.to_nat (Z.min (1 + len ip) (1 + len ip + 2 + len pt)
                     - Z.min (0 + 1) (1 + len ip + 2 + len pt)))
    with (String.length ip) by (unfold len; lia).
  replace (Z.to_nat (Z.min (1 + len ip + 2) (1 + len ip + 2 + len pt)))
    with (S (String.length ip + 2)) by (unfold len; lia).
  cbn [sdrop]. unfold rest. by rewrite stake_app, sdrop_add.
Qed.

Lemma valid_ip_ok (ip : string) : valid_ip ip = true -> ip_ok ip.
Proof.
  unfold valid_ip, valid_ipv4, valid_ipv6, ip_ok.
  intros [[H _]%andb_prop|[H _]%andb_prop]%orb_prop;
    repeat split; by eapply all_chars_no_char; [|exact H].
Qed.

Lemma valid_ipv4_no_colon (ip : string) :
  valid_ipv4 ip = true -> contains ":" ip = false.
Proof.
  unfold valid_ipv4. intros [H _]%andb_prop.
  by eapply all_chars_no_char; [|exact H].
Qed.

Lemma port_text_ok_chars (pt : string) :
  port_text_ok pt ->
  contains ":" pt = false /\ contains ">" pt = false /\
  contains "[" pt = false /\ contains "]" pt = false.
Proof.
  intros H. repeat split; by eapply all_chars_no_char; [|exact H].
Qed.

Lemma digits_port_text_ok (s : string) :
  all_chars is_digit s = true -> port_text_ok s.
Proof.
  apply all_chars_impl.
  intros c. destruct c as [[] [] [] [] [] [] [] []]; by vm_compute.
Qed.

Lemma parse_part_endpoint (ip pt : string) :
  ip_ok ip -> port_text_ok pt -> parse_part (endpoint ip pt) = Ok (ip, pt).
Proof.
  intros (_ & Hl & Hr) (Hc & _ & Hpl & _)%port_text_ok_chars.
  unfold endpoint. destruct (contains ":" ip).
  - by apply parse_part_bracket.
  - by apply parse_part_plain.
Qed.

Lemma endpoint_no_gt (ip pt : string) :
  ip_ok ip -> port_text_ok pt -> contains ">" (endpoint ip pt) = false.
Proof.
  intros (Hg & _ & _) (_ & Hpg & _ & _)%port_text_ok_chars.
  unfold endpoint. destruct (contains ":" ip).
  - change ("[" +:+ ip +:+ "]:" +:+ pt)
      with (String "[" (ip +:+ String "]" (String ":" pt))).
    rewrite contains_char_cons, contains_char_app, !contains_char_cons, Hg, Hpg.
    done.
  - change (":" +:+ pt) with (String ":" pt).
    rewrite contains_char_app, contains_char_cons, Hg, Hpg. done.
Qed.

Lemma parse_body_key_text (a b ps pd : string) :
  ip_ok a -> ip_ok b -> port_text_ok ps -> port_text_ok pd ->
  parse_connection_key_body (key_text a b ps pd)
  = '(p, q) ← try_except
                (src_port ← py_int ps; dst_port ← py_int pd;
                 Ok (src_port, dst_port))
                ValueError (Ok (0, 0));
    Ok (Some a, Some b, Some p, Some q).
Proof.
  intros Ha Hb Hps Hpd. unfold parse_connection_key_body.
  change (key_text a b ps pd) with (endpoint a ps +:+ "->" +:+ endpoint b pd).
  rewrite split_arrow_app by (by apply endpoint_no_gt).
  cbn [unpack2 mbind res_bind].
  rewrite !parse_part_endpoint by done. reflexivity.
Qed.

Lemma py_int_raises (s : string) (e : exn) :
  py_int s = Raise e -> e = ValueError.
Proof.
  unfold py_int.
  destruct (match rstrip_by int_space (lstrip_by int_space s) with
            | String "-" r => (true, r)
            | String "+" r => (false, r)
            | _ => (false, rstrip_by int_space (lstrip_by int_space s))
            end) as [neg body].
  destruct (digits_us false body); [|congruence].
  destruct (NilEmpty.uint_of_string s0); congruence.
Qed.

Lemma split_none (key : string) :
  contains "->" key = false -> split "->" key = [key].
Proof.
  unfold split. induction key as [|x key IH]; [done|].
  cbn [contains split_aux].
  destruct (String.prefix "->" (String x key)); [done|].
  intros H. by rewrite (IH H).
Qed.

Lemma unparsable_ports_zero (a b ps pd : string) :
  valid_ip a = true -> valid_ip b = true ->
  port_text_ok ps -> port_text_ok pd ->
  py_int ps = Raise ValueError \/ py_int pd = Raise ValueError ->
  parse_connection_key (key_text a b ps pd) = (Some a, Some b, Some 0, Some 0).
Proof.
  intros Ha Hb Hps Hpd Hraise. unfold parse_connection_key.
  rewrite parse_body_key_text by (done || by apply valid_ip_ok).
  destruct Hraise as [H|H].
  - by rewrite H.
  - rewrite H. destruct (py_int ps) as [n|e] eqn:E; [done|].
    by rewrite (py_int_raises _ _ E).
Qed.

Lemma foreign_ports_zero (a b ps pd : string) :
  valid_ip a = true -> valid_ip b = true ->
  port_text_ok ps -> port_text_ok pd ->
  all_chars int_char ps = false \/ all_chars int_char pd = false ->
  parse_connection_key (key_text a b ps pd) = (Some a, Some b, Some 0, Some 0).
Proof.
  intros Ha Hb Hps Hpd [H|H]; apply unparsable_ports_zero; try done.
  - left. by apply py_int_foreign.
  - right. by apply py_int_foreign.
Qed.

(** C5. Key round trip: for every valid quadruple, in both address
    families, parsing the key built by [create_connection_key] returns the
    original quadruple; and in a key of the same layout whose port
    substrings cannot be parsed as integers, both ports come back as 0.
    A port substring cannot be parsed, in particular, when it holds a
    character other than a digit, an underscore, a sign or the white
    space that [int()] skips: a letter, or one of the separators
    U+001C .. U+001F. *)
Theorem key_round_trip :
  (forall (src_ip dst_ip : string) (src_port dst_port : Z),
     valid_ip src_ip = true -> valid_ip dst_ip = true ->
     valid_port src_port -> valid_port dst_port ->
     parse_connection_key
       (create_connection_key src_ip dst_ip src_port dst_port)
     = (Some src_ip, Some dst_ip, Some src_port, Some dst_port)) /\
  (forall (src_ip dst_ip ps pd : string),
     valid_ip src_ip = true -> valid_ip dst_ip = true ->
     port_text_ok ps -> port_text_ok pd ->
     py_int ps = Raise ValueError \/ py_int pd = Raise ValueError ->
     parse_connection_key (key_text src_ip dst_ip ps pd)
     = (Some src_ip, Some dst_ip, Some 0, Some 0)) /\
  (forall (src_ip dst_ip ps pd : string),
     valid_ip src_ip = true -> valid_ip dst_ip = true ->
     port_text_ok ps -> port_text_ok pd ->
     all_chars int_char ps = false \/ all_chars int_char pd = false ->
     parse_connection_key (key_text src_ip dst_ip ps pd)
     = (Some src_ip, Some dst_ip, Some 0, Some 0)).
Proof.
  split; [|split].
  - intros a b sp dp Ha Hb [Hsp _] [Hdp _].
    change (create_connection_key a b sp dp)
      with (key_text a b (str_int sp) (str_int dp)).
    unfold parse_connection_key.
    rewrite parse_body_key_text;
      [|by apply valid_ip_ok|by apply valid_ip_ok
       |by apply digits_port_text_ok, str_int_digits
       |by apply digits_port_text_ok, str_int_digits].
    by rewrite !py_int_str_int.
  - intros a b ps pd Ha Hb Hps Hpd Hraise.
    by apply unparsable_ports_zero.
  - intros a b ps pd. apply foreign_ports_zero.
Qed.

Lemma key_round_trip_witness :
  parse_connection_key (create_connection_key "192.168.1.10" "2001:db8::1" 51234 443)
  = (Some "192.168.1.10", Some "2001:db8::1", Some 51234, Some 443) /\
  parse_connection_key (key_text "2001:db8::1" "10.0.0.7" "http" "80")
  = (Some "2001:db8::1", Some "10.0.0.7", Some 0, Some 0) /\
  parse_connection_key (key_text "10.0.0.5" "10.0.0.7" digit_then_separator "2")
  = (Some "10.0.0.5", Some "10.0.0.7", Some 0, Some 0).
Proof.
  destruct key_round_trip as (H1 & H2 & H3).
  split; [|split].
  - apply H1; [reflexivity|reflexivity|..]; unfold valid_port; lia.
  - apply H2; [reflexivity..|]. left. reflexivity.
  - apply H3; [reflexivity..|]. left. reflexivity.
Defined.

(** C10. [parse_connection_key] returns for every input string: either a
    full quadruple or the all-[None] sentinel.  A string without ["->"],
    and more generally one that ["->"] does not split in exactly two
    parts, or whose plain-form part has no [":"], gives the sentinel; a
    well-formed key whose port substrings do not parse gives the two
    addresses with both ports 0, as does, in particular, one whose port
    substring holds a character that no integer literal holds (a letter,
    or one of the separators U+001C .. U+001F). *)
Theorem parse_connection_key_total :
  (forall key : string,
     parse_connection_key key = sentinel \/
     exists a b p q,
       parse_connection_key key = (Some a, Some b, Some p, Some q)) /\
  (forall key : string,
     contains "->" key = false -> parse_connection_key key = sentinel) /\
  (forall key : string,
     length (split "->" key) <> 2%nat -> parse_connection_key key = sentinel) /\
  (forall a b : string,
     contains ">" a = false -> contains ">" b = false ->
     contains "[" a = false -> contains ":" a = false ->
     parse_connection_key (a +:+ "->" +:+ b) = sentinel) /\
  (forall (src_ip dst_ip ps pd : string),
     valid_ip src_ip = true -> valid_ip dst_ip = true ->
     port_text_ok ps -> port_text_ok pd ->
     py_int ps = Raise ValueError \/ py_int pd = Raise ValueError ->
     parse_connection_key (key_text src_ip dst_ip ps pd)
     = (Some src_ip, Some dst_ip, Some 0, Some 0)) /\
  (forall (src_ip dst_ip ps pd : string),
     valid_ip src_ip = true -> valid_ip dst_ip = true ->
     port_text_ok ps -> port_text_ok pd ->
     all_chars int_char ps = false \/ all_chars int_char pd = false ->
     parse_connection_key (key_text src_ip dst_ip ps pd)
     = (Some src_ip, Some dst_ip, Some 0, Some 0)).
Proof.
  repeat split.
  - intros key. unfold parse_connection_key, parse_connection_key_body.
    destruct (unpack2 (split "->" key)) as [[sp dp]|]; [|by left].
    cbn [mbind res_bind].
    destruct (parse_part sp) as [[sip spt]|]; [|by left]. cbn [mbind res_bind].
    destruct (parse_part dp) as [[dip dpt]|]; [|by left]. cbn [mbind res_bind].
    destruct (try_except _ _ _) as [[p q]|]; [|by left].
    right. by exists sip, dip, p, q.
  - intros key H. unfold parse_connection_key, parse_connection_key_body.
    by rewrite split_none.
  - intros key H. unfold parse_connection_key, parse_connection_key_body.
    destruct (split "->" key) as [|x [|y [|z l]]]; done.
  - intros a b Ha Hb Hl Hc. unfold parse_connection_key, parse_connection_key_body.
    rewrite split_arrow_app by done. cbn [unpack2 mbind res_bind].
    unfold parse_part, rsplit1. by rewrite Hl, (rcut_none _ _ Hc).
  - intros a b ps pd. apply unparsable_ports_zero.
  - intros a b ps pd. apply foreign_ports_zero.
Qed.

Lemma parse_connection_key_total_witness :
  parse_connection_key "no arrow here" = sentinel /\
  parse_connection_key "a->b->c" = sentinel /\
  parse_connection_key "10.0.0.1->10.0.0.2" = sentinel /\
  parse_connection_key (key_text "10.0.0.1" "fe80::2" "x" "443")
  = (Some "10.0.0.1", Some "fe80::2", Some 0, Some 0) /\
  parse_connection_key (key_text "10.0.0.1" "10.0.0.2" "1" digit_then_separator)
  = (Some "10.0.0.1", Some "10.0.0.2", Some 0, Some 0).
Proof.
  destruct parse_connection_key_total as (_ & H1 & H2 & H3 & H4 & H5).
  split; [|split; [|split; [|split]]].
  - apply H1. reflexivity.
  - apply H2. vm_compute. lia.
  - apply (H3 "10.0.0.1" "10.0.0.2"); reflexivity.
  - apply H4; [reflexivity..|]. left. reflexivity.
  - apply H5; [reflexivity..|]. right. reflexivity.
Defined.

End ConnKeyFacts.

(* ===================================================================== *)
(** * The alert pipeline: attribution, deduplication, false positives *)
(* ===================================================================== *)

Module AlertsFacts.
Import PyStr Alerts.

(** ** Attribution *)

(** C3 (as amended). With two or more addresses in the text the offending
    address is the second one when the text contains "Malicious IP detected
    in connection from"; otherwise the first one when it contains "from
    Malicious IP" or "from suspicious IP"; otherwise the second one when it
    contains "VirusTotal"; otherwise the first one.  With exactly one
    address it is that address, and with none there is no attribution. *)
Theorem attribution_cases (alert : string) :
  (forall a b rest, findall_ipv4 alert = a :: b :: rest ->
     (contains "Malicious IP detected in connection from" alert = true ->
      malicious_ip_of alert = Some b) /\
     (contains "Malicious IP detected in connection from" alert = false ->
      contains "from Malicious IP" alert = true \/
      contains "from suspicious IP" alert = true ->
      malicious_ip_of alert = Some a) /\
     (contains "Malicious IP detected in connection from" alert = false ->
      contains "from Malicious IP" alert = false ->
      contains "from suspicious IP" alert = false ->
      contains "VirusTotal" alert = true ->
      malicious_ip_of alert = Some b) /\
     (contains "Malicious IP detected in connection from" alert = false ->
      contains "from Malicious IP" alert = false ->
      contains "from suspicious IP" alert = false ->
      contains "VirusTotal" alert = false ->
      malicious_ip_of alert = Some a)) /\
  (forall a, findall_ipv4 alert = [a] -> malicious_ip_of alert = Some a) /\
  (findall_ipv4 alert = [] -> malicious_ip_of alert = None).
Proof.
  unfold malicious_ip_of. split; [|split].
  - intros a b rest ->. cbn [attribute]. repeat split.
    + by intros ->.
    + intros -> [-> | ->]; [done|]. by rewrite orb_true_r.
    + by intros -> -> -> ->.
    + by intros -> -> -> ->.
  - by intros a ->.
  - by intros ->.
Qed.

Lemma attribution_cases_witness :
  malicious_ip_of "Malicious IP detected in connection from 10.0.0.5 to 203.0.113.9"
    = Some "203.0.113.9" /\
  malicious_ip_of "Connection from Malicious IP 203.0.113.9 to 10.0.0.5"
    = Some "203.0.113.9" /\
  malicious_ip_of "VirusTotal flagged 10.0.0.5 -> 203.0.113.9"
    = Some "203.0.113.9" /\
  malicious_ip_of "Large transfer 10.0.0.5 -> 203.0.113.9"
    = Some "10.0.0.5" /\
  malicious_ip_of "Port scan from 10.0.0.5" = Some "10.0.0.5".
Proof.
  split; [|split; [|split; [|split]]].
  - refine (proj1 (proj1 (attribution_cases _)
                     "10.0.0.5" "203.0.113.9" [] _) _); reflexivity.
  - refine (proj1 (proj2 (proj1 (attribution_cases _)
                     "203.0.113.9" "10.0.0.5" [] _)) _ _);
      [reflexivity|reflexivity|left; reflexivity].
  - refine (proj1 (proj2 (proj2 (proj1 (attribution_cases _)
                     "10.0.0.5" "203.0.113.9" [] _))) _ _ _ _); reflexivity.
  - refine (proj2 (proj2 (proj2 (proj1 (attribution_cases _)
                     "10.0.0.5" "203.0.113.9" [] _))) _ _ _ _); reflexivity.
  - refine (proj1 (proj2 (attribution_cases _)) "10.0.0.5" _); reflexivity.
Defined.

(** C3 as stated fails: a text with two addresses that mentions
    "VirusTotal" and neither of the two phrases is attributed to the
    second address, not to the first. *)
Lemma attribution_default_first_counterexample :
  ~ (forall alert a b rest,
       findall_ipv4 alert = a :: b :: rest ->
       contains "Malicious IP detected in connection from" alert = false ->
       malicious_ip_of alert = Some a).
Proof.
  intros H.
  specialize (H "VirusTotal flagged 10.0.0.5 -> 203.0.113.9"
                "10.0.0.5" "203.0.113.9" [] eq_refl eq_refl).
  vm_compute in H. discriminate H.
Qed.

(** ** Deduplication *)

Lemma dd_read_spec (d d' : gmap string (gset string)) (k : string)
    (v : gset string) :
  dd_read d k = (v, d') ->
  d' !! k = Some v /\
  (forall msg, msg ∈ v <-> recorded d k msg) /\
  (forall ip msg, recorded d' ip msg <-> recorded d ip msg).
Proof.
  unfold dd_read, recorded. destruct (d !! k) as [w|] eqn:E; intros [= ? ?];
    subst v d'.
  - split; [done|]. split; [|done].
    intros msg. split; [by exists w|]. by intros (? & [= <-] & ?).
  - split; [by rewrite lookup_insert_eq|]. split.
    + intros msg. split; [set_solver|]. by intros (? & [=] & ?).
    + intros ip msg. destruct (decide (k = ip)) as [<-|Hne].
      * rewrite lookup_insert_eq, E. split; intros (? & [=] & ?). set_solver.
      * by rewrite lookup_insert_ne.
Qed.

Lemma dd_add_spec (d : gmap string (gset string)) (k x ip msg : string) :
  recorded (dd_add d k x) ip msg <->
  recorded d ip msg \/ (ip = k /\ msg = x).
Proof.
  unfold dd_add. destruct (dd_read d k) as [v d'] eqn:E.
  apply dd_read_spec in E as (Hk & Hv & Hd).
  rewrite <- Hd. clear Hv Hd. unfold recorded.
  destruct (decide (k = ip)) as [<-|Hne].
  - rewrite lookup_insert_eq, Hk. split.
    + intros (? & [= <-] & [->%elem_of_singleton|?]%elem_of_union);
        [by right|left; by exists v].
    + intros [(? & [= <-] & ?)|[_ ->]];
        (eexists; split; [done|]); set_solver.
  - rewrite lookup_insert_ne by done. split; [by left|].
    intros [?|[-> _]]; done.
Qed.

Lemma dedup_inv_start (fp : gset string) : dedup_inv (start fp).
Proof.
  split; cbn; [constructor| |constructor|];
    intros; exfalso; eapply not_elem_of_nil; eauto.
Qed.

Lemma dedup_inv_shown (st : state) (d : gmap string (gset string))
    (l : list string) :
  (forall ip msg, recorded d ip msg <-> recorded (alerts_by_ip st) ip msg) ->
  dedup_inv st ->
  dedup_inv (mkState (false_positives st) d (alert_queue st) (notified st) l).
Proof.
  intros Hd [H1 H2 H3 H4]. split; cbn; [done| |done|done].
  intros ip msg Hin. apply Hd. by apply H2.
Qed.

Lemma process_alert_inv (rule alert : string) (st : state) :
  dedup_inv st -> dedup_inv (process_alert rule alert st).
Proof.
  intros Hinv. unfold process_alert.
  destruct (malicious_ip_of alert) as [ip|]; [|by apply dedup_inv_shown].
  destruct (truthy (Some ip)); [|by apply dedup_inv_shown].
  destruct (decide (ip ∈ false_positives st)); [done|].
  destruct (dd_read (alerts_by_ip st) ip) as [seen d] eqn:E.
  apply dd_read_spec in E as (Hk & Hseen & Hd).
  destruct (decide (alert ∈ seen)) as [Hin|Hnew]; [by apply dedup_inv_shown|].
  destruct Hinv as [H1 H2 H3 H4].
  assert (Hfresh : (ip, alert) ∉ (queued_pair <$> alert_queue st)).
  { intros Hq. apply Hnew, Hseen. by apply H2. }
  split; cbn [alert_queue alerts_by_ip notified].
  - unfold queue_alert. rewrite fmap_app. apply NoDup_app. split; [done|].
    split; [|apply NoDup_singleton].
    intros p Hp ->%list_elem_of_singleton. done.
  - intros ip' msg. unfold queue_alert. rewrite fmap_app.
    intros [Hq|Hq%list_elem_of_singleton]%elem_of_app; apply dd_add_spec.
    + left. apply Hd. by apply H2.
    + right. by injection Hq.
  - destruct (_ || _); [|done].
    rewrite fmap_app. apply NoDup_app. split; [done|].
    split; [|apply NoDup_singleton].
    intros p Hp ->%list_elem_of_singleton. by apply Hfresh, H4.
  - intros p. unfold queue_alert. rewrite fmap_app.
    destruct (_ || _).
    + rewrite fmap_app. intros [Hp|Hp]%elem_of_app; apply elem_of_app.
      * left. by apply H4.
      * by right.
    + intros Hp. apply elem_of_app. left. by apply H4.
Qed.

Lemma foldl_inv {A S : Type} (P : S -> Prop) (f : S -> A -> S) (l : list A) :
  (forall s a, P s -> P (f s a)) -> forall s, P s -> P (foldl f s l).
Proof.
  intros Hf. induction l as [|a l IH]; intros s Hs; [done|].
  cbn. apply IH. by apply Hf.
Qed.

Lemma run_inv (trace : list event) (st : state) :
  dedup_inv st -> dedup_inv (run trace st).
Proof.
  unfold run. apply foldl_inv. clear st. intros st [rules|ip] Hst; cbn.
  - unfold analyze_traffic. revert Hst. apply foldl_inv. clear st.
    intros st r Hst. unfold run_rule. destruct (enabled r); [|done].
    revert Hst. apply foldl_inv. clear st. intros st a. apply process_alert_inv.
  - unfold mark_as_false_positive. destruct (negb _); [|done].
    destruct Hst as [H1 H2 H3 H4]. by split.
Qed.

Lemma add_alert_inv (am : bool) (ip alert rule : string) (st : state) :
  dedup_inv st -> dedup_inv (add_alert am ip alert rule st).1.
Proof.
  intros Hinv. unfold add_alert. destruct am; [done|].
  destruct (dd_read (alerts_by_ip st) ip) as [seen d] eqn:E.
  apply dd_read_spec in E as (Hk & Hseen & Hd).
  destruct (decide (alert ∈ seen)) as [Hin|Hnew]; cbn [fst].
  - by apply dedup_inv_shown.
  - destruct Hinv as [H1 H2 H3 H4].
    assert (Hfresh : (ip, alert) ∉ (queued_pair <$> alert_queue st)).
    { intros Hq. apply Hnew, Hseen. by apply H2. }
    split; cbn [alert_queue alerts_by_ip notified].
    + unfold queue_alert. rewrite fmap_app. apply NoDup_app. split; [done|].
      split; [|apply NoDup_singleton].
      intros p Hp ->%list_elem_of_singleton. done.
    + intros ip' msg. unfold queue_alert. rewrite fmap_app.
      intros [Hq|Hq%list_elem_of_singleton]%elem_of_app; apply dd_add_spec.
      * left. apply Hd. by apply H2.
      * right. by injection Hq.
    + done.
    + intros p Hp. unfold queue_alert. rewrite fmap_app.
      apply elem_of_app. left. by apply H4.
Qed.

Lemma run_all_inv (trace : list producer) (st : state) :
  dedup_inv st -> dedup_inv (run_all trace st).
Proof.
  unfold run_all. apply foldl_inv. clear st.
  intros st [e|am ip alert rule] Hst; cbn [apply_producer].
  - by apply (run_inv [e]).
  - by apply add_alert_inv.
Qed.

Lemma NoDup_count {A : Type} `{EqDecision A} (l : list A) (x : A) :
  NoDup l -> (length (filter (fun y => y = x) l) <= 1)%nat.
Proof.
  induction 1 as [|y l Hy Hl IH]; [cbn; lia|].
  rewrite filter_cons. destruct (decide (y = x)) as [->|]; [|done].
  cbn. destruct (filter (fun y => y = x) l) as [|z t] eqn:E; [cbn; lia|].
  assert (Hz : z ∈ filter (fun y => y = x) l) by (rewrite E; set_solver).
  apply list_elem_of_filter in Hz as [-> Hz]. done.
Qed.

(** An occurrence of an already recorded pair changes neither the queue
    nor the notifications. *)
Lemma process_alert_seen (rule alert ip : string) (st : state) :
  malicious_ip_of alert = Some ip ->
  recorded (alerts_by_ip st) ip alert ->
  alert_queue (process_alert rule alert st) = alert_queue st /\
  notified (process_alert rule alert st) = notified st.
Proof.
  intros Hip Hrec. unfold process_alert. rewrite Hip.
  destruct (truthy (Some ip)); [|done].
  destruct (decide (ip ∈ false_positives st)); [done|].
  destruct (dd_read (alerts_by_ip st) ip) as [seen d] eqn:E.
  apply dd_read_spec in E as (Hk & Hseen & Hd).
  destruct (decide (alert ∈ seen)) as [Hin|Hnew]; [done|].
  exfalso. by apply Hnew, Hseen.
Qed.

(** Every match of the address pattern is a non-empty text. *)
Lemma dotted_nonempty (n : nat) (s m : string) :
  dotted n s = Some m -> m <> "".
Proof.
  destruct n as [|n]; cbn [dotted]; destruct (digit_run s) as [d r];
    destruct (String.eqb_spec d "") as [->|Hd]; try done.
  - by intros [= <-].
  - destruct r as [|c r]; [done|]. destruct (Ascii.eqb c "."); [|done].
    destruct (dotted n r); [|done]. intros [= <-]. by destruct d.
Qed.

Lemma findall_nonempty (skip : nat) (s m : string) :
  m ∈ findall_aux skip s -> m <> "".
Proof.
  revert skip. induction s as [|c s IH]; intros skip; cbn [findall_aux].
  - by intros ?%not_elem_of_nil.
  - destruct skip as [|k]; [|by apply IH].
    destruct (match_ipv4 (String c s)) as [m'|] eqn:E; [|by apply IH].
    intros [->|Hm]%elem_of_cons; [|by eapply IH].
    by eapply dotted_nonempty.
Qed.

Lemma malicious_ip_truthy (alert ip : string) :
  malicious_ip_of alert = Some ip -> truthy (Some ip) = true.
Proof.
  unfold malicious_ip_of, attribute. intros H.
  assert (Hin : ip ∈ findall_ipv4 alert).
  { destruct (findall_ipv4 alert) as [|a [|b l]]; [done| |].
    - injection H as ->. set_solver.
    - repeat destruct (contains _ _); cbn in H; injection H as ->; set_solver. }
  apply findall_nonempty in Hin. cbn. by destruct (String.eqb_spec ip "").
Qed.

(** The first occurrence of a pair whose address is not a false positive
    records it and queues exactly one item for it. *)
Lemma process_alert_first (rule alert ip : string) (st : state) :
  malicious_ip_of alert = Some ip ->
  ip ∉ false_positives st ->
  ~ recorded (alerts_by_ip st) ip alert ->
  recorded (alerts_by_ip (process_alert rule alert st)) ip alert /\
  alert_queue (process_alert rule alert st)
  = alert_queue st ++ [(ip, alert, rule)].
Proof.
  intros Hip Hfp Hnew. unfold process_alert.
  rewrite Hip, (malicious_ip_truthy _ _ Hip).
  destruct (decide (ip ∈ false_positives st)); [done|].
  destruct (dd_read (alerts_by_ip st) ip) as [seen d] eqn:E.
  apply dd_read_spec in E as (Hk & Hseen & Hd).
  destruct (decide (alert ∈ seen)) as [Hin|_]; [by apply Hseen in Hin|].
  cbn [alerts_by_ip alert_queue]. split; [|done].
  apply dd_add_spec. by right.
Qed.

(** ** Deduplication within an epoch *)

Lemma dedup_since_shown (q0 n0 : list (string * string * string)) (st : state)
    (fp : gset string) (d : gmap string (gset string)) (l : list string) :
  (forall ip msg, recorded d ip msg <-> recorded (alerts_by_ip st) ip msg) ->
  dedup_since q0 n0 st ->
  dedup_since q0 n0 (mkState fp d (alert_queue st) (notified st) l).
Proof.
  intros Hd (aq & an & Hq & Hn & H1 & H2 & H3 & H4).
  exists aq, an. cbn. split; [done|]. split; [done|]. split; [done|].
  split; [|done]. intros ip msg Hin. apply Hd. by apply H2.
Qed.

(** A new pair of the epoch extends what was added by one item. *)
Lemma dedup_since_new (q0 n0 : list (string * string * string)) (st : state)
    (d : gmap string (gset string)) (seen : gset string)
    (ip alert rule : string) (l : list string)
    (n' : list (string * string * string)) :
  (forall msg, msg ∈ seen <-> recorded (alerts_by_ip st) ip msg) ->
  (forall ip' msg, recorded d ip' msg <-> recorded (alerts_by_ip st) ip' msg) ->
  alert ∉ seen ->
  n' = notified st \/ n' = notified st ++ [(alert, rule, ip)] ->
  dedup_since q0 n0 st ->
  dedup_since q0 n0
    (mkState (false_positives st) (dd_add d ip alert)
             (queue_alert ip alert rule (alert_queue st)) n' l).
Proof.
  intros Hseen Hd Hnew Hn' (aq & an & Hq & Hn & H1 & H2 & H3 & H4).
  assert (Hfresh : (ip, alert) ∉ (queued_pair <$> aq)).
  { intros Hin. apply Hnew, Hseen. by apply H2. }
  exists (aq ++ [(ip, alert, rule)]),
         (if decide (n' = notified st) then an else an ++ [(alert, rule, ip)]).
  cbn [alert_queue notified alerts_by_ip]. unfold queue_alert.
  split; [by rewrite Hq, app_assoc|]. split.
  { destruct (decide (n' = notified st)) as [->|Hne]; [done|].
    destruct Hn' as [?| ->]; [done|]. by rewrite Hn, app_assoc. }
  split.
  { rewrite fmap_app. apply NoDup_app. split; [done|].
    split; [|apply NoDup_singleton].
    intros p Hp ->%list_elem_of_singleton. done. }
  split.
  { intros ip' msg. rewrite fmap_app.
    intros [Hin|Hin%list_elem_of_singleton]%elem_of_app; apply dd_add_spec.
    - left. apply Hd. by apply H2.
    - right. by injection Hin. }
  destruct (decide (n' = notified st)) as [_|_].
  - split; [done|]. intros p Hp. rewrite fmap_app. apply elem_of_app. left.
    by apply H4.
  - split.
    + rewrite fmap_app. apply NoDup_app. split; [done|].
      split; [|apply NoDup_singleton].
      intros p Hp ->%list_elem_of_singleton. by apply Hfresh, H4.
    + intros p. rewrite !fmap_app.
      intros [Hp|Hp]%elem_of_app; apply elem_of_app.
      * left. by apply H4.
      * by right.
Qed.

Lemma process_alert_since (q0 n0 : list (string * string * string))
    (rule alert : string) (st : state) :
  dedup_since q0 n0 st -> dedup_since q0 n0 (process_alert rule alert st).
Proof.
  intros Hinv. unfold process_alert.
  destruct (malicious_ip_of alert) as [ip|]; [|by apply dedup_since_shown].
  destruct (truthy (Some ip)); [|by apply dedup_since_shown].
  destruct (decide (ip ∈ false_positives st)); [done|].
  destruct (dd_read (alerts_by_ip st) ip) as [seen d] eqn:E.
  apply dd_read_spec in E as (Hk & Hseen & Hd).
  destruct (decide (alert ∈ seen)) as [Hin|Hnew]; [by apply dedup_since_shown|].
  apply (dedup_since_new q0 n0 st d seen); try done.
  destruct (_ || _); [by right|by left].
Qed.

Lemma add_alert_since (q0 n0 : list (string * string * string)) (am : bool)
    (ip alert rule : string) (st : state) :
  dedup_since q0 n0 st -> dedup_since q0 n0 (add_alert am ip alert rule st).1.
Proof.
  intros Hinv. unfold add_alert. destruct am; [done|].
  destruct (dd_read (alerts_by_ip st) ip) as [seen d] eqn:E.
  apply dd_read_spec in E as (Hk & Hseen & Hd).
  destruct (decide (alert ∈ seen)) as [Hin|Hnew]; cbn [fst].
  - by apply dedup_since_shown.
  - apply (dedup_since_new q0 n0 st d seen); try done. by left.
Qed.

Lemma apply_action_since (q0 n0 : list (string * string * string))
    (st : state) (a : action) :
  keeps_dedup a = true ->
  dedup_since q0 n0 st -> dedup_since q0 n0 (apply_action st a).
Proof.
  intros Ha Hst.
  destruct a as [[[rules|ip]|am ip alert rule]| |ip|am db ip alert rule];
    [| | |done| |];
    cbn [apply_action apply_producer apply_event].
  - unfold analyze_traffic. revert Hst. apply foldl_inv. clear st.
    intros st r Hst. unfold run_rule. destruct (enabled r); [|done].
    revert Hst. apply foldl_inv. clear st. intros st x.
    apply process_alert_since.
  - unfold mark_as_false_positive. destruct (negb _); [|done].
    by apply dedup_since_shown.
  - by apply add_alert_since.
  - by apply dedup_since_shown.
  - unfold rule_add_alert. destruct am; [done|]. by destruct db.
Qed.

Lemma run_process_since (q0 n0 : list (string * string * string))
    (trace : list action) (st : state) :
  Forall (fun a => keeps_dedup a = true) trace ->
  dedup_since q0 n0 st -> dedup_since q0 n0 (run_process trace st).
Proof.
  unfold run_process. intros Htrace. revert st.
  induction Htrace as [|a trace Ha _ IH]; intros st Hst; [done|].
  cbn [foldl]. apply IH. by apply apply_action_since.
Qed.

Lemma dedup_since_clear (st : state) :
  dedup_since (alert_queue st) (notified st) (clear_alerts st).
Proof.
  exists [], []. cbn. rewrite !app_nil_r.
  split; [done|]. split; [done|]. split; [constructor|].
  split; [|split; [constructor|]]; intros; exfalso; eapply not_elem_of_nil; eauto.
Qed.

Lemma dedup_since_start (fp : gset string) : dedup_since [] [] (start fp).
Proof.
  exists [], []. cbn.
  split; [done|]. split; [done|]. split; [constructor|].
  split; [|split; [constructor|]]; intros; exfalso; eapply not_elem_of_nil; eauto.
Qed.

(** The first occurrence of a pair is notified when its text mentions
    "malicious" or "virustotal", in any case of letters, and only then. *)
Lemma process_alert_first_notified (rule alert ip : string) (st : state) :
  malicious_ip_of alert = Some ip ->
  ip ∉ false_positives st ->
  ~ recorded (alerts_by_ip st) ip alert ->
  notified (process_alert rule alert st)
  = if contains "malicious" (lower alert) || contains "virustotal" (lower alert)
    then notified st ++ [(alert, rule, ip)]
    else notified st.
Proof.
  intros Hip Hfp Hnew. unfold process_alert.
  rewrite Hip, (malicious_ip_truthy _ _ Hip).
  destruct (decide (ip ∈ false_positives st)); [done|].
  destruct (dd_read (alerts_by_ip st) ip) as [seen d] eqn:E.
  apply dd_read_spec in E as (Hk & Hseen & Hd).
  destruct (decide (alert ∈ seen)) as [Hin|_]; [by apply Hseen in Hin|].
  done.
Qed.

(** C7 (as amended).  Deduplication holds within an epoch, from process
    start or from a [clear_alerts] to the next [clear_alerts]: whatever
    the rules return, whenever addresses are marked or unmarked and
    whatever is passed to the engine's [add_alert], each
    [(ip, message)] pair is put on the alert queue at most once and
    notified at most once, as long as no rule queues an alert itself
    through [Rule.add_alert] without an analysis manager.  The first
    occurrence of a pair records it in [alerts_by_ip], queues it, and
    notifies it when the text mentions "malicious" or "virustotal"; an
    occurrence of a recorded pair changes neither the queue nor the
    notifications.  The engine's [add_alert], without an analysis
    manager, queues a pair that is not recorded and returns [True], and
    returns [False] for a recorded one; with an analysis manager it
    leaves the state alone.  [Rule.add_alert] without an analysis
    manager queues what it is given, recorded or not. *)
Theorem alert_dedup :
  (forall (st : state) (trace : list action),
     Forall (fun a => keeps_dedup a = true) trace ->
     dedup_since (alert_queue st) (notified st)
                 (run_process trace (clear_alerts st))) /\
  (forall (fp : gset string) (trace : list action) (ip msg : string),
     Forall (fun a => keeps_dedup a = true) trace ->
     (length (filter (fun p => p = (ip, msg))
                (queued_pair <$> alert_queue (run_process trace (start fp))))
      <= 1)%nat /\
     (length (filter (fun p => p = (ip, msg))
                (notified_pair <$> notified (run_process trace (start fp))))
      <= 1)%nat) /\
  (forall (rule alert ip : string) (st : state),
     malicious_ip_of alert = Some ip ->
     ip ∉ false_positives st ->
     ~ recorded (alerts_by_ip st) ip alert ->
     recorded (alerts_by_ip (process_alert rule alert st)) ip alert /\
     alert_queue (process_alert rule alert st)
     = alert_queue st ++ [(ip, alert, rule)] /\
     notified (process_alert rule alert st)
     = if contains "malicious" (lower alert)
          || contains "virustotal" (lower alert)
       then notified st ++ [(alert, rule, ip)]
       else notified st) /\
  (forall (rule alert ip : string) (st : state),
     malicious_ip_of alert = Some ip ->
     recorded (alerts_by_ip st) ip alert ->
     alert_queue (process_alert rule alert st) = alert_queue st /\
     notified (process_alert rule alert st) = notified st) /\
  (forall (ip alert rule : string) (st : state),
     recorded (alerts_by_ip st) ip alert ->
     (add_alert false ip alert rule st).2 = Some false /\
     alert_queue (add_alert false ip alert rule st).1 = alert_queue st) /\
  (forall (ip alert rule : string) (st : state),
     ~ recorded (alerts_by_ip st) ip alert ->
     (add_alert false ip alert rule st).2 = Some true /\
     alert_queue (add_alert false ip alert rule st).1
     = alert_queue st ++ [(ip, alert, rule)] /\
     notified (add_alert false ip alert rule st).1 = notified st /\
     recorded (alerts_by_ip (add_alert false ip alert rule st).1) ip alert) /\
  (forall (ip alert rule : string) (st : state),
     add_alert true ip alert rule st = (st, None)) /\
  (forall (ip alert rule : string) (st : state),
     alert_queue (rule_add_alert false true ip alert rule st)
     = alert_queue st ++ [(ip, alert, rule)] /\
     alerts_by_ip (rule_add_alert false true ip alert rule st)
     = alerts_by_ip st).
Proof.
  split; [|split; [|split; [|split; [|split; [|split; [|split]]]]]].
  - intros st trace Htrace. apply run_process_since; [done|].
    apply dedup_since_clear.
  - intros fp trace ip msg Htrace.
    destruct (run_process_since [] [] trace (start fp) Htrace
                (dedup_since_start fp))
      as (aq & an & Hq & Hn & H1 & _ & H3 & _).
    rewrite Hq, Hn. cbn [app]. split; by apply NoDup_count.
  - intros rule alert ip st Hip Hfp Hnew.
    destruct (process_alert_first rule alert ip st Hip Hfp Hnew) as [Hr Hq].
    split; [exact Hr|]. split; [exact Hq|].
    by apply process_alert_first_notified.
  - apply process_alert_seen.
  - intros ip alert rule st Hrec. unfold add_alert.
    destruct (dd_read (alerts_by_ip st) ip) as [seen d] eqn:E.
    apply dd_read_spec in E as (Hk & Hseen & Hd).
    destruct (decide (alert ∈ seen)) as [Hin|Hnew]; [done|].
    exfalso. by apply Hnew, Hseen.
  - intros ip alert rule st Hnew. unfold add_alert.
    destruct (dd_read (alerts_by_ip st) ip) as [seen d] eqn:E.
    apply dd_read_spec in E as (Hk & Hseen & Hd).
    destruct (decide (alert ∈ seen)) as [Hin|_]; [by apply Hseen in Hin|].
    cbn [fst snd alert_queue notified alerts_by_ip].
    split; [done|]. split; [done|]. split; [done|].
    apply dd_add_spec. by right.
  - done.
  - done.
Qed.

Lemma alert_dedup_witness :
  let fp : gset string := ∅ in
  let alert := "Malicious IP detected in connection from 10.0.0.5 to 203.0.113.9" in
  let st1 := process_alert "threat_intel" alert (start fp) in
  alert_queue st1 = [("203.0.113.9", alert, "threat_intel")] /\
  alert_queue (process_alert "threat_intel" alert st1) = alert_queue st1 /\
  (add_alert false "203.0.113.9" alert "threat_intel" st1).2 = Some false /\
  (add_alert false "203.0.113.9" alert "threat_intel" (start fp)).2 = Some true /\
  dedup_since (alert_queue st1) (notified st1)
    (run_process [Produce (Pipeline (Cycle [mkRun "threat_intel" true [alert; alert]]));
                  Unmark "10.0.0.5"]
                 (clear_alerts st1)).
Proof.
  intros fp alert st1.
  destruct alert_dedup as (Hepoch & _ & Hfirst & Hseen & Hengine & Hnew & _ & _).
  assert (Hempty : ~ recorded (alerts_by_ip (start fp)) "203.0.113.9" alert).
  { intros (v & Hv & _).
    change (alerts_by_ip (start fp)) with (∅ : gmap string (gset string)) in Hv.
    by rewrite lookup_empty in Hv. }
  destruct (Hfirst "threat_intel" alert "203.0.113.9" (start fp))
    as (Hrec & Hq & _).
  - reflexivity.
  - apply not_elem_of_empty.
  - exact Hempty.
  - split; [exact Hq|]. split; [|split; [|split]].
    + by apply (Hseen "threat_intel" alert "203.0.113.9" st1).
    + by apply (Hengine "203.0.113.9" alert "threat_intel" st1).
    + by apply (Hnew "203.0.113.9" alert "threat_intel" (start fp)).
    + apply Hepoch. by repeat constructor.
Defined.

(** C7 as stated fails: the process lifetime holds the operator's
    [clear_alerts], which empties [alerts_by_ip]; the same rule
    returning the same text before and after it puts the pair on the
    alert queue twice and notifies it twice. *)
Lemma alert_dedup_clear_counterexample :
  ~ (forall (trace : list action) (ip msg : string),
       (length (filter (fun p => p = (ip, msg))
                  (queued_pair <$> alert_queue (run_process trace (start ∅))))
        <= 1)%nat /\
       (length (filter (fun p => p = (ip, msg))
                  (notified_pair <$> notified (run_process trace (start ∅))))
        <= 1)%nat).
Proof.
  intros Hclaim.
  destruct (Hclaim repeated_scan "10.0.0.9" "malicious scan from 10.0.0.9")
    as [Hq _].
  vm_compute in Hq. lia.
Qed.

(** ** False-positive suppression *)

Lemma no_new_for_same (X : string) (st st' : state) :
  alert_queue st' = alert_queue st -> notified st' = notified st ->
  no_new_for X st st'.
Proof. intros Hq Hn. exists [], []. by rewrite !app_nil_r, Hq, Hn. Qed.

Lemma no_new_for_refl (X : string) (st : state) : no_new_for X st st.
Proof. by apply no_new_for_same. Qed.

Local Ltac unchanged := split; [done|by apply no_new_for_same].

Lemma no_new_for_trans (X : string) (s1 s2 s3 : state) :
  no_new_for X s1 s2 -> no_new_for X s2 s3 -> no_new_for X s1 s3.
Proof.
  intros (q1 & n1 & Hq1 & Hn1 & Fq1 & Fn1) (q2 & n2 & Hq2 & Hn2 & Fq2 & Fn2).
  exists (q1 ++ q2), (n1 ++ n2).
  rewrite Hq2, Hq1, Hn2, Hn1, !app_assoc.
  repeat split; by apply Forall_app.
Qed.

Lemma foldl_keeps {A : Type} (X : string) (f : state -> A -> state) (l : list A) :
  (forall s a, keeps_suppressed X s (f s a)) ->
  forall s, keeps_suppressed X s (foldl f s l).
Proof.
  intros Hf. induction l as [|a l IH]; intros s Hs.
  - unchanged.
  - cbn [foldl]. destruct (Hf s a Hs) as [Hs' Hn].
    destruct (IH (f s a) Hs') as [Hs'' Hn'].
    split; [done|]. by eapply no_new_for_trans.
Qed.

Lemma process_alert_keeps (X rule alert : string) (st : state) :
  keeps_suppressed X st (process_alert rule alert st).
Proof.
  intros HX. unfold process_alert.
  destruct (malicious_ip_of alert) as [ip|] eqn:Hip; [|unchanged].
  destruct (truthy (Some ip)) eqn:Ht; [|unchanged].
  destruct (decide (ip ∈ false_positives st)) as [Hfp|Hfp]; [unchanged|].
  destruct (dd_read (alerts_by_ip st) ip) as [seen d].
  destruct (decide (alert ∈ seen)); [unchanged|].
  assert (Hne : ip <> X).
  { intros ->. destruct HX as [HX| ->]; done. }
  split; [done|]. unfold no_new_for. cbn [alert_queue notified].
  destruct (_ || _).
  - exists [(ip, alert, rule)], [(alert, rule, ip)].
    repeat split; by repeat constructor.
  - exists [(ip, alert, rule)], [].
    rewrite app_nil_r. repeat split; by repeat constructor.
Qed.

Lemma run_keeps (X : string) (trace : list event) (st : state) :
  keeps_suppressed X st (run trace st).
Proof.
  unfold run. revert st. apply foldl_keeps. intros st [rules|ip]; cbn.
  - unfold analyze_traffic. revert st. apply foldl_keeps.
    intros st r. unfold run_rule. destruct (enabled r).
    + revert st. apply foldl_keeps. intros st a. apply process_alert_keeps.
    + intros HX. unchanged.
  - intros HX. unfold mark_as_false_positive.
    destruct (negb _); [|unchanged].
    split; [|by apply no_new_for_same].
    destruct HX as [HX|HX]; [left|by right]. cbn. set_solver.
Qed.

(** C8. False-positive suppression.  Once [X] has been marked, no later
    analysis cycle puts an alert attributed to [X] on the alert queue or
    notifies one, whatever rule produced it and whatever else is marked in
    between; [X] stays in the set. *)
Theorem false_positive_suppression
    (X : string) (st : state) (trace : list event) :
  let marked := mark_as_false_positive X st in
  (X <> "" -> X ∈ false_positives (run trace marked)) /\
  no_new_for X marked (run trace marked).
Proof.
  intros marked.
  assert (HX : suppressed X marked).
  { unfold marked, mark_as_false_positive, suppressed.
    destruct (String.eqb_spec X "") as [->|Hne]; [by right|].
    left. cbn. set_solver. }
  destruct (run_keeps X trace marked HX) as [[Hin| ->] Hnew]; split; done.
Qed.

Lemma false_positive_suppression_witness :
  let X := "203.0.113.9" in
  let alert := "Malicious IP detected in connection from 10.0.0.5 to 203.0.113.9" in
  let marked := mark_as_false_positive X (start ∅) in
  let trace := [Cycle [mkRun "threat_intel" true [alert]]; Mark "10.0.0.5";
                Cycle [mkRun "virustotal" true [alert]]] in
  X ∈ false_positives (run trace marked).
Proof.
  intros X alert marked trace.
  apply (proj1 (false_positive_suppression X (start ∅) trace)).
  discriminate.
Defined.

End AlertsFacts.

(* ===================================================================== *)
(** * The decode loop: the buffer stays bounded *)
(* ===================================================================== *)

Module DecoderFacts.
Import PyStr PyStrFacts Decoder.

Lemma len_sdrop_le (n : nat) (s : string) : len (sdrop n s) <= len s.
Proof.
  revert n. induction s as [|c s IH]; intros [|n]; cbn [sdrop]; try lia.
  rewrite len_cons. specialize (IH n). lia.
Qed.

Section Loop.
Variable json_ok : string -> bool.

Lemma len_trimmed (keep : Z) (b : string) :
  len (trimmed json_ok keep b) <= len b.
Proof.
  unfold trimmed. destruct (extract_ek_objects json_ok b); [lia|].
  destruct (Z.ltb_spec keep (len b)); [|lia].
  unfold last_chars, slice_from. apply len_sdrop_le.
Qed.

Lemma len_checked (limit : Z) (b : string) :
  0 <= limit -> len (checked limit b) <= limit.
Proof.
  intros Hl. unfold checked. destruct (Z.ltb_spec limit (len b)); [done|lia].
Qed.

Lemma len_feed_with (limit keep : Z) (b line : string) :
  0 <= limit -> len b <= limit -> len (feed_with json_ok limit keep b line) <= limit.
Proof.
  intros Hl Hb. unfold feed_with.
  destruct (String.eqb (strip line) ""); [done|]. by apply len_checked.
Qed.

Lemma len_buffer_after_with (limit keep : Z) (lines : list string) :
  0 <= limit -> len (buffer_after_with json_ok limit keep lines) <= limit.
Proof.
  intros Hl. unfold buffer_after_with.
  assert (H0 : len "" <= limit) by (change (len "") with 0; lia).
  revert H0. generalize EmptyString as b.
  induction lines as [|l lines IH]; intros b Hb; [done|].
  cbn [foldl]. apply IH. by apply len_feed_with.
Qed.

End Loop.

(** C9. The accumulation buffer is bounded.  With the literals of the
    source, at the start of every iteration the buffer holds at most
    10,000,000 characters, hence at most the bound plus one input line.
    For any non-negative bound: the buffer at the start of an iteration is
    within the bound; inside an iteration it exceeds it by at most the
    appended line and its newline; and an iteration that ends with the
    buffer past the bound leaves it empty. *)
Theorem buffer_bounded (json_ok : string -> bool) :
  (forall lines : list string,
     len (buffer_after json_ok lines) <= max_buffer /\
     forall next : string,
       len (buffer_after json_ok lines) <= max_buffer + len next) /\
  (forall (limit keep : Z) (lines : list string),
     0 <= limit ->
     len (buffer_after_with json_ok limit keep lines) <= limit) /\
  (forall (limit keep : Z) (b line : string),
     len b <= limit ->
     len (appended b (strip line)) <= limit + len (strip line) + 1 /\
     len (trimmed json_ok keep (appended b (strip line)))
     <= limit + len (strip line) + 1) /\
  (forall (limit keep : Z) (b line : string),
     strip line <> "" ->
     limit < len (trimmed json_ok keep (appended b (strip line))) ->
     feed_with json_ok limit keep b line = "").
Proof.
  split; [|split; [|split]].
  - intros lines.
    assert (H : len (buffer_after json_ok lines) <= max_buffer).
    { apply (len_buffer_after_with json_ok max_buffer tail_keep). done. }
    split; [done|]. intros next. pose proof (len_nonneg next). lia.
  - intros limit keep lines. apply len_buffer_after_with.
  - intros limit keep b line Hb.
    assert (Ha : len (appended b (strip line)) <= limit + len (strip line) + 1).
    { unfold appended. rewrite !len_app. change (len nl) with 1. lia. }
    split; [done|].
    pose proof (len_trimmed json_ok keep (appended b (strip line))). lia.
  - intros limit keep b line Hne Hbig. unfold feed_with.
    destruct (String.eqb_spec (strip line) ""); [done|].
    unfold checked. by destruct (Z.ltb_spec limit (len (trimmed json_ok keep (appended b (strip line))))); [|lia].
Qed.

Lemma buffer_bounded_witness :
  let json_ok := fun _ : string => false in
  len (buffer_after_with json_ok 8 4 ["abc"; "defg"; "hi"]) <= 8 /\
  len (trimmed json_ok 4 (appended "abc" (strip " defg ")))
  <= 8 + len (strip " defg ") + 1 /\
  feed_with json_ok 8 4 "abc" "defghij" = "".
Proof.
  intros json_ok.
  destruct (buffer_bounded json_ok) as (_ & H1 & H2 & H3).
  split; [|split].
  - apply H1. lia.
  - apply (H2 8 4 "abc" " defg "). vm_compute. discriminate.
  - apply H3; [discriminate|]. vm_compute. reflexivity.
Defined.

End DecoderFacts.

(* ===================================================================== *)
(** * Connection upsert: what [add_packet] does, and what reaches it *)
(* ===================================================================== *)

Module CaptureFacts.
Import PyStr Capture.

(** ** The upsert on values that can be bound *)

Lemma sql_add_int (z b : Z) :
  int64 (z + b) = true -> sql_add (Int z) b = Int (z + b).
Proof. intros H. unfold sql_add. by rewrite H. Qed.

Lemma add_packet_row (key sip dip : string) (sport dport : option Z)
    (length rdp now : Z) (db : gmap string connection) (c : connection) :
  int64 length = true -> db !! key = Some c ->
  add_packet key sip dip sport dport length rdp now db
  = (true, <[key := bump length now c]> db).
Proof.
  intros Hl Hc. unfold add_packet, add_packet_body, bind_int.
  rewrite Hl. cbn [mbind res_bind]. by rewrite Hc.
Qed.

Lemma add_packet_new (key sip dip : string) (sport dport : option Z)
    (length rdp now : Z) (db : gmap string connection) :
  int64 length = true -> bindable sport = true -> bindable dport = true ->
  int64 rdp = true -> db !! key = None ->
  add_packet key sip dip sport dport length rdp now db
  = (true, <[key := fresh sip dip sport dport length rdp now]> db).
Proof.
  intros Hl Hs Hd Hr Hc. unfold add_packet, add_packet_body, bind_int, bind_opt.
  rewrite Hl. cbn [mbind res_bind]. rewrite Hc, Hs, Hd, Hr. done.
Qed.

(** A length outside 64 bits: [False], nothing written. *)
Lemma add_packet_unbound_length (key sip dip : string) (sport dport : option Z)
    (length rdp now : Z) (db : gmap string connection) :
  int64 length = false ->
  add_packet key sip dip sport dport length rdp now db = (false, db).
Proof.
  intros Hl. unfold add_packet, add_packet_body, bind_int. by rewrite Hl.
Qed.

(** A new key with a port or [is_rdp] outside 64 bits: [False], nothing
    written. *)
Lemma add_packet_unbound_new (key sip dip : string) (sport dport : option Z)
    (length rdp now : Z) (db : gmap string connection) :
  db !! key = None ->
  bindable sport && bindable dport && int64 rdp = false ->
  add_packet key sip dip sport dport length rdp now db = (false, db).
Proof.
  intros Hc Hb. unfold add_packet, add_packet_body, bind_int, bind_opt.
  destruct (int64 length); [|done]. cbn [mbind res_bind]. rewrite Hc.
  destruct (bindable sport); [|done]. cbn [mbind res_bind].
  destruct (bindable dport); [|done]. cbn [mbind res_bind].
  cbn [andb] in Hb. by rewrite Hb.
Qed.

(** Whatever is passed, the table changes at the key only. *)
Lemma add_packet_other (key sip dip : string) (sport dport : option Z)
    (length rdp now : Z) (db : gmap string connection) (k : string) :
  k <> key ->
  (add_packet key sip dip sport dport length rdp now db).2 !! k = db !! k.
Proof.
  intros Hk. unfold add_packet, add_packet_body, bind_int, bind_opt.
  destruct (int64 length); [|done]. cbn [mbind res_bind].
  destruct (db !! key).
  - cbn [snd]. by rewrite lookup_insert_ne.
  - destruct (bindable sport); [|done]. cbn [mbind res_bind].
    destruct (bindable dport); [|done]. cbn [mbind res_bind].
    destruct (int64 rdp); [|done]. cbn [mbind res_bind snd].
    by rewrite lookup_insert_ne.
Qed.

(** Two direct calls of [add_packet] for one key: one row, the lengths
    added up, two packets counted. *)
Lemma add_packet_twice (key sip dip : string) (sport dport : option Z)
    (l1 l2 rdp t1 t2 : Z) :
  int64 l1 = true -> int64 l2 = true -> int64 (l1 + l2) = true ->
  bindable sport = true -> bindable dport = true -> int64 rdp = true ->
  (add_packet key sip dip sport dport l2 rdp t2
     (add_packet key sip dip sport dport l1 rdp t1 ∅).2).2
  = {[ key := mkConn sip dip sport dport (l1 + l2) 2 t2 "unknown" rdp None None ]}.
Proof.
  intros H1 H2 H12 Hs Hd Hr.
  rewrite (add_packet_new key sip dip sport dport l1 rdp t1 ∅)
    by (done || apply lookup_empty).
  cbn [snd].
  rewrite (add_packet_row key sip dip sport dport l2 rdp t2 _
             (fresh sip dip sport dport l1 rdp t1))
    by (done || apply lookup_insert_eq).
  cbn [snd]. rewrite insert_insert_eq, insert_empty.
  unfold bump, fresh. cbn [total_bytes packet_count src_ip dst_ip src_port
    dst_port vt_result is_rdp_client protocol ttl].
  rewrite (sql_add_int l1 l2) by done.
  rewrite (sql_add_int 1 1) by reflexivity. reflexivity.
Qed.

Section Decode.
Variable tshark_field : string -> option string.
Variable false_positives : gset string.
Variable now : Z.

(** The call in [process_packet_ek] passes eight positional arguments to
    a method that takes at most seven. *)
Lemma add_packet_call_raises {A : Type} (body : res A) :
  py_call 6 1 8 body = Raise TypeError.
Proof. reflexivity. Qed.

(** Decoding a record never creates or removes a row of [connections]. *)
Lemma process_packet_ek_dom (layers : layers_t) (db : gmap string connection) :
  dom (process_packet_ek tshark_field false_positives now layers db).1 = dom db.
Proof.
  unfold process_packet_ek, process_packet_ek_body.
  destruct (bool_decide (layers = ∅)); [done|].
  destruct (negb _ && _); [done|].
  destruct (extract_ports _ _) as [sport dport].
  destruct (_ || _); [done|].
  destruct (extract_ip _ _ _ _) as [s|]; [|done].
  destruct (extract_ip _ _ _ _) as [d|]; [|done].
  destruct (_ && _); [|done].
  rewrite add_packet_call_raises. cbn [fst].
  destruct (match get_layer_value layers "ip_ttl" with
            | Some v => Some v
            | None => get_layer_value layers "ipv6_hlim"
            end) as [v|]; [|done].
  destruct (py_int v) as [t|]; [|done].
  unfold update_connection_ttl. destruct (bind_int t); cbn [snd]; [|done].
  apply dom_alter_L.
Qed.

Lemma decode_all_dom (packets : list layers_t) (db : gmap string connection) :
  dom (decode_all tshark_field false_positives now packets db) = dom db.
Proof.
  unfold decode_all. revert db.
  induction packets as [|p packets IH]; intros db; [done|].
  cbn [foldl]. by rewrite IH, process_packet_ek_dom.
Qed.

End Decode.

(** C4 (the code departs from the claim).  Decoding two records of the
    same 4-tuple with frame lengths 100 and 200 leaves [connections]
    without any row, and [process_packet_ek] returns [False] for both:
    the call of [add_packet] raises [TypeError] before the upsert runs.
    The upsert itself, called with the arguments it accepts, gives the
    one row with [total_bytes = 300] and [packet_count = 2]. *)
Theorem scenario_a_no_connection_record :
  let p1 := tcp_packet "10.0.0.5" "10.0.0.9" "51000" "443" "100" in
  let p2 := tcp_packet "10.0.0.5" "10.0.0.9" "51000" "443" "200" in
  let key := "10.0.0.5:51000->10.0.0.9:443" in
  decode_all full_registry ∅ 0 [p1; p2] ∅ = ∅ /\
  (process_packet_ek full_registry ∅ 0 p1 ∅).2 = false /\
  (process_packet_ek full_registry ∅ 0 p2 ∅).2 = false /\
  (add_packet key "10.0.0.5" "10.0.0.9" (Some 51000) (Some 443) 200 0 0
     (add_packet key "10.0.0.5" "10.0.0.9" (Some 51000) (Some 443) 100 0 0 ∅).2).2
  = {[ key := mkConn "10.0.0.5" "10.0.0.9" (Some 51000) (Some 443) 300 2 0
                     "unknown" 0 None None ]}.
Proof.
  intros p1 p2 key. split; [|split; [|split]].
  - apply dom_empty_iff_L. by rewrite decode_all_dom, dom_empty_L.
  - by vm_compute.
  - by vm_compute.
  - by apply add_packet_twice.
Qed.

End CaptureFacts.

(* ===================================================================== *)
(** * Synchronization: scope of the rollback, incremental copy, idempotence *)
(* ===================================================================== *)

Module SyncFacts.
Import Sync.

(** ** The order of timestamps *)

Ltac stamp_order :=
  intros;
  repeat match goal with s : stamp |- _ => destruct s end;
  unfold sql_max in *; cbn [sql_lt is_date] in *;
  repeat match goal with
         | H : context [?a <? ?b] |- _ => destruct (Z.ltb_spec a b)
         | |- context [?a <? ?b] => destruct (Z.ltb_spec a b)
         end;
  try done; try (f_equal; lia).

Lemma sql_lt_irrefl (a : stamp) : sql_lt a a = false.
Proof. stamp_order. Qed.

Lemma sql_lt_trans (a b c : stamp) :
  sql_lt a b = true -> sql_lt b c = true -> sql_lt a c = true.
Proof. stamp_order. Qed.

Lemma sql_le_lt_trans (a b c : stamp) :
  sql_lt b a = false -> sql_lt b c = true -> sql_lt a c = true.
Proof. stamp_order. Qed.

Lemma sql_le_trans (a b c : stamp) :
  sql_lt b a = false -> sql_lt c b = false -> sql_lt c a = false.
Proof. stamp_order. Qed.

Lemma sql_lt_le (a b : stamp) : sql_lt a b = true -> sql_lt b a = false.
Proof. stamp_order. Qed.

Lemma sql_le_antisym (a b : stamp) :
  sql_lt a b = false -> sql_lt b a = false -> a = b.
Proof. stamp_order. Qed.

Lemma sql_lt_date (a b : stamp) :
  is_date a = true -> sql_lt a b = true -> is_date b = true.
Proof. stamp_order. Qed.

Lemma sql_le_date (a b : stamp) :
  is_date a = true -> sql_lt b a = false -> is_date b = true.
Proof. stamp_order. Qed.

Lemma sql_lt_date_num (a : stamp) (v : Z) :
  is_date a = true -> sql_lt a (Num v) = false.
Proof. stamp_order. Qed.

Lemma or_default_some (x : stamp) : or_default (Some x) (Num 0) = x.
Proof.
  destruct x as [v|r]; cbn; [|done]. destruct (Z.eqb_spec v 0); by subst.
Qed.

Lemma or_default_date (x d : stamp) :
  is_date x = true -> or_default (Some x) d = x.
Proof. by destruct x. Qed.

Section Store.
Context {K : Type} `{Countable K}.
Variable julian : Z -> option Z.
Implicit Types (rs sel dest : gmap K row) (an capture : gmap string (table K)).

(** ** The row loop *)

Lemma insert_rows_spec (faulty : K -> bool) sel dest :
  (insert_rows faulty sel dest).1
  = filter (fun kr => negb (faulty kr.1)) sel ∪ dest.
Proof.
  unfold insert_rows.
  apply (map_fold_weak_ind
           (fun (acc : gmap K row * Z) (m : gmap K row) =>
              acc.1 = filter (fun kr => negb (faulty kr.1)) m ∪ dest)).
  - by rewrite map_filter_empty, (left_id_L ∅ (∪)).
  - intros k r m acc Hk IH. destruct (faulty k) eqn:Hf.
    + rewrite map_filter_insert_False, delete_id; [done|done|].
      cbn [fst]. rewrite Hf. exact id.
    + cbn [fst]. rewrite IH, map_filter_insert_True.
      * by rewrite insert_union_l.
      * cbn [fst]. by rewrite Hf.
Qed.

Lemma insert_rows_all sel dest :
  (insert_rows (fun _ => false) sel dest).1 = sel ∪ dest.
Proof.
  rewrite insert_rows_spec. f_equal.
  apply map_filter_id. intros k r _. done.
Qed.

(** ** [MAX(timestamp)] *)

Lemma max_ts_spec rs :
  match max_ts rs with
  | Some m =>
      (exists k r, rs !! k = Some r /\ row_ts r = Some m) /\
      (forall k r t, rs !! k = Some r -> row_ts r = Some t -> sql_lt m t = false)
  | None => forall k r, rs !! k = Some r -> row_ts r = None
  end.
Proof.
  unfold max_ts.
  apply (map_fold_weak_ind
           (fun (acc : option stamp) (m : gmap K row) =>
              match acc with
              | Some v =>
                  (exists k r, m !! k = Some r /\ row_ts r = Some v) /\
                  (forall k r t, m !! k = Some r -> row_ts r = Some t ->
                                 sql_lt v t = false)
              | None => forall k r, m !! k = Some r -> row_ts r = None
              end)).
  - intros k r. by rewrite lookup_empty.
  - intros i x m acc Hi IH.
    destruct (row_ts x) as [tx|] eqn:Hx, acc as [v|]; cbn [opt_max].
    + destruct IH as [(k & r & Hk & Hr) Hle].
      unfold sql_max. destruct (sql_lt tx v) eqn:E.
      * split.
        -- exists k, r. split; [|done].
           rewrite lookup_insert_ne; [done|]. intros ->. congruence.
        -- intros k' r' t'. destruct (decide (i = k')) as [<-|Hne].
           ++ rewrite lookup_insert_eq. intros [= <-] Ht. rewrite Hx in Ht.
              injection Ht as <-. by apply sql_lt_le.
           ++ rewrite lookup_insert_ne by done. apply Hle.
      * split.
        -- exists i, x. by rewrite lookup_insert_eq.
        -- intros k' r' t'. destruct (decide (i = k')) as [<-|Hne].
           ++ rewrite lookup_insert_eq. intros [= <-] Ht. rewrite Hx in Ht.
              injection Ht as <-. apply sql_lt_irrefl.
           ++ rewrite lookup_insert_ne by done. intros Hk' Ht'.
              specialize (Hle _ _ _ Hk' Ht').
              by apply (sql_le_trans t' v tx).
    + split.
      * exists i, x. by rewrite lookup_insert_eq.
      * intros k' r' t'. destruct (decide (i = k')) as [<-|Hne].
        -- rewrite lookup_insert_eq. intros [= <-] Ht. rewrite Hx in Ht.
           injection Ht as <-. apply sql_lt_irrefl.
        -- rewrite lookup_insert_ne by done. intros Hk' Ht'.
           by rewrite (IH _ _ Hk') in Ht'.
    + destruct IH as [(k & r & Hk & Hr) Hle]. split.
      * exists k, r. split; [|done].
        rewrite lookup_insert_ne; [done|]. intros ->. congruence.
      * intros k' r' t'. destruct (decide (i = k')) as [<-|Hne].
        -- rewrite lookup_insert_eq. intros [= <-] Ht. congruence.
        -- rewrite lookup_insert_ne by done. apply Hle.
    + intros k' r'. destruct (decide (i = k')) as [<-|Hne].
      * rewrite lookup_insert_eq. by intros [= <-].
      * rewrite lookup_insert_ne by done. apply IH.
Qed.

Lemma max_ts_some rs (m : stamp) :
  (exists k r, rs !! k = Some r /\ row_ts r = Some m) ->
  (forall k r t, rs !! k = Some r -> row_ts r = Some t -> sql_lt m t = false) ->
  max_ts rs = Some m.
Proof.
  intros (k & r & Hk & Hr) Hle. pose proof (max_ts_spec rs) as Hs.
  destruct (max_ts rs) as [v|].
  - destruct Hs as [(k' & r' & Hk' & Hr') Hle'].
    f_equal. specialize (Hle _ _ _ Hk' Hr'). specialize (Hle' _ _ _ Hk Hr).
    by apply sql_le_antisym.
  - rewrite (Hs _ _ Hk) in Hr. done.
Qed.

Lemma lookup_newer_than (c : option stamp) rs (k : K) (r : row) :
  newer_than c rs !! k = Some r <->
  rs !! k = Some r /\
  exists c0 t, c = Some c0 /\ row_ts r = Some t /\ sql_lt c0 t = true.
Proof.
  unfold newer_than. rewrite map_lookup_filter_Some. cbn. unfold newer.
  split; intros [Hk Hr]; (split; [done|]).
  - destruct c as [c0|]; [|done]. destruct (row_ts r) as [t|]; [|done].
    exists c0, t. split; [done|]. split; [done|]. by apply Is_true_true.
  - destruct Hr as (c0 & t & -> & -> & Ht). by apply Is_true_true.
Qed.

(** Nothing is above NULL. *)
Lemma newer_than_null rs : newer_than None rs = ∅.
Proof.
  apply map_eq. intros k. rewrite lookup_empty.
  destruct (newer_than None rs !! k) as [r|] eqn:E; [|done].
  apply lookup_newer_than in E as [_ (c0 & t & Hc & _)]. done.
Qed.

(** [datetime] gives nothing but NULL and date texts. *)
Lemma datetime_date (s c : stamp) :
  datetime julian s = Some c -> is_date c = true.
Proof.
  destruct s as [v|r]; cbn.
  - destruct (julian v); cbn; [|done]. by intros [= <-].
  - by intros [= <-].
Qed.

Lemma datetime_of_date (s : stamp) :
  is_date s = true -> datetime julian s = Some s.
Proof. by destruct s. Qed.

(** The rows selected for a table that exists. *)
Lemma select_rows_cutoff (ct dt : table K) :
  select_rows julian ct (Some dt)
  = if has_timestamp (tschema ct)
    then newer_than (cutoff julian (numeric_ts (tschema ct)) (rows dt)) (rows ct)
    else rows ct.
Proof.
  unfold select_rows, cutoff. destruct (has_timestamp _); [|done].
  by destruct (numeric_ts _).
Qed.

(** In a column that is not declared numeric, the value compared with
    is NULL or a date text. *)
Lemma cutoff_date (rs : gmap K row) (c : stamp) :
  cutoff julian false rs = Some c -> is_date c = true.
Proof. unfold cutoff. apply datetime_date. Qed.

(** ** One table, and the loop over the tables *)

(** A step leaves a table missing only if it was missing. *)
Lemma table_step_none (f : faults K) (name : string) (ct : table K)
    (o : option (table K)) :
  (table_step julian f name ct o).1 = None -> o = None.
Proof.
  unfold table_step.
  destruct (decide (table_fault f name = AtLookup)); [done|].
  destruct (decide (table_fault f name = AtSelect)); [done|].
  destruct (decide (name = arp_table)).
  - destruct (decide (table_fault f name = AtFetch)); [done|].
    by destruct (insert_rows _ _ _).
  - destruct (negb _); [done|].
    destruct (decide (table_fault f name = AtFetch)); [done|].
    by destruct (insert_rows _ _ _).
Qed.

(** A step reads the faults of its own table only. *)
Lemma table_step_faults (f g : faults K) (name : string) (ct : table K)
    (o : option (table K)) :
  table_fault f name = table_fault g name ->
  (forall k, row_fault f name k = row_fault g name k) ->
  (table_step julian f name ct o).1 = (table_step julian g name ct o).1.
Proof.
  intros Ht Hr. unfold table_step. rewrite Ht.
  assert (Hins : forall sel dest,
            (insert_rows (row_fault f name) sel dest).1
            = (insert_rows (row_fault g name) sel dest).1).
  { intros sel dest. rewrite !insert_rows_spec. f_equal.
    apply map_filter_ext. intros k r _. cbn. by rewrite Hr. }
  destruct (decide (table_fault g name = AtLookup)); [done|].
  destruct (decide (table_fault g name = AtSelect)); [done|].
  destruct (decide (name = arp_table)).
  - destruct (decide (table_fault g name = AtFetch)); [done|].
    match goal with
    | |- context [insert_rows (row_fault f name) ?s ?d] =>
        specialize (Hins s d)
    end.
    do 2 destruct (insert_rows _ _ _). cbn in *. by subst.
  - destruct (negb _); [done|].
    destruct (decide (table_fault g name = AtFetch)); [done|].
    match goal with
    | |- context [insert_rows (row_fault f name) ?s ?d] =>
        specialize (Hins s d)
    end.
    do 2 destruct (insert_rows _ _ _). cbn in *. by subst.
Qed.

Lemma sync_tables_lookup (f : faults K) capture an (name : string) :
  (sync_tables julian f capture an).1 !! name
  = match capture !! name with
    | Some ct => (table_step julian f name ct (an !! name)).1
    | None => an !! name
    end.
Proof.
  unfold sync_tables. revert name.
  apply (map_fold_weak_ind
           (fun (acc : gmap string (table K) * Z) (m : gmap string (table K)) =>
              forall name,
                acc.1 !! name
                = match m !! name with
                  | Some ct => (table_step julian f name ct (an !! name)).1
                  | None => an !! name
                  end)).
  - intros name. by rewrite lookup_empty.
  - intros i ct m acc Hi IH name.
    pose proof (IH i) as Hacc. rewrite Hi in Hacc.
    destruct (table_step julian f i ct (acc.1 !! i)) as [o n] eqn:E. cbn [fst].
    destruct (decide (i = name)) as [<-|Hne].
    + rewrite lookup_insert_eq, <- Hacc, E. cbn [fst].
      destruct o as [t|]; cbn [put]; [by rewrite lookup_insert_eq|].
      eapply table_step_none. by rewrite E.
    + rewrite lookup_insert_ne by done.
      destruct o as [t|]; cbn [put]; [rewrite lookup_insert_ne by done|];
        apply IH.
Qed.

Lemma resolve_lookup (enrich : list string -> list string) an (name : string) :
  (resolve_domain_names enrich an).1 !! name
  = (if decide (name = tls_table) then enrich_table enrich else id)
      <$> an !! name.
Proof.
  unfold resolve_domain_names. destruct (an !! tls_table) as [t|] eqn:E.
  - cbn [fst]. case_decide as Hn.
    + subst. by rewrite lookup_insert_eq, E.
    + rewrite lookup_insert_ne by done. by destruct (an !! name).
  - cbn [fst]. case_decide as Hn; [subst; by rewrite E|].
    by destruct (an !! name).
Qed.

(** The table of a given name after a pass that is not rolled back. *)
Lemma pass_lookup (enrich : list string -> list string) (f : faults K)
    capture an (name : string) :
  enumerate_fails f = false -> commit_fails f = false ->
  (sync_databases julian enrich f capture an).1 !! name
  = (if decide (name = tls_table) then enrich_table enrich else id)
      <$> match capture !! name with
          | Some ct => (table_step julian f name ct (an !! name)).1
          | None => an !! name
          end.
Proof.
  intros He Hc. unfold sync_databases. rewrite He, Hc.
  destruct (sync_tables julian f capture an) as [an1 n] eqn:E1.
  destruct (resolve_domain_names enrich an1) as [an2 r] eqn:E2. cbn [fst].
  replace an2 with (resolve_domain_names enrich an1).1 by (by rewrite E2).
  rewrite resolve_lookup.
  replace an1 with (sync_tables julian f capture an).1 by (by rewrite E1).
  by rewrite sync_tables_lookup.
Qed.

(** ** What the enrichment step preserves *)

Section Enrich.
Variable enrich : list string -> list string.

Lemma stamps_enrich rs : stamps (enrich_rows enrich rs) = stamps rs.
Proof.
  unfold stamps, enrich_rows. rewrite <- map_fmap_compose.
  by apply map_fmap_ext.
Qed.

Lemma stamps_touch (name : string) (t : table K) :
  stamps (rows (touch enrich name t)) = stamps (rows t).
Proof. unfold touch. case_decide; [apply stamps_enrich|done]. Qed.

Lemma dom_touch (name : string) (t : table K) :
  dom (rows (touch enrich name t)) = dom (rows t).
Proof.
  unfold touch. case_decide; [|done]. cbn. unfold enrich_rows.
  by rewrite dom_fmap_L.
Qed.

Lemma size_touch (name : string) (t : table K) :
  size (rows (touch enrich name t)) = size (rows t).
Proof. by rewrite <- !size_dom, dom_touch. Qed.

Lemma tschema_touch (name : string) (t : table K) :
  tschema (touch enrich name t) = tschema t.
Proof. unfold touch. by case_decide. Qed.

Lemma pass_lookup_no_faults capture an (name : string) :
  (sync_databases julian enrich no_faults capture an).1 !! name
  = touch enrich name <$> match capture !! name with
                   | Some ct =>
                       (table_step julian no_faults name ct (an !! name)).1
                   | None => an !! name
                   end.
Proof. by apply pass_lookup. Qed.

End Enrich.

Lemma max_ts_stamps rs rs' : stamps rs = stamps rs' -> max_ts rs = max_ts rs'.
Proof.
  assert (Hts : forall (a b : gmap K row), stamps a = stamps b ->
            forall k r, a !! k = Some r ->
                        exists r', b !! k = Some r' /\ row_ts r' = row_ts r).
  { intros a b Hab k r Hk.
    assert (Hs : stamps a !! k = Some (row_ts r))
      by (unfold stamps; by rewrite lookup_fmap, Hk).
    rewrite Hab in Hs. unfold stamps in Hs. rewrite lookup_fmap in Hs.
    destruct (b !! k) as [r'|]; [|done]. injection Hs as Hs. by exists r'. }
  intros Heq. pose proof (max_ts_spec rs) as Hs.
  destruct (max_ts rs) as [m|].
  - destruct Hs as [(k & r & Hk & Hr) Hle]. symmetry. apply max_ts_some.
    + destruct (Hts _ _ Heq _ _ Hk) as (r' & Hk' & Hr').
      exists k, r'. split; [done|]. congruence.
    + intros k' r' t Hk' Ht.
      destruct (Hts _ _ (eq_sym Heq) _ _ Hk') as (r0 & Hk0 & Hr0).
      apply (Hle k' r0); [done|congruence].
  - pose proof (max_ts_spec rs') as Hs'.
    destruct (max_ts rs') as [m'|]; [|done].
    destruct Hs' as [(k & r & Hk & Hr) _].
    destruct (Hts _ _ (eq_sym Heq) _ _ Hk) as (r0 & Hk0 & Hr0).
    rewrite (Hs _ _ Hk0) in Hr0. congruence.
Qed.

(** ** A fault-free step *)

Lemma table_step_no_faults (name : string) (ct : table K)
    (o : option (table K)) :
  (table_step julian no_faults name ct o).1
  = Some (let dt := default (mkTable (tschema ct) ∅) o in
          if decide (name = arp_table) then mkTable (tschema dt) (rows ct)
          else if columns_ok (tschema ct)
               then mkTable (tschema dt) (select_rows julian ct o ∪ rows dt)
               else dt).
Proof.
  unfold table_step. cbn [table_fault row_fault no_faults].
  destruct (decide (NoFault = AtLookup)); [done|].
  destruct (decide (NoFault = AtSelect)); [done|].
  destruct (decide (NoFault = AtFetch)); [done|].
  destruct (decide (name = arp_table)).
  - match goal with
    | |- context [insert_rows ?g ?s ?d] =>
        pose proof (insert_rows_all s d) as Hins;
        destruct (insert_rows g s d) as [rs cnt]
    end.
    cbn [fst] in *. subst rs.
    destruct o as [t|]; cbn; by rewrite (right_id_L ∅ (∪)).
  - destruct (columns_ok (tschema ct)); cbn [negb]; [|done].
    match goal with
    | |- context [insert_rows ?g ?s ?d] =>
        pose proof (insert_rows_all s d) as Hins;
        destruct (insert_rows g s d) as [rs cnt]
    end.
    cbn [fst] in *. by subst rs.
Qed.

Lemma newer_than_subseteq (c : option stamp) rs : newer_than c rs ⊆ rs.
Proof. apply map_filter_subseteq. Qed.

Lemma select_rows_subseteq (ct : table K) (o : option (table K)) :
  select_rows julian ct o ⊆ rows ct.
Proof.
  unfold select_rows. destruct o as [dt|]; [|done].
  destruct (has_timestamp _); [|done].
  destruct (numeric_ts _); apply newer_than_subseteq.
Qed.

Lemma size_union_covered (a b : gmap K row) :
  dom a ⊆ dom b -> size (a ∪ b) = size b.
Proof.
  intros Hab. rewrite <- !size_dom, dom_union_L.
  by rewrite (subseteq_union_1_L _ _ Hab).
Qed.

(** What the next pass selects was selected by this one: either this
    pass selected nothing, and the next compares with the same value, or
    the greatest timestamp written is the value the next compares
    with. *)
Lemma reselect_covered (numeric : bool) (ct dt : table K) (rs : gmap K row) :
  let c1 := cutoff julian numeric (rows dt) in
  stamps rs = stamps (newer_than c1 (rows ct) ∪ rows dt) ->
  newer_than (cutoff julian numeric rs) (rows ct) ⊆ newer_than c1 (rows ct).
Proof.
  intros c1 Hrs.
  destruct (map_choose_or_empty (newer_than c1 (rows ct)))
    as [(k & r & Hk)|Hempty].
  - apply lookup_newer_than in Hk as HE.
    destruct HE as [Hct (c & t & Hc1 & Ht & Hlt)].
    assert (Hu : (newer_than c1 (rows ct) ∪ rows dt) !! k = Some r)
      by (by apply lookup_union_Some_raw; left).
    pose proof (max_ts_spec (newer_than c1 (rows ct) ∪ rows dt)) as Hmax.
    rewrite <- (max_ts_stamps _ _ Hrs) in Hmax.
    destruct (max_ts rs) as [y|] eqn:Ey; [|by rewrite (Hmax _ _ Hu) in Ht].
    destruct Hmax as [_ Hle]. specialize (Hle _ _ _ Hu Ht).
    assert (Hc2 : cutoff julian numeric rs = Some y).
    { unfold cutoff. rewrite Ey. destruct numeric.
      - by rewrite or_default_some.
      - assert (Hy : is_date y = true).
        { apply (sql_le_date t); [|done]. apply (sql_lt_date c); [|done].
          by apply (cutoff_date (rows dt)). }
        rewrite or_default_date by done. by apply datetime_of_date. }
    rewrite Hc2. apply map_subseteq_spec. intros k' r'.
    rewrite !lookup_newer_than.
    intros [Hk' (c0 & t' & [= <-] & Ht' & Hlt')]. split; [done|].
    exists c, t'. split; [done|]. split; [done|].
    apply (sql_lt_trans c t); [done|]. by apply (sql_le_lt_trans t y).
  - assert (Hst : stamps rs = stamps (rows dt)).
    { rewrite Hrs, Hempty. by rewrite (left_id_L ∅ (∪)). }
    unfold cutoff. by rewrite (max_ts_stamps _ _ Hst).
Qed.

(** ** Idempotence *)

(** C6. A second fault-free pass over an unchanged capture store leaves
    the row count of every table of the analysis store unchanged. *)
Theorem sync_idempotent (enrich : list string -> list string)
    capture an (name : string) :
  let an1 := (sync_databases julian enrich no_faults capture an).1 in
  row_count (sync_databases julian enrich no_faults capture an1).1 name
  = row_count an1 name.
Proof.
  intros an1. unfold row_count, rows_of.
  rewrite pass_lookup_no_faults.
  assert (H1 : an1 !! name
               = touch enrich name
                   <$> match capture !! name with
                       | Some ct =>
                           (table_step julian no_faults name ct (an !! name)).1
                       | None => an !! name
                       end) by apply pass_lookup_no_faults.
  destruct (capture !! name) as [ct|].
  2:{ rewrite H1. destruct (an !! name) as [t|]; cbn; [|done].
      by rewrite size_touch. }
  rewrite table_step_no_faults in H1. cbn [fmap option_fmap option_map] in H1.
  rewrite H1, table_step_no_faults.
  cbn [fmap option_fmap option_map default from_option id].
  rewrite size_touch.
  destruct (decide (name = arp_table)); [by rewrite size_touch|].
  destruct (columns_ok (tschema ct)); [|done].
  cbn [rows]. apply size_union_covered.
  rewrite dom_touch. cbn [rows]. rewrite dom_union_L.
  set (dt := default (mkTable (tschema ct) ∅) (an !! name)).
  set (T1 := touch enrich name
               (mkTable (tschema dt)
                        (select_rows julian ct (an !! name) ∪ rows dt))).
  assert (Hst : stamps (rows T1)
                = stamps (select_rows julian ct (an !! name) ∪ rows dt))
    by apply stamps_touch.
  rewrite (select_rows_cutoff ct T1).
  destruct (has_timestamp (tschema ct)) eqn:Hts.
  2:{ unfold select_rows. rewrite Hts.
      destruct (an !! name); set_solver. }
  destruct (an !! name) as [t|] eqn:Ean.
  - rewrite (select_rows_cutoff ct t), Hts in Hst |- *.
    subst dt. cbn [default from_option id] in *.
    pose proof (subseteq_dom _ _
                  (reselect_covered (numeric_ts (tschema ct)) ct t (rows T1) Hst))
      as Hd.
    set_solver.
  - cbn [select_rows].
    pose proof (subseteq_dom _ _
                  (newer_than_subseteq
                     (cutoff julian (numeric_ts (tschema ct)) (rows T1))
                     (rows ct))).
    set_solver.
Qed.

(** ** Incremental copy *)

(** The rows of a table that exists after a fault-free pass: what was
    selected over what it had. *)
Lemma pass_rows_existing (enrich : list string -> list string)
    capture an (name : string) (ct dt : table K) :
  name <> arp_table ->
  capture !! name = Some ct ->
  columns_ok (tschema ct) = true ->
  an !! name = Some dt ->
  rows_of (sync_databases julian enrich no_faults capture an).1 name
  = rows (touch enrich name
            (mkTable (tschema dt)
                     (select_rows julian ct (Some dt) ∪ rows dt))).
Proof.
  intros Harp Hct Hcols Hdt.
  unfold rows_of. rewrite pass_lookup_no_faults, Hct, Hdt.
  rewrite table_step_no_faults.
  cbn [fmap option_fmap option_map default from_option id].
  destruct (decide (name = arp_table)); [done|].
  by rewrite Hcols.
Qed.

(** A maximum that [datetime] reads as no date: nothing is above NULL. *)
Lemma select_rows_no_date (ct dt : table K) (v : Z) :
  has_timestamp (tschema ct) = true ->
  numeric_ts (tschema ct) = false ->
  max_ts (rows dt) = Some (Num v) -> v <> 0 -> julian v = None ->
  select_rows julian ct (Some dt) = ∅.
Proof.
  intros Hts Hnum Hmax Hv Hj.
  rewrite select_rows_cutoff, Hts, Hnum. unfold cutoff. rewrite Hmax.
  cbn [or_default]. destruct (Z.eqb_spec v 0); [done|].
  cbn [datetime]. rewrite Hj. apply newer_than_null.
Qed.


(** ** Scope of the rollback *)

(** C1 (as amended). A failure at a statement outside the per-table
    handlers (enumerating the tables, the final commit) rolls the whole
    pass back: the analysis store is as before and 0 is returned.  A
    failure while one table is replicated is caught by that table's
    handler and the pass goes on to commit: every table that has no fault
    of its own ends the pass exactly as in a fault-free pass, and a table
    whose existence check fails is left as it was (the enrichment step
    apart). *)
Theorem pass_rollback_scope (enrich : list string -> list string) :
  (forall (f : faults K) capture an,
     enumerate_fails f = true \/ commit_fails f = true ->
     sync_databases julian enrich f capture an = (an, 0)) /\
  (forall (f : faults K) capture an (name : string),
     enumerate_fails f = false -> commit_fails f = false ->
     table_fault f name = NoFault ->
     (forall k, row_fault f name k = false) ->
     (sync_databases julian enrich f capture an).1 !! name
     = (sync_databases julian enrich no_faults capture an).1 !! name) /\
  (forall (f : faults K) capture an (name : string),
     enumerate_fails f = false -> commit_fails f = false ->
     table_fault f name = AtLookup ->
     (sync_databases julian enrich f capture an).1 !! name
     = touch enrich name <$> an !! name).
Proof.
  split; [|split].
  - intros f capture an [He|Hc]; unfold sync_databases.
    + by rewrite He.
    + rewrite Hc. destruct (enumerate_fails f); [done|].
      destruct (sync_tables julian f capture an) as [an1 n1].
      by destruct (resolve_domain_names enrich an1).
  - intros f capture an name He Hc Ht Hr.
    rewrite pass_lookup by done. rewrite pass_lookup_no_faults.
    destruct (capture !! name) as [ct|]; [|done].
    f_equal. by apply table_step_faults.
  - intros f capture an name He Hc Ht.
    rewrite pass_lookup by done.
    destruct (capture !! name) as [ct|]; [|done].
    unfold table_step. rewrite Ht.
    by destruct (decide (AtLookup = AtLookup)).
Qed.

End Store.

(** ** The theorems on the sample stores *)

Lemma sync_idempotent_witness :
  row_count (sync_databases no_julian_date id no_faults sample_capture
               (sync_databases no_julian_date id no_faults sample_capture
                               sample_analysis).1).1
            "arp_data"
  = row_count (sync_databases no_julian_date id no_faults sample_capture
                              sample_analysis).1
              "arp_data".
Proof.
  exact (sync_idempotent (K:=Z) no_julian_date id sample_capture
           sample_analysis "arp_data").
Defined.



(** C2 as stated also fails on a table whose column is declared
    [TIMESTAMP] and holds the numbers of [time.time()], which [datetime]
    reads as no date: the capture store has a row above the maximum of
    the analysis store, and the pass copies nothing. *)
Lemma incremental_sync_clock_counterexample :
  ~ (exists julian : Z -> option Z,
       julian 1700000005 = None /\
       forall (capture an : gmap string (table Z)) (name : string)
              (ct dt : table Z) (tk tN : stamp),
         name <> arp_table ->
         capture !! name = Some ct ->
         columns_ok (tschema ct) = true ->
         has_timestamp (tschema ct) = true ->
         an !! name = Some dt ->
         max_ts (rows dt) = Some tk ->
         max_ts (rows ct) = Some tN ->
         sql_lt tN tk = false ->
         max_ts (rows_of (sync_databases julian id no_faults capture an).1 name)
         = Some tN).
Proof.
  intros (julian & Hj & Hclaim).
  specialize (Hclaim clock_capture clock_analysis "app_protocols"
                (mkTable timestamp_schema clock_rows)
                (mkTable timestamp_schema
                   {[ 1 := mkRow (Some (Num 1700000005)) ["10.0.0.5"] ]})
                (Num 1700000005) (Num 1700000020)
                ltac:(discriminate)
                eq_refl eq_refl eq_refl eq_refl eq_refl eq_refl eq_refl).
  rewrite (pass_rows_existing julian id clock_capture clock_analysis
             "app_protocols"
             (mkTable timestamp_schema clock_rows)
             (mkTable timestamp_schema
                      {[ 1 := mkRow (Some (Num 1700000005)) ["10.0.0.5"] ]}))
    in Hclaim by (reflexivity || discriminate).
  rewrite (select_rows_no_date julian _ _ 1700000005) in Hclaim
    by (reflexivity || lia || exact Hj).
  vm_compute in Hclaim. discriminate Hclaim.
Qed.

Lemma pass_rollback_scope_witness :
  sync_databases no_julian_date id commit_fault sample_capture sample_analysis
  = (sample_analysis, 0) /\
  (sync_databases no_julian_date id alerts_fault sample_capture
                  sample_analysis).1 !! "connections"
  = (sync_databases no_julian_date id no_faults sample_capture
                    sample_analysis).1 !! "connections" /\
  (sync_databases no_julian_date id alerts_fault sample_capture
                  sample_analysis).1 !! "alerts"
  = touch id "alerts" <$> sample_analysis !! "alerts".
Proof.
  destruct (pass_rollback_scope (K:=Z) no_julian_date id) as (H1 & H2 & H3).
  split; [|split].
  - apply H1. right. reflexivity.
  - apply H2; [reflexivity|reflexivity|reflexivity|]. intros k. reflexivity.
  - apply H3; reflexivity.
Defined.

(** C1 as stated fails: with a failure while [alerts] is replicated, the
    pass is not rolled back; the rows of [connections] copied in the same
    pass are committed. *)
Lemma pass_atomicity_counterexample :
  ~ (exists julian : Z -> option Z,
       forall (f : faults Z) (capture an : gmap string (table Z))
              (name : string),
         is_Some (capture !! name) ->
         table_fault f name <> NoFault ->
         (sync_databases julian id f capture an).1 = an).
Proof.
  intros (julian & Hclaim).
  assert (Hrows : rows_of (sync_databases julian id alerts_fault
                             sample_capture sample_analysis).1 "connections"
                  = packet_rows)
    by (by vm_compute).
  rewrite (Hclaim alerts_fault sample_capture sample_analysis "alerts") in Hrows.
  - vm_compute in Hrows. discriminate Hrows.
  - exists (mkTable sample_schema packet_rows). vm_compute. reflexivity.
  - vm_compute. discriminate.
Qed.

End SyncFacts.

(* ===================================================================== *)
(** * More facts about the string primitives: [split] and [join] *)
(* ===================================================================== *)

Module PyStrMoreFacts.
Import PyStr ConnKey KeyMore PyStrFacts.

Lemma append_assoc (a b c : string) : (a +:+ b) +:+ c = a +:+ (b +:+ c).
Proof.
  induction a as [|x a IH]; [done|].
  change (String x ((a +:+ b) +:+ c) = String x (a +:+ (b +:+ c))).
  by rewrite IH.
Qed.

Lemma append_nil_r (a : string) : a +:+ "" = a.
Proof.
  induction a as [|x a IH]; [done|].
  change (String x (a +:+ "") = String x a). by rewrite IH.
Qed.

(** One step of [split] on a one-character separator. *)
Lemma split_char_cons (c x : ascii) (s : string) :
  split (String c "") (String x s)
  = if Ascii.eqb c x then "" :: split (String c "") s
    else match split (String c "") s with
         | h :: t => String x h :: t
         | [] => [String x ""]
         end.
Proof.
  unfold split. cbn [split_aux]. rewrite prefix_char.
  by destruct (Ascii.eqb c x).
Qed.

Lemma split_nonempty (sep : string) (k : nat) (s : string) :
  split_aux sep k s <> [].
Proof.
  revert k. induction s as [|x s IH]; intros k; [done|].
  cbn [split_aux]. destruct k as [|k]; [|apply IH].
  destruct (String.prefix sep (String x s)); [done|].
  by destruct (split_aux sep 0 s).
Qed.

Lemma split_char_none (c : ascii) (s : string) :
  contains (String c "") s = false -> split (String c "") s = [s].
Proof.
  induction s as [|x s IH]; [done|].
  rewrite contains_char_cons, split_char_cons.
  intros [-> Hs]%orb_false_elim. by rewrite (IH Hs).
Qed.

Lemma split_char_app (c : ascii) (a b : string) :
  contains (String c "") a = false ->
  split (String c "") (a +:+ String c b) = a :: split (String c "") b.
Proof.
  induction a as [|x a IH].
  - intros _. change ("" +:+ String c b) with (String c b).
    by rewrite split_char_cons, Ascii.eqb_refl.
  - rewrite contains_char_cons. intros [Hx Ha]%orb_false_elim.
    change (String x a +:+ String c b) with (String x (a +:+ String c b)).
    by rewrite split_char_cons, Hx, (IH Ha).
Qed.

Lemma split_char_snoc (c : ascii) (h t : string) :
  contains (String c "") t = false ->
  split (String c "") (h +:+ String c t) = split (String c "") h ++ [t].
Proof.
  intros Ht. induction h as [|x h IH].
  - change ("" +:+ String c t) with (String c t).
    by rewrite split_char_cons, Ascii.eqb_refl, split_char_none.
  - change (String x h +:+ String c t) with (String x (h +:+ String c t)).
    rewrite !split_char_cons, IH. destruct (Ascii.eqb c x); [done|].
    pose proof (split_nonempty (String c "") 0 h) as Hne.
    fold (split (String c "") h) in Hne.
    by destruct (split (String c "") h).
Qed.

(** The first part of a split holds no separator. *)
Lemma split_char_head (c : ascii) (s : string) :
  exists h t, split (String c "") s = h :: t /\
              contains (String c "") h = false.
Proof.
  induction s as [|x s (h & t & IH & Hh)]; [by exists "", []|].
  rewrite split_char_cons, IH.
  destruct (Ascii.eqb c x) eqn:E; [by eexists _, _|].
  exists (String x h), t. split; [done|].
  by rewrite contains_char_cons, E, Hh.
Qed.

(** [c.join(s.split(c)) == s] *)
Lemma join_split (c : ascii) (s : string) :
  join (String c "") (split (String c "") s) = s.
Proof.
  induction s as [|x s IH]; [done|].
  rewrite split_char_cons.
  pose proof (split_nonempty (String c "") 0 s) as Hne.
  fold (split (String c "") s) in Hne.
  destruct (split (String c "") s) as [|h t] eqn:E; [done|].
  destruct (Ascii.eqb_spec c x) as [->|Hcx].
  - change (join (String x "") ("" :: h :: t))
      with (String x (join (String x "") (h :: t))).
    by rewrite IH.
  - destruct t as [|h' t]; [cbn [join] in *; by subst|].
    change (join (String c "") (String x h :: h' :: t))
      with (String x (join (String c "") (h :: h' :: t))).
    by rewrite IH.
Qed.

Lemma removelast_snoc {A : Type} (l : list A) (x : A) :
  removelast (l ++ [x]) = l.
Proof.
  induction l as [|y l IH]; [done|].
  cbn [app removelast]. rewrite IH. by destruct l.
Qed.

(** The decimal text of an integer holds no dot and no delimiter of a
    connection key. *)
Lemma str_int_chars (n : Z) :
  all_chars (fun c => is_digit c || Ascii.eqb c "-") (str_int n) = true.
Proof.
  assert (Hu : forall u, all_chars (fun c => is_digit c || Ascii.eqb c "-")
                           (NilEmpty.string_of_uint u) = true).
  { intros u. eapply all_chars_impl; [|apply uint_text_digits].
    intros c ->. done. }
  unfold str_int. destruct n as [|p|p]; [done| |];
    cbn [Z.to_int NilZero.string_of_int];
    pose proof (DecimalPos.Unsigned.to_uint_nonnil p) as Hp;
    replace (NilZero.string_of_uint (Pos.to_uint p))
      with (NilEmpty.string_of_uint (Pos.to_uint p))
      by (by destruct (Pos.to_uint p)).
  - apply Hu.
  - cbn [all_chars]. by rewrite Hu.
Qed.

Lemma str_int_no_char (c : ascii) (n : Z) :
  is_digit c || Ascii.eqb c "-" = false ->
  contains (String c "") (str_int n) = false.
Proof.
  intros Hc.
  exact (all_chars_no_char _ c _ Hc (str_int_chars n)).
Qed.

Lemma str_int_port_text_ok (n : Z) : port_text_ok (str_int n).
Proof.
  unfold port_text_ok. eapply all_chars_impl; [|apply str_int_chars].
  intros c Hc. unfold port_text_char.
  destruct (Ascii.eqb_spec c ":") as [->|]; [done|].
  destruct (Ascii.eqb_spec c ">") as [->|]; [done|].
  destruct (Ascii.eqb_spec c "[") as [->|]; [done|].
  destruct (Ascii.eqb_spec c "]") as [->|]; done.
Qed.

End PyStrMoreFacts.

(* ===================================================================== *)
(** * The capture store: counters, time to live, what the decoder reports *)
(* ===================================================================== *)

Module CaptureMoreFacts.
Import PyStr Capture CaptureMore.

Lemma int64_spec (z : Z) : int64 z = true <-> - 2 ^ 63 <= z <= 2 ^ 63 - 1.
Proof. unfold int64. rewrite andb_true_iff, !Z.leb_le. done. Qed.

Lemma add_packet_call_other (db : gmap string connection) (c : packet_call)
    (key : string) :
  call_key c <> key -> add_packet_call db c !! key = db !! key.
Proof.
  intros Hne. unfold add_packet_call. by apply CaptureFacts.add_packet_other.
Qed.

Lemma call_ok_spec (c : packet_call) :
  call_ok c = true ->
  int64 (call_length c) = true /\ bindable (call_sport c) = true /\
  bindable (call_dport c) = true /\ int64 (call_rdp c) = true.
Proof.
  unfold call_ok. rewrite !andb_true_iff. tauto.
Qed.

(** One call that can be bound, on counters within range. *)
Lemma add_packet_call_same (db : gmap string connection) (c : packet_call)
    (b n : Z) :
  call_ok c = true ->
  bytes_of db (call_key c) = Int b -> count_of db (call_key c) = Int n ->
  int64 (b + call_length c) = true -> int64 (n + 1) = true ->
  bytes_of (add_packet_call db c) (call_key c) = Int (b + call_length c) /\
  count_of (add_packet_call db c) (call_key c) = Int (n + 1) /\
  is_Some (add_packet_call db c !! call_key c).
Proof.
  intros (Hl & Hs & Hd & Hr)%call_ok_spec Hb Hn Hbl Hn1.
  unfold bytes_of, count_of, add_packet_call in *.
  destruct (db !! call_key c) as [r|] eqn:E; cbn in Hb, Hn.
  - rewrite (CaptureFacts.add_packet_row _ _ _ _ _ _ _ _ _ r) by done.
    cbn [snd]. rewrite lookup_insert_eq. cbn. rewrite Hb, Hn.
    by rewrite !CaptureFacts.sql_add_int by done.
  - rewrite CaptureFacts.add_packet_new by done.
    cbn [snd]. rewrite lookup_insert_eq. cbn.
    injection Hb as <-. injection Hn as <-. done.
Qed.

(** X1. A sequence of [add_packet] calls keeps one row per key whose
    counters are sums, as long as what is passed for the key can be bound
    (lengths, ports and [is_rdp] within 64 bits) and the sums stay within
    64 bits: [total_bytes] grows by the lengths passed for that key and
    [packet_count] by the number of calls for it, and the key has a row
    afterwards exactly when it had one or a call was made for it.  A
    call with a length outside 64 bits, or for a new key with a port or
    [is_rdp] outside 64 bits, returns [False] and writes nothing.  A sum
    that leaves the 64-bit range is kept as a floating-point number:
    2 bytes added to a counter of [2^63 - 1] give the REAL [2^63]. *)
Theorem add_packets_counters (calls : list packet_call)
    (db : gmap string connection) (key : string) :
  (forall b n : Z,
     Forall (fun c => call_ok c = true) (calls_for key calls) ->
     bytes_of db key = Int b -> count_of db key = Int n ->
     sums_in_range b (call_length <$> calls_for key calls) = true ->
     int64 n = true ->
     int64 (n + Z.of_nat (length (calls_for key calls))) = true ->
     bytes_of (add_packets calls db) key
     = Int (b + sum_lengths (calls_for key calls)) /\
     count_of (add_packets calls db) key
     = Int (n + Z.of_nat (length (calls_for key calls))) /\
     (is_Some (add_packets calls db !! key)
      <-> is_Some (db !! key) \/ calls_for key calls <> [])) /\
  (forall (sip dip : string) (sport dport : option Z) (length rdp now : Z),
     int64 length = false ->
     add_packet key sip dip sport dport length rdp now db = (false, db)) /\
  (forall (sip dip : string) (sport dport : option Z) (length rdp now : Z),
     db !! key = None ->
     bindable sport && bindable dport && int64 rdp = false ->
     add_packet key sip dip sport dport length rdp now db = (false, db)) /\
  (forall (sip dip : string) (sport dport : option Z) (rdp now : Z),
     bytes_of (add_packet key sip dip sport dport 2 rdp now
                 (<[key := full_row]> db)).2 key
     = Real (SpecFloat.S754_finite false 4503599627370496 11)).
Proof.
  split; [|split; [|split]].
  - revert db. induction calls as [|c calls IH]; intros db b n Hok Hb Hn Hs Hn0 Hn1.
    + cbn in *. rewrite Hb, Hn, !Z.add_0_r.
      split; [done|]. split; [done|]. split; [by left | by intros [?|?]].
    + cbn [add_packets foldl]. fold (add_packets calls (add_packet_call db c)).
      unfold calls_for in *. rewrite filter_cons in *.
      destruct (decide (call_key c = key)) as [<-|Hne].
      * apply Forall_cons in Hok as [Hc Hok].
        cbn [fmap list_fmap sums_in_range length] in Hs, Hn1.
        apply andb_true_iff in Hs as [Hb0 Hs].
        assert (Hbl : int64 (b + call_length c) = true).
        { destruct (call_length <$> filter _ calls); cbn in Hs;
            apply andb_true_iff in Hs; tauto. }
        assert (Hlen := Nat2Z.is_nonneg
                          (length (filter (fun c0 => call_key c0 = call_key c) calls))).
        assert (Hn2 : int64 (n + 1) = true).
        { apply int64_spec. apply int64_spec in Hn0, Hn1. lia. }
        destruct (add_packet_call_same db c b n Hc Hb Hn Hbl Hn2)
          as (Hb1 & Hc1 & Hsome).
        destruct (IH (add_packet_call db c) (b + call_length c) (n + 1)
                    Hok Hb1 Hc1 Hs Hn2) as (Hb2 & Hc2 & Hd2).
        { rewrite <- Hn1. f_equal. lia. }
        rewrite Hb2, Hc2. cbn [sum_lengths foldr length].
        fold (sum_lengths (filter (fun c0 => call_key c0 = call_key c) calls)).
        split; [f_equal; lia|]. split; [f_equal; lia|].
        rewrite Hd2. split; [by right|]. intros _. by left.
      * destruct (IH (add_packet_call db c) b n Hok) as (Hb2 & Hc2 & Hd2);
          try done.
        { unfold bytes_of. by rewrite add_packet_call_other. }
        { unfold count_of. by rewrite add_packet_call_other. }
        rewrite Hb2, Hc2, Hd2, add_packet_call_other by done. done.
  - intros. by apply CaptureFacts.add_packet_unbound_length.
  - intros. by apply CaptureFacts.add_packet_unbound_new.
  - intros sip dip sport dport rdp now.
    rewrite (CaptureFacts.add_packet_row key sip dip sport dport 2 rdp now _ full_row)
      by (reflexivity || apply lookup_insert_eq).
    cbn [snd]. unfold bytes_of. rewrite lookup_insert_eq.
    cbn [from_option]. by vm_compute.
Qed.

Lemma add_packets_counters_witness :
  let calls := [mkCall "a" "10.0.0.5" "10.0.0.9" (Some 51000) (Some 443) 100 0 1;
                mkCall "b" "10.0.0.6" "10.0.0.9" None None 60 0 2;
                mkCall "a" "10.0.0.5" "10.0.0.9" (Some 51000) (Some 443) 200 0 3] in
  bytes_of (add_packets calls ∅) "a" = Int 300 /\
  count_of (add_packets calls ∅) "a" = Int 2.
Proof.
  intros calls.
  destruct (proj1 (add_packets_counters calls ∅ "a") 0 0) as (Hb & Hc & _).
  - repeat constructor.
  - reflexivity.
  - reflexivity.
  - reflexivity.
  - reflexivity.
  - reflexivity.
  - split; [exact Hb | exact Hc].
Defined.

(** X2. [update_connection_ttl] returns [True] exactly when the value
    can be bound (64 bits); it then changes nothing but the [ttl] column
    of a row that exists, and nothing at all when the key has no row;
    a value that cannot be bound changes nothing.  So in the order of
    [process_packet_ek], the time to live before the upsert, the row the
    upsert creates for a new key carries no time to live, while a key
    that already has a row gets the new time to live with its counters
    advanced. *)
Theorem ttl_before_upsert (key sip dip : string) (sport dport : option Z)
    (length rdp now t : Z) (db : gmap string connection) :
  let db1 := (update_connection_ttl key t db).2 in
  let db2 := (add_packet key sip dip sport dport length rdp now db1).2 in
  (update_connection_ttl key t db).1 = int64 t /\
  (int64 t = false -> db1 = db) /\
  (forall k, k <> key -> db1 !! k = db !! k) /\
  (int64 length = true ->
   match db !! key with
   | None =>
       db1 = db /\
       (bindable sport && bindable dport && int64 rdp = true ->
        db2 !! key = Some (fresh sip dip sport dport length rdp now)) /\
       ttl (fresh sip dip sport dport length rdp now) = None
   | Some c =>
       exists c', db2 !! key = Some c' /\
         ttl c' = (if int64 t then Some t else ttl c) /\
         total_bytes c' = sql_add (total_bytes c) length /\
         packet_count c' = sql_add (packet_count c) 1 /\
         (src_ip c', dst_ip c', src_port c', dst_port c')
         = (src_ip c, dst_ip c, src_port c, dst_port c)
   end).
Proof.
  intros db1 db2. subst db1 db2. unfold update_connection_ttl, bind_int.
  assert (Halt : forall f, db !! key = None -> alter f key db = db).
  { intros f E. apply map_eq. intros k.
    destruct (decide (k = key)) as [->|Hk].
    - by rewrite lookup_alter_eq, E.
    - by rewrite lookup_alter_ne. }
  destruct (int64 t) eqn:Ht; cbn [fst snd].
  - split; [done|]. split; [done|]. split.
    { intros k Hk. by rewrite lookup_alter_ne. }
    intros Hl. destruct (db !! key) as [c|] eqn:E.
    + erewrite CaptureFacts.add_packet_row;
        [|done|by rewrite lookup_alter_eq, E].
      cbn [snd]. rewrite lookup_insert_eq. eexists. split; [done|]. done.
    + rewrite Halt by done. split; [done|]. split; [|done].
      intros Hb. apply andb_true_iff in Hb as [Hb Hr].
      apply andb_true_iff in Hb as [Hs Hd].
      rewrite CaptureFacts.add_packet_new by done.
      cbn [snd]. by rewrite lookup_insert_eq.
  - split; [done|]. split; [done|]. split; [done|].
    intros Hl. destruct (db !! key) as [c|] eqn:E.
    + erewrite CaptureFacts.add_packet_row; [|done|exact E].
      cbn [snd]. rewrite lookup_insert_eq. eexists. split; [done|]. done.
    + split; [done|]. split; [|done].
      intros Hb. apply andb_true_iff in Hb as [Hb Hr].
      apply andb_true_iff in Hb as [Hs Hd].
      rewrite CaptureFacts.add_packet_new by done.
      cbn [snd]. by rewrite lookup_insert_eq.
Qed.

Lemma ttl_before_upsert_witness :
  let db : gmap string connection :=
    {[ "k" := mkConn "10.0.0.5" "10.0.0.9" None None 100 1 0 "unknown" 0
                     None None ]} in
  exists c',
    (add_packet "k" "10.0.0.5" "10.0.0.9" None None 200 0 1
       (update_connection_ttl "k" 64 db).2).2 !! "k" = Some c' /\
    ttl c' = Some 64 /\ total_bytes c' = Int 300 /\ packet_count c' = Int 2.
Proof.
  intros db.
  pose proof (ttl_before_upsert "k" "10.0.0.5" "10.0.0.9" None None 200 0 1 64 db)
    as H0.
  cbv zeta in H0. destruct H0 as (_ & _ & _ & H).
  destruct (H eq_refl) as (c' & Hc & Ht & Hb & Hn & _).
  exists c'. split; [exact Hc|]. split; [exact Ht|]. split; [exact Hb | exact Hn].
Defined.

Section Decode.
Variable tshark_field : string -> option string.
Variable false_positives : gset string.
Variable now : Z.

(** X3. [process_packet_ek] returns [True] at most for a record that has
    an ARP address field and lacks a source or a destination address, and
    then the [connections] table is as it was.  For every record with
    both addresses it returns [False]. *)
Theorem process_packet_ek_true (layers : layers_t)
    (db : gmap string connection) :
  (process_packet_ek tshark_field false_positives now layers db).2 = true ->
  has_key layers "arp_src_proto_ipv4" || has_key layers "arp_dst_proto_ipv4"
  = true /\
  truthy (extract_ip tshark_field layers "ip.src" "ipv6.src")
  && truthy (extract_ip tshark_field layers "ip.dst" "ipv6.dst") = false /\
  (process_packet_ek tshark_field false_positives now layers db).1 = db.
Proof.
  unfold process_packet_ek, process_packet_ek_body.
  destruct (bool_decide (layers = ∅)); [done|].
  destruct (extract_ports _ _) as [sport dport].
  destruct (extract_ip tshark_field layers "ip.src" "ipv6.src") as [s|] eqn:Es;
    destruct (extract_ip tshark_field layers "ip.dst" "ipv6.dst") as [d|] eqn:Ed;
    destruct (has_key layers "arp_src_proto_ipv4"
              || has_key layers "arp_dst_proto_ipv4") eqn:Harp;
    cbn [negb andb orb truthy];
    try done;
    try (destruct (String.eqb s ""); cbn [negb andb orb]; try done);
    try (destruct (String.eqb d ""); cbn [negb andb orb]; try done);
    try (destruct (_ || _); try done);
    try rewrite CaptureFacts.add_packet_call_raises; try done;
    try (destruct (_ || _); try done).
Qed.

(** X4. A record one of whose addresses is in the false-positive set
    changes nothing in [connections], not even a time to live, and is
    reported as [False]. *)
Theorem false_positive_record_skipped (layers : layers_t)
    (db : gmap string connection) (ip : string) :
  ip <> "" -> ip ∈ false_positives ->
  extract_ip tshark_field layers "ip.src" "ipv6.src" = Some ip \/
  extract_ip tshark_field layers "ip.dst" "ipv6.dst" = Some ip ->
  process_packet_ek tshark_field false_positives now layers db = (db, false).
Proof.
  intros Hne Hin Hip.
  assert (Hfp : is_false_positive false_positives (Some ip) = true).
  { unfold is_false_positive, truthy. rewrite bool_decide_eq_true_2 by done.
    destruct (String.eqb_spec ip ""); done. }
  unfold process_packet_ek, process_packet_ek_body.
  destruct (bool_decide (layers = ∅)); [done|].
  destruct (negb _ && _); [done|].
  destruct (extract_ports _ _) as [sport dport].
  destruct Hip as [-> | ->]; rewrite Hfp; [done|].
  by rewrite orb_true_r.
Qed.

End Decode.

(** An ARP record without IP layer fields. *)
Lemma process_packet_ek_true_witness :
  let layers : layers_t := {[ "arp_src_proto_ipv4" := ["10.0.0.1"] ]} in
  (process_packet_ek full_registry ∅ 0 layers ∅).2 = true /\
  (process_packet_ek full_registry ∅ 0 layers ∅).1 = ∅.
Proof.
  intros layers. split; [by vm_compute|].
  apply (process_packet_ek_true full_registry ∅ 0 layers ∅). by vm_compute.
Defined.

Lemma false_positive_record_skipped_witness :
  process_packet_ek full_registry {[ "10.0.0.9" ]} 0
    (tcp_packet "10.0.0.5" "10.0.0.9" "51000" "443" "100") ∅ = (∅, false).
Proof.
  apply (false_positive_record_skipped full_registry {[ "10.0.0.9" ]} 0
           (tcp_packet "10.0.0.5" "10.0.0.9" "51000" "443" "100") ∅ "10.0.0.9").
  - done.
  - set_solver.
  - right. by vm_compute.
Defined.

End CaptureMoreFacts.

(* ===================================================================== *)
(** * Synchronization: what a pass keeps, mirrors and leaves out *)
(* ===================================================================== *)

Module SyncMoreFacts.
Import Sync SyncMore SyncFacts.

Section Store.
Context {K : Type} `{Countable K}.
Variable julian : Z -> option Z.
Implicit Types (rs sel dest : gmap K row) (an capture : gmap string (table K)).

(** The step for an existing table other than the ARP table, under any
    faults: some of the selected rows are written over the rows that are
    there. *)
Lemma table_step_rows (f : faults K) (name : string) (ct dt : table K) :
  name <> arp_table ->
  exists sel, sel ⊆ select_rows julian ct (Some dt) /\
    (table_step julian f name ct (Some dt)).1
    = Some (mkTable (tschema dt) (sel ∪ rows dt)).
Proof.
  intros Hn. unfold table_step. cbn [default from_option id].
  assert (Hid : Some dt = Some (mkTable (tschema dt) (∅ ∪ rows dt))).
  { rewrite (left_id_L ∅ (∪)). by destruct dt. }
  destruct (decide (table_fault f name = AtLookup));
    [exists ∅; split; [apply map_empty_subseteq|done]|].
  destruct (decide (table_fault f name = AtSelect));
    [exists ∅; split; [apply map_empty_subseteq|done]|].
  destruct (decide (name = arp_table)); [done|].
  destruct (negb _); [exists ∅; split; [apply map_empty_subseteq|done]|].
  destruct (decide (table_fault f name = AtFetch));
    [exists ∅; split; [apply map_empty_subseteq|done]|].
  match goal with
  | |- context [insert_rows ?g ?s ?d] =>
      pose proof (insert_rows_spec g s d) as Hins;
      destruct (insert_rows g s d) as [rs cnt]
  end.
  cbn [fst] in *. subst rs. eexists. split; [|done].
  apply map_filter_subseteq.
Qed.

Lemma rows_of_lookup an (name : string) (k : K) (r : row) :
  rows_of an name !! k = Some r ->
  exists t, an !! name = Some t /\ rows t !! k = Some r.
Proof.
  unfold rows_of. destruct (an !! name) as [t|]; [by exists t|].
  by rewrite lookup_empty.
Qed.

Lemma lookup_touch (enrich : list string -> list string) (name : string)
    (t : table K) (k : K) :
  row_ts <$> rows (touch enrich name t) !! k = row_ts <$> rows t !! k.
Proof.
  pose proof (stamps_touch enrich name t) as Hs.
  apply (f_equal (fun m => m !! k)) in Hs. unfold stamps in Hs.
  by rewrite !lookup_fmap in Hs.
Qed.

(** X5. A pass never deletes: under any faults, rolled back or not, a
    row of a table other than the ARP table is still there after the
    pass, a table of the analysis store is still there with its schema,
    and a row whose key the capture store does not have keeps its
    timestamp. *)
Theorem pass_keeps_rows (enrich : list string -> list string)
    (f : faults K) capture an (name : string) (k : K) (r : row) :
  name <> arp_table ->
  rows_of an name !! k = Some r ->
  let an' := (sync_databases julian enrich f capture an).1 in
  is_Some (rows_of an' name !! k) /\
  (tschema <$> an' !! name) = (tschema <$> an !! name) /\
  (rows_of capture name !! k = None ->
   row_ts <$> rows_of an' name !! k = Some (row_ts r)).
Proof.
  intros Hn Hr an'.
  destruct (rows_of_lookup _ _ _ _ Hr) as (dt & Hdt & Hk).
  destruct (enumerate_fails f) eqn:He.
  { subst an'. unfold sync_databases. rewrite He. cbn [fst].
    rewrite Hr. split; [eauto|]. split; [done|]. done. }
  destruct (commit_fails f) eqn:Hc.
  { subst an'. unfold sync_databases. rewrite He, Hc.
    destruct (sync_tables julian f capture an) as [an1 n1].
    destruct (resolve_domain_names enrich an1). cbn [fst].
    rewrite Hr. split; [eauto|]. split; [done|]. done. }
  assert (Han' : an' !! name
                 = touch enrich name <$>
                     match capture !! name with
                     | Some ct => (table_step julian f name ct (an !! name)).1
                     | None => an !! name
                     end).
  { subst an'. by rewrite pass_lookup. }
  clearbody an'. unfold rows_of. rewrite Han', Hdt.
  destruct (capture !! name) as [ct|] eqn:Ect.
  - destruct (table_step_rows f name ct dt Hn) as (sel & Hsel & ->).
    cbn [fmap option_fmap option_map]. rewrite tschema_touch. cbn [tschema].
    assert (Hu : forall r0, (sel ∪ rows dt) !! k = Some r0 ->
                 is_Some (rows (touch enrich name
                                  (mkTable (tschema dt) (sel ∪ rows dt))) !! k)).
    { intros r0 Hr0. apply elem_of_dom. rewrite dom_touch. cbn [rows].
      apply elem_of_dom. eauto. }
    split.
    + destruct (sel !! k) as [r0|] eqn:E.
      * apply (Hu r0). by apply lookup_union_Some_raw; left.
      * apply (Hu r). by apply lookup_union_Some_raw; right.
    + split; [done|]. intros Hcap. rewrite lookup_touch. cbn [rows].
      assert (Hs : sel !! k = None).
      { destruct (sel !! k) as [r0|] eqn:E; [|done].
        assert (Hct : rows ct !! k = Some r0).
        { eapply lookup_weaken; [|apply select_rows_subseteq].
          eapply lookup_weaken; [exact E|exact Hsel]. }
        congruence. }
      rewrite lookup_union_r by done. by rewrite Hk.
  - cbn [fmap option_fmap option_map]. rewrite tschema_touch.
    split.
    + apply elem_of_dom. rewrite dom_touch. apply elem_of_dom. eauto.
    + split; [done|]. intros _. rewrite lookup_touch. by rewrite Hk.
Qed.

(** X6. The ARP table is a mirror: after a fault-free pass it holds
    exactly the rows of the capture store's ARP table, whatever it held
    before.  When the rows cannot be fetched after the [DELETE], the
    handler of the table catches the failure and the pass commits an
    empty ARP table. *)
Theorem arp_table_mirror (enrich : list string -> list string)
    capture an (ct : table K) :
  capture !! arp_table = Some ct ->
  rows_of (sync_databases julian enrich no_faults capture an).1 arp_table = rows ct /\
  (forall (f : faults K) (dt : table K),
     enumerate_fails f = false -> commit_fails f = false ->
     table_fault f arp_table = AtFetch ->
     an !! arp_table = Some dt ->
     rows_of (sync_databases julian enrich f capture an).1 arp_table = ∅).
Proof.
  intros Hct. split.
  - unfold rows_of. rewrite pass_lookup_no_faults, Hct, table_step_no_faults.
    cbn [fmap option_fmap option_map]. unfold touch.
    destruct (decide (arp_table = tls_table)); [done|].
    by destruct (decide (arp_table = arp_table)).
  - intros f dt He Hc Hf Hdt. unfold rows_of.
    rewrite pass_lookup, Hct, Hdt by done. unfold table_step. rewrite Hf.
    destruct (decide (AtFetch = AtLookup)); [done|].
    destruct (decide (AtFetch = AtSelect)); [done|].
    destruct (decide (arp_table = arp_table)); [|done].
    destruct (decide (AtFetch = AtFetch)); [|done].
    destruct (decide (arp_table = tls_table)); [done|].
    by rewrite bool_decide_eq_true_2 by eauto.
Qed.

(** X7. Whether a table exists decides what is copied.  For a capture
    table with a timestamp column (other than the ARP table), a
    fault-free pass copies every row, also those without a timestamp,
    when the analysis store lacks the table.  When the table exists and
    is empty it copies, for a column declared with one of the numeric
    types, the rows stamped above the number 0 (by a greater number or
    by a date text), and for a column declared otherwise only the rows
    stamped by a date text after [1970-01-01 00:00:00].  Under any
    faults, a row without a timestamp never enters an existing table,
    and neither does a row stamped with a number when the column is not
    declared with one of the numeric types. *)
Theorem new_table_or_empty_table (enrich : list string -> list string)
    capture an (name : string) (ct : table K) :
  name <> arp_table ->
  capture !! name = Some ct ->
  columns_ok (tschema ct) = true ->
  has_timestamp (tschema ct) = true ->
  (an !! name = None ->
   (sync_databases julian enrich no_faults capture an).1 !! name
   = Some (touch enrich name (mkTable (tschema ct) (rows ct)))) /\
  (forall sch, an !! name = Some (mkTable sch ∅) ->
   (sync_databases julian enrich no_faults capture an).1 !! name
   = Some (touch enrich name
             (mkTable sch
                (newer_than
                   (Some (if numeric_ts (tschema ct) then Num 0 else epoch))
                   (rows ct))))) /\
  (forall (f : faults K) (dt : table K) (k : K) (r : row),
     an !! name = Some dt -> rows dt !! k = None ->
     rows ct !! k = Some r ->
     row_ts r = None \/
     (numeric_ts (tschema ct) = false /\ exists v, row_ts r = Some (Num v)) ->
     rows_of (sync_databases julian enrich f capture an).1 name !! k = None).
Proof.
  intros Hn Hct Hcols Hts. split; [|split].
  - intros Han. rewrite pass_lookup_no_faults, Hct, table_step_no_faults, Han.
    cbn [fmap option_fmap option_map default from_option id tschema rows].
    destruct (decide (name = arp_table)); [done|]. rewrite Hcols.
    cbn [select_rows]. by rewrite (right_id_L ∅ (∪)).
  - intros sch Han.
    rewrite pass_lookup_no_faults, Hct, table_step_no_faults, Han.
    cbn [fmap option_fmap option_map default from_option id tschema rows].
    destruct (decide (name = arp_table)); [done|]. rewrite Hcols.
    rewrite select_rows_cutoff, Hts, (right_id_L ∅ (∪)).
    unfold cutoff, max_ts. cbn [rows]. rewrite map_fold_empty.
    by destruct (numeric_ts (tschema ct)).
  - intros f dt k r Han Hk Hr Hstamp.
    destruct (enumerate_fails f) eqn:He.
    { unfold sync_databases. rewrite He. cbn [fst]. unfold rows_of.
      by rewrite Han. }
    destruct (commit_fails f) eqn:Hc.
    { unfold sync_databases. rewrite He, Hc.
      destruct (sync_tables julian f capture an) as [an1 n1].
      destruct (resolve_domain_names enrich an1). cbn [fst]. unfold rows_of.
      by rewrite Han. }
    unfold rows_of. rewrite pass_lookup, Hct, Han by done.
    destruct (table_step_rows f name ct dt Hn) as (sel & Hsel & ->).
    cbn [fmap option_fmap option_map].
    change (rows (touch enrich name (mkTable (tschema dt) (sel ∪ rows dt))) !! k
            = None).
    apply not_elem_of_dom. rewrite dom_touch. cbn [rows].
    apply not_elem_of_dom. apply lookup_union_None. split; [|done].
    destruct (sel !! k) as [r0|] eqn:E; [|done].
    assert (Hsel0 : select_rows julian ct (Some dt) !! k = Some r0)
      by (eapply lookup_weaken; [exact E|exact Hsel]).
    rewrite select_rows_cutoff, Hts in Hsel0.
    apply lookup_newer_than in Hsel0 as [Hk0 (c0 & t & Hc0 & Ht & Hlt)].
    assert (r0 = r) as -> by congruence.
    destruct Hstamp as [Hnull|(Hnum & v & Hv)]; [congruence|].
    assert (t = Num v) as -> by congruence.
    rewrite Hnum in Hc0. apply cutoff_date in Hc0.
    by rewrite (sql_lt_date_num c0 v Hc0) in Hlt.
Qed.

(** X8. A table that the capture store does not have is outside the
    pass: under any faults, rolled back or not, it is the table it was;
    only the TLS table can differ, by the enrichment of its rows. *)
Theorem pass_leaves_other_tables (enrich : list string -> list string)
    (f : faults K) capture an (name : string) :
  capture !! name = None ->
  name <> tls_table ->
  (sync_databases julian enrich f capture an).1 !! name = an !! name.
Proof.
  intros Hcap Hn.
  destruct (enumerate_fails f) eqn:He.
  { unfold sync_databases. by rewrite He. }
  destruct (commit_fails f) eqn:Hc.
  { unfold sync_databases. rewrite He, Hc.
    destruct (sync_tables julian f capture an) as [an1 n1].
    by destruct (resolve_domain_names enrich an1). }
  rewrite pass_lookup, Hcap by done.
  destruct (decide (name = tls_table)); [done|]. by destruct (an !! name).
Qed.

End Store.

Lemma pass_keeps_rows_witness :
  is_Some (rows_of (sync_databases no_julian_date id all_rows_fault sample_capture
                      sample_analysis).1 "alerts" !! 1).
Proof.
  apply (pass_keeps_rows (K:=Z) no_julian_date id all_rows_fault sample_capture
           sample_analysis "alerts" 1 (mkRow (Some (Num 5)) ["10.0.0.5"])).
  - discriminate.
  - reflexivity.
Defined.

Lemma arp_table_mirror_witness :
  rows_of (sync_databases no_julian_date id no_faults sample_capture sample_analysis).1
          arp_table = packet_rows /\
  rows_of (sync_databases no_julian_date id arp_fetch_fault sample_capture sample_analysis).1
          arp_table = ∅.
Proof.
  destruct (arp_table_mirror (K:=Z) no_julian_date id sample_capture sample_analysis
              (mkTable sample_schema packet_rows) eq_refl) as [H1 H2].
  split; [exact H1|].
  apply (H2 arp_fetch_fault
            (mkTable sample_schema
               {[ 1 := mkRow (Some (Num 5)) ["10.0.0.5"];
                  3 := mkRow (Some (Num 7)) ["10.0.0.7"] ]}));
    reflexivity.
Defined.

(** A table declared [REAL] and a table declared [TIMESTAMP], each with
    a row stamped 5, a row stamped 0 and a row without a timestamp; the
    second has a row stamped by [CURRENT_TIMESTAMP] as well. *)
Lemma new_table_or_empty_table_witness :
  (sync_databases no_julian_date id no_faults mixed_capture ∅).1 !! "alerts"
  = Some (mkTable sample_schema mixed_rows) /\
  (sync_databases no_julian_date id no_faults mixed_capture
                  empty_analysis).1 !! "alerts"
  = Some (mkTable sample_schema
                  {[ 1 := mkRow (Some (Num 5)) ["10.0.0.5"] ]}) /\
  (sync_databases no_julian_date id no_faults mixed_dated_capture
                  empty_dated_analysis).1 !! "alerts"
  = Some (mkTable timestamp_schema
                  {[ 4 := mkRow (Some (Date 1700000005)) ["10.0.0.8"] ]}).
Proof.
  split; [|split].
  - apply (proj1 (new_table_or_empty_table (K:=Z) no_julian_date id
             mixed_capture ∅ "alerts"
             (mkTable sample_schema mixed_rows) ltac:(discriminate)
             eq_refl eq_refl eq_refl)).
    reflexivity.
  - rewrite (proj1 (proj2 (new_table_or_empty_table (K:=Z) no_julian_date id
               mixed_capture empty_analysis "alerts"
               (mkTable sample_schema mixed_rows) ltac:(discriminate)
               eq_refl eq_refl eq_refl)) sample_schema eq_refl).
    by vm_compute.
  - rewrite (proj1 (proj2 (new_table_or_empty_table (K:=Z) no_julian_date id
               mixed_dated_capture empty_dated_analysis "alerts"
               (mkTable timestamp_schema mixed_dated_rows) ltac:(discriminate)
               eq_refl eq_refl eq_refl)) timestamp_schema eq_refl).
    by vm_compute.
Defined.

Lemma pass_leaves_other_tables_witness :
  (sync_databases no_julian_date id all_rows_fault mixed_capture sample_analysis).1 !! "arp_data"
  = sample_analysis !! "arp_data".
Proof.
  apply (pass_leaves_other_tables (K:=Z) no_julian_date id all_rows_fault mixed_capture
           sample_analysis "arp_data").
  - reflexivity.
  - discriminate.
Defined.

End SyncMoreFacts.

(* ===================================================================== *)
(** * Connection keys as the decoder writes them, and their other readers *)
(* ===================================================================== *)

Module KeyMoreFacts.
Import PyStr ConnKey Capture KeyMore PyStrFacts PyStrMoreFacts ConnKeyFacts.

(** The decoder's key with both ports, cut at the arrow. *)
Lemma packet_key_ports (s d : string) (sp dp : Z) :
  packet_key s d (Some sp) (Some dp)
  = (s +:+ ":" +:+ str_int sp) +:+ "->" +:+ (d +:+ ":" +:+ str_int dp).
Proof. unfold packet_key. by rewrite !append_assoc. Qed.

Lemma plain_endpoint_no_gt (ip : string) (n : Z) :
  contains ">" ip = false -> contains ">" (ip +:+ ":" +:+ str_int n) = false.
Proof.
  intros Hip. change (":" +:+ str_int n) with (String ":" (str_int n)).
  rewrite contains_char_app, contains_char_cons, Hip.
  by rewrite str_int_no_char.
Qed.

Lemma create_connection_key_text (s d : string) (sp dp : Z) :
  create_connection_key s d sp dp = key_text s d (str_int sp) (str_int dp).
Proof. reflexivity. Qed.

Lemma split_arrow_packet_key (s d : string) (sp dp : Z) :
  ip_ok s -> ip_ok d ->
  split "->" (packet_key s d (Some sp) (Some dp))
  = [s +:+ ":" +:+ str_int sp; d +:+ ":" +:+ str_int dp].
Proof.
  intros (Hs & _) (Hd & _). rewrite packet_key_ports.
  apply split_arrow_app; by apply plain_endpoint_no_gt.
Qed.

Lemma split_arrow_create (s d : string) (sp dp : Z) :
  ip_ok s -> ip_ok d ->
  split "->" (create_connection_key s d sp dp)
  = [endpoint s (str_int sp); endpoint d (str_int dp)].
Proof.
  intros Hs Hd.
  change (create_connection_key s d sp dp)
    with (endpoint s (str_int sp) +:+ "->" +:+ endpoint d (str_int dp)).
  apply split_arrow_app; apply endpoint_no_gt;
    done || apply str_int_port_text_ok.
Qed.

Lemma parse_packet_key (s d : string) (sp dp : Z) :
  ip_ok s -> ip_ok d ->
  parse_connection_key (packet_key s d (Some sp) (Some dp))
  = (Some s, Some d, Some sp, Some dp).
Proof.
  intros Hs Hd. unfold parse_connection_key, parse_connection_key_body.
  rewrite split_arrow_packet_key by done. cbn [unpack2 mbind res_bind].
  destruct Hs as (_ & Hsl & _), Hd as (_ & Hdl & _).
  rewrite !parse_part_plain by (done || by apply str_int_no_char).
  cbn [mbind res_bind]. rewrite !py_int_str_int. reflexivity.
Qed.

Lemma parse_create_key (s d : string) (sp dp : Z) :
  ip_ok s -> ip_ok d ->
  parse_connection_key (create_connection_key s d sp dp)
  = (Some s, Some d, Some sp, Some dp).
Proof.
  intros Hs Hd. unfold parse_connection_key.
  rewrite create_connection_key_text.
  rewrite parse_body_key_text by (done || apply str_int_port_text_ok).
  rewrite !py_int_str_int. reflexivity.
Qed.

(** X9. The keys that [process_packet_ek] writes: with both ports the
    key is read back by [parse_connection_key] as the quadruple it was
    built from, for addresses of either family (the decoder never
    brackets an address); without ports, between addresses that hold no
    colon, it is read as the all-[None] sentinel.  The decoder's key is
    the key of [create_connection_key] exactly when no address holds a
    colon: for an IPv6 source the two differ. *)
Theorem decoder_key_parse (s d : string) (sp dp : Z) :
  ip_ok s -> ip_ok d ->
  parse_connection_key (packet_key s d (Some sp) (Some dp))
  = (Some s, Some d, Some sp, Some dp) /\
  (contains ":" s = false ->
   parse_connection_key (packet_key s d None (Some dp)) = sentinel /\
   parse_connection_key (packet_key s d (Some sp) None) = sentinel /\
   parse_connection_key (packet_key s d None None) = sentinel) /\
  (contains ":" s = false -> contains ":" d = false ->
   packet_key s d (Some sp) (Some dp) = create_connection_key s d sp dp) /\
  (contains ":" s = true ->
   packet_key s d (Some sp) (Some dp) <> create_connection_key s d sp dp).
Proof.
  intros Hs Hd. split; [|split; [|split]].
  - by apply parse_packet_key.
  - intros Hc.
    assert (Hsent : parse_connection_key (s +:+ "->" +:+ d) = sentinel).
    { unfold parse_connection_key, parse_connection_key_body.
      destruct Hs as (Hsg & Hsl & _), Hd as (Hdg & _).
      rewrite split_arrow_app by done. cbn [unpack2 mbind res_bind].
      unfold parse_part. rewrite Hsl. cbn [andb].
      unfold rsplit1. rewrite (rcut_none ":" s Hc). reflexivity. }
    done.
  - intros Hcs Hcd. rewrite packet_key_ports.
    unfold create_connection_key. by rewrite Hcs, Hcd.
  - intros Hcs. unfold packet_key, create_connection_key. rewrite Hcs.
    destruct Hs as (_ & Hsl & _).
    destruct s as [|x s]; [done|].
    rewrite contains_char_cons in Hsl. apply orb_false_elim in Hsl as [Hx _].
    intros Heq. injection Heq as Heq _. subst x. done.
Qed.

Lemma decoder_key_parse_witness :
  parse_connection_key (packet_key "fe80::1" "10.0.0.9" (Some 51000) (Some 443))
  = (Some "fe80::1", Some "10.0.0.9", Some 51000, Some 443) /\
  packet_key "fe80::1" "10.0.0.9" (Some 51000) (Some 443)
  <> create_connection_key "fe80::1" "10.0.0.9" 51000 443.
Proof.
  assert (H1 : ip_ok "fe80::1") by (by vm_compute).
  assert (H2 : ip_ok "10.0.0.9") by (by vm_compute).
  destruct (decoder_key_parse "fe80::1" "10.0.0.9" 51000 443 H1 H2)
    as (Ha & _ & _ & Hb).
  split; [exact Ha|]. apply Hb. reflexivity.
Defined.

(** X10. The destination that [resolve_domain_names] looks up,
    [connection_key.split('->')[1].split(':')[0]]: a key without an
    arrow raises [IndexError] and the row is skipped; for a key of
    either layout whose destination holds no colon it is the
    destination; for a destination that holds a colon (IPv6) it is a
    text without colon, so never the destination. *)
Theorem key_dst_ip_cases :
  (forall key (g : string -> option string) (name : option string),
     contains "->" key = false ->
     key_dst_ip key = Raise IndexError /\ resolve_row g name key = None) /\
  (forall (s d : string) (sp dp : Z),
     ip_ok s -> ip_ok d -> contains ":" d = false ->
     key_dst_ip (create_connection_key s d sp dp) = Ok d /\
     key_dst_ip (packet_key s d (Some sp) (Some dp)) = Ok d) /\
  (forall (s d : string) (sp dp : Z),
     ip_ok s -> ip_ok d -> contains ":" d = true ->
     exists r r',
       key_dst_ip (create_connection_key s d sp dp) = Ok r /\
       key_dst_ip (packet_key s d (Some sp) (Some dp)) = Ok r' /\
       contains ":" r = false /\ contains ":" r' = false /\
       r <> d /\ r' <> d).
Proof.
  split; [|split].
  - intros key g name Hk.
    assert (Hr : key_dst_ip key = Raise IndexError)
      by (unfold key_dst_ip; by rewrite split_none).
    split; [done|]. unfold resolve_row. by rewrite Hr.
  - intros s d sp dp Hs Hd Hc. unfold key_dst_ip. split.
    + rewrite split_arrow_create by done. cbn [index lookup list_lookup mbind res_bind].
      unfold endpoint. rewrite Hc.
      change (":" +:+ str_int dp) with (String ":" (str_int dp)).
      by rewrite split_char_app.
    + rewrite split_arrow_packet_key by done.
      cbn [index lookup list_lookup mbind res_bind].
      change (":" +:+ str_int dp) with (String ":" (str_int dp)).
      by rewrite split_char_app.
  - intros s d sp dp Hs Hd Hc. unfold key_dst_ip.
    rewrite split_arrow_create, split_arrow_packet_key by done.
    cbn [index lookup list_lookup mbind res_bind].
    destruct (split_char_head ":" (endpoint d (str_int dp))) as (r & t & -> & Hr).
    destruct (split_char_head ":" (d +:+ ":" +:+ str_int dp))
      as (r' & t' & -> & Hr').
    exists r, r'. cbn [lookup list_lookup].
    split; [done|]. split; [done|]. split; [done|]. split; [done|].
    split; intros ->; congruence.
Qed.

Lemma key_dst_ip_cases_witness :
  key_dst_ip "no arrow here" = Raise IndexError /\
  key_dst_ip (create_connection_key "10.0.0.5" "10.0.0.9" 51000 443)
  = Ok "10.0.0.9" /\
  exists r, key_dst_ip (create_connection_key "10.0.0.5" "2001:db8::1" 51000 443)
            = Ok r /\ r <> "2001:db8::1".
Proof.
  destruct key_dst_ip_cases as (H1 & H2 & H3).
  split; [|split].
  - apply (H1 "no arrow here" (fun _ => None) None). reflexivity.
  - apply (H2 "10.0.0.5" "10.0.0.9" 51000 443); by vm_compute.
  - destruct (H3 "10.0.0.5" "2001:db8::1" 51000 443) as (r & r' & Hr & _ & _ & _ & Hne & _);
      [by vm_compute|by vm_compute|reflexivity|].
    exists r. split; [exact Hr|exact Hne].
Defined.

(** The parts of the text of a dotted quad. *)
Lemma split_dotted_quad (a b c d : Z) :
  split "." (dotted_quad a b c d) = [str_int a; str_int b; str_int c; str_int d].
Proof.
  unfold dotted_quad.
  change ("." +:+ str_int b +:+ "." +:+ str_int c +:+ "." +:+ str_int d)
    with (String "." (str_int b +:+ String "." (str_int c +:+ String "." (str_int d)))).
  rewrite !split_char_app by (by apply str_int_no_char).
  by rewrite split_char_none by (by apply str_int_no_char).
Qed.

Lemma str_int_nonempty (n : Z) : str_int n <> "".
Proof.
  intros Hn. pose proof (py_int_str_int n) as Hp. rewrite Hn in Hp. done.
Qed.

(** X11. [_is_ip_address] accepts the text of a dotted quad of integers
    exactly when each of the four is in 0..255, and accepts no text that
    does not split at its dots into exactly four parts. *)
Theorem is_ip_address_quads :
  (forall a b c d : Z,
     _is_ip_address (dotted_quad a b c d) = true <->
     (0 <= a <= 255) /\ (0 <= b <= 255) /\ (0 <= c <= 255) /\ (0 <= d <= 255)) /\
  (forall value : string,
     _is_ip_address value = true -> length (split "." value) = 4%nat).
Proof.
  split.
  - intros a b c d. unfold _is_ip_address.
    assert (Hne : dotted_quad a b c d <> "").
    { unfold dotted_quad. pose proof (str_int_nonempty a).
      by destruct (str_int a). }
    apply String.eqb_neq in Hne. rewrite Hne, split_dotted_quad.
    cbn [length Nat.eqb negb all_octets mbind res_bind].
    rewrite !py_int_str_int. cbn [mbind res_bind].
    destruct (Z.leb_spec 0 a), (Z.leb_spec a 255), (Z.leb_spec 0 b),
             (Z.leb_spec b 255), (Z.leb_spec 0 c), (Z.leb_spec c 255),
             (Z.leb_spec 0 d), (Z.leb_spec d 255);
      cbn [andb try_except try_except_all];
      (split; [done || lia | done || lia]).
  - intros value. unfold _is_ip_address.
    destruct (String.eqb value ""); [done|].
    destruct (Nat.eqb_spec (length (split "." value)) 4); done.
Qed.

(** How the parser inside [add_app_protocol] reads the two key layouts. *)
Lemma auto_fields_parts (s d : string) (sp dp : Z) :
  ip_ok s -> ip_ok d ->
  auto_fields (packet_key s d (Some sp) (Some dp)) = Some (s, d, sp, dp) /\
  (contains ":" s = true -> contains ":" d = false ->
   auto_fields (create_connection_key s d sp dp)
   = Some ("[" +:+ s +:+ "]", d, sp, dp)) /\
  (contains ":" s = false -> auto_fields (packet_key s d None None) = None).
Proof.
  intros Hs Hd.
  assert (Hparts : forall h n,
            let parts := split ":" (h +:+ ":" +:+ str_int n) in
            (2 <=? length parts)%nat = true /\
            join ":" (removelast parts) = h /\
            index_last parts = Ok (str_int n)).
  { intros h n parts. subst parts.
    change (":" +:+ str_int n) with (String ":" (str_int n)).
    rewrite split_char_snoc by (by apply str_int_no_char).
    rewrite removelast_snoc, join_split. unfold index_last.
    rewrite last_snoc. split; [|done].
    pose proof (split_nonempty ":" 0 h) as Hne. fold (split ":" h) in Hne.
    destruct (split ":" h); [done|]. apply Nat.leb_le.
    rewrite List.length_app. cbn [length]. lia. }
  split; [|split].
  - unfold auto_fields. rewrite split_arrow_packet_key by done.
    destruct (Hparts s sp) as (-> & -> & ->).
    destruct (Hparts d dp) as (-> & -> & ->).
    cbn [andb mbind res_bind]. by rewrite !py_int_str_int.
  - intros Hcs Hcd. unfold auto_fields. rewrite split_arrow_create by done.
    unfold endpoint. rewrite Hcs, Hcd.
    replace ("[" +:+ s +:+ "]:" +:+ str_int sp)
      with (("[" +:+ s +:+ "]") +:+ ":" +:+ str_int sp).
    2:{ change (String "[" ((s +:+ "]") +:+ String ":" (str_int sp))
                = String "[" (s +:+ String "]" (String ":" (str_int sp)))).
        by rewrite append_assoc. }
    destruct (Hparts ("[" +:+ s +:+ "]") sp) as (-> & -> & ->).
    destruct (Hparts d dp) as (-> & -> & ->).
    cbn [andb mbind res_bind]. by rewrite !py_int_str_int.
  - intros Hcs. unfold auto_fields, packet_key.
    destruct Hs as (Hsg & _), Hd as (Hdg & _).
    rewrite split_arrow_app by done. by rewrite (split_char_none ":" s).
Qed.

Lemma is_ip_address_quads_witness :
  _is_ip_address (dotted_quad 10 0 0 255) = true /\
  length (split "." "10.0.0.255") = 4%nat.
Proof.
  destruct is_ip_address_quads as [H1 H2]. split.
  - apply H1. lia.
  - apply H2. by vm_compute.
Defined.

(** X12. The key parser inside [add_app_protocol] against
    [parse_connection_key]: on a key of the decoder with both ports the
    two agree, for addresses of either family; on a key of
    [create_connection_key] with a bracketed (IPv6) source the parser of
    [add_app_protocol] keeps the brackets in the address where
    [parse_connection_key] removes them; a key without ports between
    addresses that hold no colon is refused. *)
Theorem auto_fields_layouts (s d : string) (sp dp : Z) :
  ip_ok s -> ip_ok d ->
  auto_fields (packet_key s d (Some sp) (Some dp)) = Some (s, d, sp, dp) /\
  parse_connection_key (packet_key s d (Some sp) (Some dp))
  = (Some s, Some d, Some sp, Some dp) /\
  (contains ":" s = true -> contains ":" d = false ->
   auto_fields (create_connection_key s d sp dp)
   = Some ("[" +:+ s +:+ "]", d, sp, dp) /\
   parse_connection_key (create_connection_key s d sp dp)
   = (Some s, Some d, Some sp, Some dp)) /\
  (contains ":" s = false -> auto_fields (packet_key s d None None) = None).
Proof.
  intros Hs Hd. destruct (auto_fields_parts s d sp dp Hs Hd) as (H1 & H2 & H3).
  split; [exact H1|]. split; [by apply parse_packet_key|].
  split; [|exact H3].
  intros Hcs Hcd. split; [by apply H2|]. by apply parse_create_key.
Qed.

Lemma auto_fields_layouts_witness :
  auto_fields (packet_key "fe80::1" "10.0.0.9" (Some 51000) (Some 443))
  = Some ("fe80::1", "10.0.0.9", 51000, 443) /\
  auto_fields (create_connection_key "fe80::1" "10.0.0.9" 51000 443)
  = Some ("[fe80::1]", "10.0.0.9", 51000, 443).
Proof.
  assert (H1 : ip_ok "fe80::1") by (by vm_compute).
  assert (H2 : ip_ok "10.0.0.9") by (by vm_compute).
  destruct (auto_fields_layouts "fe80::1" "10.0.0.9" 51000 443 H1 H2)
    as (Ha & _ & Hb & _).
  split; [exact Ha|]. apply Hb; reflexivity.
Defined.



End KeyMoreFacts.

(* ===================================================================== *)
(** * The alert table: transactions, the writer, the operator's actions *)
(* ===================================================================== *)

Module AlertStoreFacts.
Import Alerts AlertStore AlertsFacts.

Section Connection.
Context {S A : Type}.
Implicit Types (c : conn S) (body : S -> S * res A).

(** X14. A [TransactionContext] entered outside a transaction is
    atomic: when the body ends normally its statements are committed,
    when it raises they are all undone, the exception goes on to the
    caller, and either way no transaction is left open. *)
Theorem transaction_commit_or_rollback c body :
  in_transaction c = false ->
  working c = committed c ->
  let c' := (with_transaction body c).1 in
  (with_transaction body c).2 = (body (working c)).2 /\
  in_transaction c' = false /\
  working c' = committed c' /\
  committed c'
  = match (body (working c)).2 with
    | Ok _ => (body (working c)).1
    | Raise _ => committed c
    end.
Proof.
  intros Hin Hw. unfold with_transaction, enter, begin_transaction.
  rewrite Hin. cbn [working committed in_transaction].
  destruct (body (working c)) as [w [a|e]]; cbn; done.
Qed.

(** X15. A [TransactionContext] entered while a transaction is open
    neither commits nor rolls back: the transaction stays open, nothing
    is committed, and the statements of the body stay pending even when
    the body raised.  A later rollback of the open transaction discards
    them although the body ended normally; a later commit makes them
    permanent although the body raised. *)
Theorem transaction_reuse c body :
  in_transaction c = true ->
  let c' := (with_transaction body c).1 in
  (with_transaction body c).2 = (body (working c)).2 /\
  in_transaction c' = true /\
  committed c' = committed c /\
  working c' = (body (working c)).1 /\
  committed (rollback c') = committed c /\
  committed (commit c') = (body (working c)).1.
Proof.
  intros Hin. unfold with_transaction, enter, begin_transaction.
  rewrite Hin. destruct (body (working c)) as [w [a|e]]; cbn; by rewrite ?Hin.
Qed.

End Connection.

Lemma process_alert_item_idle (c : conn (list alert_row))
    (job : alert_row * bool) :
  in_transaction c = false -> working c = committed c ->
  process_alert_item c job
  = mkConnection (committed c ++ inserted [job]) (committed c ++ inserted [job])
                 false.
Proof.
  intros Hin Hw. unfold process_alert_item, with_transaction, enter,
    begin_transaction, insert_alert, inserted.
  rewrite Hin, Hw. destruct job as [item [|]]; cbn.
  - by rewrite app_nil_r.
  - done.
Qed.

Lemma inserted_app (a b : list (alert_row * bool)) :
  inserted (a ++ b) = inserted a ++ inserted b.
Proof. unfold inserted. by rewrite filter_app, fmap_app. Qed.

Lemma process_alerts_idle (jobs : list (alert_row * bool))
    (c : conn (list alert_row)) :
  in_transaction c = false -> working c = committed c ->
  _process_alerts jobs c
  = mkConnection (committed c ++ inserted jobs) (committed c ++ inserted jobs)
                 false.
Proof.
  unfold _process_alerts. revert c.
  induction jobs as [|job jobs IH]; intros c Hin Hw.
  - unfold inserted. cbn. rewrite app_nil_r. destruct c; cbn in *. by subst.
  - cbn [foldl].
    rewrite process_alert_item_idle by done. rewrite IH by done.
    cbn [committed]. change (job :: jobs) with ([job] ++ jobs).
    by rewrite inserted_app, app_assoc.
Qed.

Lemma inserted_sublist (jobs : list (alert_row * bool)) :
  sublist (inserted jobs) jobs.*1.
Proof.
  unfold inserted. apply fmap_sublist, sublist_filter.
Qed.

Lemma inserted_all (jobs : list (alert_row * bool)) :
  Forall (fun job => job.2 = false) jobs -> inserted jobs = jobs.*1.
Proof.
  unfold inserted. induction 1 as [|job jobs Hjob _ IH]; [done|].
  rewrite filter_cons_True by done. cbn [fmap list_fmap]. by rewrite <- IH.
Qed.

(** X16. The alert writer is first in, first out and isolates
    failures: on a connection with no open transaction, after the items
    of the queue are processed the alert table holds, after the rows it
    had, one row for every item whose insert did not fail, in queue
    order, committed; an item whose insert fails leaves no row and does
    not disturb the others. *)
Theorem alert_writer_fifo (jobs : list (alert_row * bool))
    (c : conn (list alert_row)) :
  in_transaction c = false ->
  working c = committed c ->
  let c' := _process_alerts jobs c in
  committed c' = committed c ++ inserted jobs /\
  working c' = committed c' /\
  in_transaction c' = false /\
  (Forall (fun job => job.2 = false) jobs ->
   committed c' = committed c ++ jobs.*1).
Proof.
  intros Hin Hw c'. subst c'. rewrite process_alerts_idle by done.
  cbn [committed working in_transaction]. split; [done|]. split; [done|].
  split; [done|]. intros Hall. by rewrite inserted_all.
Qed.

(** X17. From pipeline to table: whatever the rules return, whenever
    addresses are marked, whatever the engine's [add_alert] is given and
    whichever inserts fail, writing the alert queue of a run from
    process start into an empty alert table gives a table in which no
    [(ip_address, alert_message)] pair occurs twice. *)
Theorem persisted_alerts_unique (fp : gset string) (trace : list producer)
    (jobs : list (alert_row * bool)) :
  jobs.*1 = alert_queue (run_all trace (start fp)) ->
  NoDup (queued_pair <$> committed (_process_alerts jobs empty_table)).
Proof.
  intros Hjobs. rewrite process_alerts_idle by done.
  cbn [committed empty_table app].
  pose proof (run_all_inv trace (start fp) (dedup_inv_start fp)) as Hinv.
  eapply sublist_NoDup; [exact (inv_queue_nodup _ Hinv)|].
  apply fmap_sublist. rewrite <- Hjobs. apply inserted_sublist.
Qed.

(** X18. [clear_alerts] forgets what was recorded: the next alert
    attributed to an address that is not a false positive is queued
    again, so a pair that was queued before the clearing is then on the
    queue twice. *)
Theorem clear_alerts_requeues (rule alert ip : string) (st : state) :
  malicious_ip_of alert = Some ip ->
  ip ∉ false_positives st ->
  let st' := process_alert rule alert (clear_alerts st) in
  alert_queue st' = alert_queue st ++ [(ip, alert, rule)] /\
  ((ip, alert) ∈ (queued_pair <$> alert_queue st) ->
   ~ NoDup (queued_pair <$> alert_queue st')).
Proof.
  intros Hip Hfp st'.
  destruct (process_alert_first rule alert ip (clear_alerts st) Hip Hfp)
    as [_ Hq].
  { intros (v & Hv & _). cbn in Hv. by rewrite lookup_empty in Hv. }
  subst st'. split; [exact Hq|]. intros Hin. rewrite Hq.
  cbn [clear_alerts alert_queue]. rewrite fmap_app. cbn [fmap list_fmap queued_pair].
  intros [_ [Hno _]]%NoDup_app. apply (Hno _ Hin).
  by apply list_elem_of_singleton.
Qed.

(** X19. [remove_false_positive] undoes [mark_as_false_positive]: the
    address is out of the set again, and since nothing is recorded for
    an address while it is suppressed, the next alert attributed to it
    that was not recorded before is queued. *)
Theorem remove_false_positive_resumes (rule alert X : string) (st : state) :
  malicious_ip_of alert = Some X ->
  ~ recorded (alerts_by_ip st) X alert ->
  let st1 := mark_as_false_positive X st in
  let st2 := remove_false_positive X
               (process_alert rule alert st1) in
  alert_queue (process_alert rule alert st1) = alert_queue st /\
  ~ recorded (alerts_by_ip (process_alert rule alert st1)) X alert /\
  (X ∉ false_positives st2) /\
  alert_queue (process_alert rule alert st2)
  = alert_queue st ++ [(X, alert, rule)].
Proof.
  intros Hip Hnew st1 st2.
  pose proof (malicious_ip_truthy _ _ Hip) as Ht.
  assert (HX : X <> "").
  { intros ->. done. }
  assert (Hst1 : st1 = mkState ({[X]} ∪ false_positives st) (alerts_by_ip st)
                               (alert_queue st) (notified st) (shown st)).
  { subst st1. unfold mark_as_false_positive.
    destruct (String.eqb_spec X ""); done. }
  assert (Hskip : process_alert rule alert st1 = st1).
  { unfold process_alert. rewrite Hip, Ht, Hst1. cbn [false_positives].
    destruct (decide (X ∈ {[X]} ∪ false_positives st)) as [|Hn]; [done|].
    exfalso. apply Hn, elem_of_union. left. by apply elem_of_singleton. }
  subst st2. rewrite Hskip, Hst1. cbn [alert_queue alerts_by_ip].
  split; [done|]. split; [done|]. split.
  - cbn [remove_false_positive false_positives].
    rewrite elem_of_difference, elem_of_singleton. by intros [_ ?].
  - match goal with
    | |- alert_queue (process_alert _ _ ?s) = _ =>
        destruct (process_alert_first rule alert X s Hip) as [_ Hq]
    end; [| exact Hnew | exact Hq].
    cbn [remove_false_positive false_positives].
    rewrite elem_of_difference, elem_of_singleton. by intros [_ ?].
Qed.

End AlertStoreFacts.

Module AlertStoreExamples.
Import Alerts AlertStore AlertStoreFacts.

Lemma transaction_commit_or_rollback_witness :
  let c := mkConnection [("10.0.0.5", "old", "r")]
                        [("10.0.0.5", "old", "r")] false in
  committed (with_transaction (insert_alert true ("10.0.0.9", "scan", "r")) c).1
  = [("10.0.0.5", "old", "r")] /\
  committed (with_transaction (insert_alert false ("10.0.0.9", "scan", "r")) c).1
  = [("10.0.0.5", "old", "r"); ("10.0.0.9", "scan", "r")].
Proof.
  intros c. split.
  - exact (proj2 (proj2 (proj2
             (transaction_commit_or_rollback c
                (insert_alert true ("10.0.0.9", "scan", "r"))
                eq_refl eq_refl)))).
  - exact (proj2 (proj2 (proj2
             (transaction_commit_or_rollback c
                (insert_alert false ("10.0.0.9", "scan", "r"))
                eq_refl eq_refl)))).
Defined.

Lemma transaction_reuse_witness :
  let c := mkConnection [] [("10.0.0.5", "pending", "r")] true in
  let c' := (with_transaction (insert_alert false ("10.0.0.9", "scan", "r")) c).1 in
  committed c' = [] /\
  working c' = [("10.0.0.5", "pending", "r"); ("10.0.0.9", "scan", "r")] /\
  committed (rollback c') = [].
Proof.
  intros c c'.
  destruct (transaction_reuse c (insert_alert false ("10.0.0.9", "scan", "r"))
              eq_refl) as (_ & _ & H3 & H4 & H5 & _).
  split; [exact H3|]. split; [exact H4|exact H5].
Defined.

Lemma alert_writer_fifo_witness :
  committed (_process_alerts [(("10.0.0.5", "a", "r"), false);
                              (("10.0.0.6", "b", "r"), true);
                              (("10.0.0.7", "c", "r"), false)] empty_table)
  = [("10.0.0.5", "a", "r"); ("10.0.0.7", "c", "r")].
Proof.
  exact (proj1 (alert_writer_fifo [(("10.0.0.5", "a", "r"), false);
                                   (("10.0.0.6", "b", "r"), true);
                                   (("10.0.0.7", "c", "r"), false)]
                  empty_table eq_refl eq_refl)).
Defined.

Lemma persisted_alerts_unique_witness :
  NoDup (queued_pair <$>
           committed (_process_alerts
                        [(("10.0.0.9", "scan from 10.0.0.9", "r"), false)]
                        empty_table)).
Proof.
  apply (persisted_alerts_unique ∅
           [Pipeline (Cycle [mkRun "r" true ["scan from 10.0.0.9";
                                             "scan from 10.0.0.9"]])]
           [(("10.0.0.9", "scan from 10.0.0.9", "r"), false)]).
  vm_compute. reflexivity.
Defined.

Lemma clear_alerts_requeues_witness :
  let st := process_alert "r" "scan from 10.0.0.9" (start ∅) in
  alert_queue (process_alert "r" "scan from 10.0.0.9" (clear_alerts st))
  = alert_queue st ++ [("10.0.0.9", "scan from 10.0.0.9", "r")].
Proof.
  intros st.
  apply (clear_alerts_requeues "r" "scan from 10.0.0.9" "10.0.0.9" st).
  - vm_compute. reflexivity.
  - apply not_elem_of_empty.
Defined.

Lemma remove_false_positive_resumes_witness :
  let st1 := mark_as_false_positive "10.0.0.9" (start ∅) in
  alert_queue (process_alert "r" "scan from 10.0.0.9"
                 (remove_false_positive "10.0.0.9"
                    (process_alert "r" "scan from 10.0.0.9" st1)))
  = alert_queue (start ∅) ++ [("10.0.0.9", "scan from 10.0.0.9", "r")].
Proof.
  intros st1.
  refine (proj2 (proj2 (proj2
            (remove_false_positive_resumes "r" "scan from 10.0.0.9" "10.0.0.9"
               (start ∅) _ _)))).
  - vm_compute. reflexivity.
  - intros (v & Hv & _). cbn in Hv. by rewrite lookup_empty in Hv.
Defined.

End AlertStoreExamples.

(* ===================================================================== *)
(** * The decode loop: what is extracted, and how often *)
(* ===================================================================== *)

Module DecoderMoreFacts.
Import PyStr PyStrFacts PyStrMoreFacts KeyMore Decoder DecoderFacts DecoderMore.

Lemma len_sdrop (n : nat) (s : string) :
  (n <= String.length s)%nat -> len (sdrop n s) = len s - Z.of_nat n.
Proof.
  revert n. induction s as [|c s IH]; intros [|n] Hn; cbn [sdrop String.length] in *;
    try (unfold len; cbn [String.length]; lia).
  rewrite IH by lia. unfold len. cbn [String.length]. lia.
Qed.

(** ** [strip] *)

Lemma lstrip_head_ok (s : string) : head_ok (lstrip s) = true.
Proof.
  induction s as [|c s IH]; [done|]. cbn [lstrip].
  destruct (is_space c) eqn:E; [done|]. cbn. by rewrite E.
Qed.

Lemma lstrip_id (s : string) : head_ok s = true -> lstrip s = s.
Proof.
  destruct s as [|c s]; [done|]. cbn. by intros ->%negb_true_iff.
Qed.

Lemma rstrip_head_ok (s : string) : head_ok s = true -> head_ok (rstrip s) = true.
Proof.
  destruct s as [|c s]; [done|]. cbn [head_ok rstrip].
  intros Hc. destruct (rstrip s); [|done].
  apply negb_true_iff in Hc. rewrite Hc. cbn. by rewrite Hc.
Qed.

Lemma rstrip_idem (s : string) : rstrip (rstrip s) = rstrip s.
Proof.
  induction s as [|c s IH]; [done|]. cbn [rstrip].
  destruct (rstrip s) as [|d r] eqn:E.
  - destruct (is_space c) eqn:Ec; [done|]. cbn. by rewrite Ec.
  - cbn [rstrip] in *. by rewrite IH.
Qed.

Lemma rstrip_app (a b : string) :
  rstrip b <> "" -> rstrip (a +:+ b) = a +:+ rstrip b.
Proof.
  intros Hb. induction a as [|c a IH]; [done|].
  change (String c a +:+ b) with (String c (a +:+ b)).
  change (String c a +:+ rstrip b) with (String c (a +:+ rstrip b)).
  cbn [rstrip]. rewrite IH.
  destruct (a +:+ rstrip b) eqn:E; [|done].
  destruct a; [|done]. by destruct (rstrip b).
Qed.

Lemma rstrip_nl (s : string) : rstrip (s +:+ nl) = rstrip s.
Proof.
  induction s as [|c s IH]; [done|].
  change (String c s +:+ nl) with (String c (s +:+ nl)).
  cbn [rstrip]. by rewrite IH.
Qed.

Lemma strip_head_ok (s : string) : head_ok (strip s) = true.
Proof. apply rstrip_head_ok, lstrip_head_ok. Qed.

Lemma strip_idem (s : string) : strip (strip s) = strip s.
Proof.
  unfold strip at 1. rewrite lstrip_id by apply strip_head_ok.
  unfold strip. apply rstrip_idem.
Qed.

(** ** The text of the buffer *)

Lemma appended_buffer_of (lines : list string) (x : string) :
  appended (buffer_of lines) x = buffer_of (lines ++ [x]).
Proof.
  unfold appended. induction lines as [|l lines IH].
  - cbn. by rewrite append_nil_r.
  - cbn [buffer_of foldr app]. fold (buffer_of lines).
    fold (buffer_of (lines ++ [x])). rewrite <- IH.
    by rewrite !append_assoc.
Qed.

Lemma len_buffer_of_app (lines : list string) (x : string) :
  len (buffer_of (lines ++ [x])) = len (buffer_of lines) + len x + 1.
Proof.
  rewrite <- appended_buffer_of. unfold appended. rewrite !len_app.
  change (len nl) with 1. lia.
Qed.

Lemma len_buffer_of_nonneg (lines : list string) : 0 <= len (buffer_of lines).
Proof. apply len_nonneg. Qed.

Lemma join_nonempty (l : string) (rest : list string) :
  l <> "" -> join nl (l :: rest) <> "".
Proof.
  intros Hl. cbn [join]. destruct rest; [done|]. by destruct l.
Qed.

Lemma rstrip_buffer_of (lines : list string) :
  Forall clean_line lines -> lines <> [] ->
  rstrip (buffer_of lines) = join nl lines.
Proof.
  induction 1 as [|l rest (Hs & Hne & Hnl) Hrest IH]; [done|]. intros _.
  assert (Hr : rstrip l = l).
  { rewrite <- Hs. unfold strip. apply rstrip_idem. }
  cbn [buffer_of foldr]. fold (buffer_of rest).
  destruct rest as [|l2 rest].
  - cbn [buffer_of foldr join]. by rewrite append_nil_r, rstrip_nl.
  - specialize (IH ltac:(done)).
    rewrite <- append_assoc, rstrip_app.
    + rewrite IH. by rewrite append_assoc.
    + rewrite IH. apply join_nonempty. by inversion Hrest as [|?? (_ & ? & _)].
Qed.

Lemma strip_buffer_of (lines : list string) :
  Forall clean_line lines -> lines <> [] ->
  strip (buffer_of lines) = join nl lines.
Proof.
  intros Hall Hne. unfold strip. rewrite lstrip_id; [by apply rstrip_buffer_of|].
  destruct lines as [|l rest]; [done|].
  inversion Hall as [|?? (Hs & Hl & _)]; subst.
  cbn [buffer_of foldr]. pose proof (strip_head_ok l) as Hh. rewrite Hs in Hh.
  by destruct l.
Qed.

Lemma split_join (lines : list string) :
  Forall (fun l => contains nl l = false) lines -> lines <> [] ->
  split nl (join nl lines) = lines.
Proof.
  unfold nl. set (c := ascii_of_nat 10).
  induction 1 as [|l rest Hl Hrest IH]; [done|]. intros _.
  destruct rest as [|l2 rest]; [by apply split_char_none|].
  change (join (String c "") (l :: l2 :: rest))
    with (l +:+ String c (join (String c "") (l2 :: rest))).
  rewrite split_char_app by exact Hl. by rewrite IH.
Qed.

Section Loop.
Variable json_ok : string -> bool.

(** What is extracted from a buffer of clean lines. *)
Lemma extract_buffer_of (lines : list string) :
  Forall clean_line lines ->
  extract_ek_objects json_ok (buffer_of lines) = extract_lines json_ok lines.
Proof.
  intros Hall. unfold extract_ek_objects.
  destruct (decide (lines = [])) as [->|Hne]; [done|].
  rewrite strip_buffer_of, split_join; [done| |done|done|done].
  eapply Forall_impl; [exact Hall|]. by intros l (_ & _ & ?).
Qed.

(** ** [extract_ek_objects]: what it returns *)

Lemma extract_lines_sound (n : nat) (lines : list string) :
  (length lines <= n)%nat ->
  Forall (fun obj => json_ok obj = true /\ obj <> "" /\
                     exists l, l ∈ lines /\ obj = strip l)
         (extract_lines json_ok lines) /\
  (length (extract_lines json_ok lines) <= length lines)%nat.
Proof.
  revert lines. induction n as [|n IH]; intros lines Hn.
  { destruct lines; [|cbn in Hn; lia]. split; [constructor|done]. }
  destruct lines as [|l rest]; [split; [constructor|done]|].
  cbn [length] in Hn.
  assert (Hrest : Forall (fun obj => json_ok obj = true /\ obj <> "" /\
                            exists l0, l0 ∈ l :: rest /\ obj = strip l0)
                         (extract_lines json_ok rest) /\
                  (length (extract_lines json_ok rest) <= length (l :: rest))%nat).
  { destruct (IH rest ltac:(lia)) as [H1 H2]. split; [|cbn [length]; lia].
    eapply Forall_impl; [exact H1|]. intros obj (? & ? & l0 & ? & ?).
    split; [done|]. split; [done|]. exists l0. split; [by right|done]. }
  cbn [extract_lines].
  destruct (String.eqb_spec (strip l) "") as [|Hl]; [done|].
  destruct (startswith index_prefix (strip l)).
  - destruct rest as [|d rest']; [done|].
    destruct (String.eqb_spec (strip d) "") as [|Hd]; cbn [negb]; [done|].
    destruct (json_ok (strip d)) eqn:Hj; [|done].
    cbn [length] in Hn. destruct (IH rest' ltac:(lia)) as [H1 H2].
    split; [|cbn [length]; lia]. constructor.
    + split; [done|]. split; [done|]. exists d. split; [|done].
      right. by left.
    + eapply Forall_impl; [exact H1|]. intros obj (? & ? & l0 & ? & ?).
      split; [done|]. split; [done|]. exists l0. split; [|done].
      right. by right.
  - destruct (json_ok (strip l)) eqn:Hj; [|done].
    destruct Hrest as [H1 _]. destruct (IH rest ltac:(lia)) as [_ H2].
    split; [|cbn [length] in *; lia].
    constructor; [|done]. split; [done|]. split; [done|].
    exists l. split; [by left|done].
Qed.

(** X20. Every text that [extract_ek_objects] returns was accepted by
    [json.loads], is not empty, and is a line of the stripped buffer
    with the white space around it removed; there are at most as many
    as the buffer has lines, and none for an empty buffer. *)
Theorem extract_ek_objects_sound (buffer : string) :
  Forall (fun obj => json_ok obj = true /\ obj <> "" /\
                     exists l, l ∈ split nl (strip buffer) /\ obj = strip l)
         (extract_ek_objects json_ok buffer) /\
  (length (extract_ek_objects json_ok buffer)
   <= length (split nl (strip buffer)))%nat /\
  extract_ek_objects json_ok "" = [].
Proof.
  unfold extract_ek_objects.
  destruct (extract_lines_sound (length (split nl (strip buffer)))
              (split nl (strip buffer)) ltac:(done)) as [H1 H2].
  split; [exact H1|]. split; [exact H2|reflexivity].
Qed.

(** ** Lines that are extracted again *)

Lemma extract_lines_prefix (n : nat) (lines : list string) (x : string) :
  (length lines <= n)%nat ->
  extract_lines json_ok lines `prefix_of` extract_lines json_ok (lines ++ [x]).
Proof.
  revert lines. induction n as [|n IH]; intros lines Hn.
  { destruct lines; [|cbn in Hn; lia]. apply prefix_nil. }
  destruct lines as [|l rest]; [apply prefix_nil|].
  cbn [length] in Hn. cbn [app extract_lines].
  pose proof (IH rest ltac:(lia)) as Hrest.
  destruct (String.eqb (strip l) ""); [done|].
  destruct (startswith index_prefix (strip l)).
  - destruct rest as [|d rest'].
    + cbn [app]. apply prefix_nil.
    + cbn [app]. destruct (negb (String.eqb (strip d) "")); [|done].
      destruct (json_ok (strip d)); [|done].
      apply prefix_cons_alt; [done|]. apply IH. cbn [length] in Hn. lia.
  - destruct (json_ok (strip l)); [|done]. by apply prefix_cons_alt.
Qed.

Lemma extract_lines_data (lines : list string) :
  Forall (fun l => strip l = l /\ l <> "" /\ json_ok l = true /\
                   startswith index_prefix l = false) lines ->
  extract_lines json_ok lines = lines.
Proof.
  induction 1 as [|l rest (Hs & Hne & Hj & Hi) _ IH]; [done|].
  cbn [extract_lines]. rewrite Hs.
  destruct (String.eqb_spec l ""); [done|]. by rewrite Hi, Hj, IH.
Qed.

Lemma capture_loop_snoc (raws : list string) (x : string) :
  capture_loop json_ok (raws ++ [x])
  = iteration json_ok (capture_loop json_ok raws) x.
Proof. unfold capture_loop. by rewrite foldl_snoc. Qed.

(** The buffer of the loop is the buffer of [buffer_after]. *)
Lemma capture_loop_buffer (raws : list string) :
  (capture_loop json_ok raws).1 = buffer_after json_ok raws.
Proof.
  induction raws as [|x raws IH] using rev_ind; [done|].
  rewrite capture_loop_snoc. unfold buffer_after. rewrite foldl_snoc.
  fold (buffer_after json_ok raws). rewrite <- IH.
  unfold iteration, feed, feed_with.
  by destruct (String.eqb (strip x) "").
Qed.

Lemma clean_strip (raw : string) : input_line raw -> clean_line (strip raw).
Proof. intros [Hne Hnl]. split; [apply strip_idem|done]. Qed.

(** While the buffer stays within the tail that is kept, nothing is ever
    removed from it, and every iteration extracts from all the lines
    read so far. *)
Lemma capture_loop_small (raws : list string) :
  Forall input_line raws ->
  len (buffer_of (strip <$> raws)) <= tail_keep ->
  capture_loop json_ok raws
  = (buffer_of (strip <$> raws),
     (fun k => extract_lines json_ok (take k (strip <$> raws)))
       <$> seq 1 (length raws)).
Proof.
  induction raws as [|x raws IH] using rev_ind; [done|].
  intros [Hraws Hx]%Forall_app.
  rewrite fmap_app. cbn [fmap list_fmap]. rewrite len_buffer_of_app. intros Hlen.
  pose proof (len_buffer_of_nonneg (strip <$> raws)) as H0.
  pose proof (len_nonneg (strip x)) as H1.
  rewrite capture_loop_snoc, IH by (done || lia).
  unfold iteration. cbn [fst snd].
  pose proof (proj1 (Forall_singleton input_line x) Hx) as Hin.
  destruct Hin as [Hne Hnl].
  destruct (String.eqb_spec (strip x) ""); [done|].
  rewrite appended_buffer_of.
  assert (Hsmall : len (buffer_of ((strip <$> raws) ++ [strip x])) <= tail_keep)
    by (rewrite len_buffer_of_app; lia).
  assert (Htrim : trimmed json_ok tail_keep
                    (buffer_of ((strip <$> raws) ++ [strip x]))
                  = buffer_of ((strip <$> raws) ++ [strip x])).
  { unfold trimmed. destruct (extract_ek_objects _ _); [done|].
    by destruct (Z.ltb_spec tail_keep
                   (len (buffer_of ((strip <$> raws) ++ [strip x])))); [lia|]. }
  rewrite Htrim. unfold checked.
  destruct (Z.ltb_spec max_buffer
              (len (buffer_of ((strip <$> raws) ++ [strip x]))));
    [unfold max_buffer, tail_keep in *; lia|].
  f_equal. rewrite List.length_app. cbn [length].
  rewrite Nat.add_1_r, seq_S, fmap_app. cbn [fmap list_fmap]. f_equal.
  - apply list_fmap_ext. intros i k Hk.
    apply lookup_seq in Hk as [-> Hi].
    rewrite take_app_le; [done|]. rewrite length_fmap. lia.
  - f_equal. rewrite extract_buffer_of.
    + rewrite take_ge; [done|]. rewrite List.length_app, length_fmap. cbn. lia.
    + apply Forall_app. split.
      * apply Forall_fmap. eapply Forall_impl; [exact Hraws|].
        intros raw Hraw. by apply clean_strip.
      * apply Forall_singleton. by apply clean_strip.
Qed.

(** X21. While all the lines read so far fit into the 1000 characters
    that are kept, the buffer is never shortened and an object is
    extracted again in every later iteration: the [packet_objects] of
    the k-th iteration are what [extract_ek_objects] finds in the first
    k lines, each list begins with the list of the iteration before, and
    when every line is a data object by itself the k-th iteration
    processes the first k lines, the first line for the k-th time. *)
Theorem objects_extracted_again (raws : list string) :
  Forall input_line raws ->
  len (buffer_of (strip <$> raws)) <= tail_keep ->
  let batches := (capture_loop json_ok raws).2 in
  buffer_after json_ok raws = buffer_of (strip <$> raws) /\
  batches = (fun k => extract_lines json_ok (take k (strip <$> raws)))
              <$> seq 1 (length raws) /\
  (forall (i : nat) (b b' : list string),
     batches !! i = Some b -> batches !! S i = Some b' -> b `prefix_of` b') /\
  (Forall (data_line json_ok) raws ->
   batches = (fun k => take k (strip <$> raws)) <$> seq 1 (length raws)).
Proof.
  intros Hraws Hlen batches.
  pose proof (capture_loop_small raws Hraws Hlen) as Hloop.
  assert (Hb : batches
               = (fun k => extract_lines json_ok (take k (strip <$> raws)))
                   <$> seq 1 (length raws)) by (subst batches; by rewrite Hloop).
  split; [by rewrite <- capture_loop_buffer, Hloop|]. split; [exact Hb|].
  split.
  - intros i b b'. rewrite Hb, !list_lookup_fmap.
    intros Hi HSi.
    destruct (seq 1 (length raws) !! i) as [k|] eqn:Ek; [|done].
    destruct (seq 1 (length raws) !! S i) as [k'|] eqn:Ek'; [|done].
    apply lookup_seq in Ek as [-> Hi1]. apply lookup_seq in Ek' as [-> Hi2].
    injection Hi as <-. injection HSi as <-.
    assert (HS : (1 + i < length (strip <$> raws))%nat)
      by (rewrite length_fmap; lia).
    destruct (lookup_lt_is_Some_2 _ _ HS) as [x Hx].
    change (1 + i)%nat with (S i) in Hx.
    rewrite (take_S_r _ _ _ Hx).
    apply (extract_lines_prefix (length (take (S i) (strip <$> raws)))). done.
  - intros Hdata. rewrite Hb. apply list_fmap_ext. intros i k Hk.
    apply extract_lines_data. apply Forall_take, Forall_fmap.
    rewrite Forall_forall in Hraws, Hdata. apply Forall_forall.
    intros raw Hraw. destruct (Hraws _ Hraw) as [Hne Hnl].
    destruct (Hdata _ Hraw) as [Hj Hi]. cbn.
    split; [apply strip_idem|]. done.
Qed.

(** X22. An iteration that finds an object leaves at most 1000
    characters in the buffer; an iteration that finds none leaves the
    buffer with the line appended, or empty once that is more than
    10,000,000 characters: lines from which nothing can be extracted
    pile up until the whole buffer is dropped. *)
Theorem buffer_after_iteration (b raw : string) :
  strip raw <> "" ->
  (extract_ek_objects json_ok (appended b (strip raw)) <> [] ->
   len (feed json_ok b raw) <= tail_keep) /\
  (extract_ek_objects json_ok (appended b (strip raw)) = [] ->
   (len (appended b (strip raw)) <= max_buffer ->
    feed json_ok b raw = appended b (strip raw)) /\
   (max_buffer < len (appended b (strip raw)) -> feed json_ok b raw = "")).
Proof.
  intros Hne. unfold feed, feed_with.
  destruct (String.eqb_spec (strip raw) ""); [done|].
  unfold trimmed. set (buf := appended b (strip raw)).
  destruct (extract_ek_objects json_ok buf) as [|o os] eqn:E.
  - split; [done|]. intros _. unfold checked.
    destruct (Z.ltb_spec max_buffer (len buf)); split; (done || lia).
  - split; [|done]. intros _.
    assert (Hk : len (if tail_keep <? len buf then last_chars tail_keep buf
                      else buf) <= tail_keep).
    { destruct (Z.ltb_spec tail_keep (len buf)) as [Hlt|]; [|lia].
      unfold last_chars, slice_from, clamp, tail_keep in *.
      change (Z.opp 1000 <? 0) with true. cbv iota.
      rewrite len_sdrop by (unfold len in *; lia). unfold len in *. lia. }
    unfold checked.
    destruct (Z.ltb_spec max_buffer
                (len (if tail_keep <? len buf then last_chars tail_keep buf
                      else buf))); [|done].
    change (len "") with 0. unfold tail_keep. lia.
Qed.

End Loop.

Lemma extract_ek_objects_sound_witness :
  extract_ek_objects (fun s => String.prefix "{" s) "" = [].
Proof.
  exact (proj2 (proj2 (extract_ek_objects_sound
                         (fun s => String.prefix "{" s) ""))).
Defined.

Lemma objects_extracted_again_witness :
  (capture_loop (fun s => String.prefix "{" s) ["{a}"; "{b}"; "{c}"]).2
  = (fun k => take k (strip <$> ["{a}"; "{b}"; "{c}"])) <$> seq 1 3.
Proof.
  refine (proj2 (proj2 (proj2
            (objects_extracted_again (fun s => String.prefix "{" s)
               ["{a}"; "{b}"; "{c}"] _ _))) _).
  - repeat constructor; discriminate.
  - vm_compute. discriminate.
  - repeat constructor.
Defined.

Lemma buffer_after_iteration_witness :
  feed (fun s => String.prefix "{" s) "x" "y" = appended "x" (strip "y").
Proof.
  refine (proj1 (proj2 (buffer_after_iteration (fun s => String.prefix "{" s)
                          "x" "y" _) _) _).
  - discriminate.
  - reflexivity.
  - vm_compute. discriminate.
Defined.

End DecoderMoreFacts.

(* ===================================================================== *)
(** * The false-positive list on disk: saving and loading *)
(* ===================================================================== *)

Module FpFileFacts.
Import PyStr PyStrFacts PyStrMoreFacts KeyMore Decoder DecoderMore
       DecoderMoreFacts Alerts AlertsFacts FpFile.














Lemma load_line_entries (acc : gset string) (line : string) :
  (forall x, x ∈ acc -> x <> "" /\ startswith "#" x = false /\ strip x = x) ->
  forall x, x ∈ load_line acc line ->
            x <> "" /\ startswith "#" x = false /\ strip x = x.
Proof.
  intros Hacc x. unfold load_line.
  destruct (String.eqb_spec (strip line) "") as [|Hne]; cbn [negb andb];
    [apply Hacc|].
  destruct (startswith "#" (strip line)) eqn:Hh; cbn [negb]; [apply Hacc|].
  intros [->%elem_of_singleton | Hx]%elem_of_union; [|by apply Hacc].
  split; [done|]. split; [done|]. apply strip_idem.
Qed.

Lemma process_alert_false_positives (rule alert : string) (st : state) :
  false_positives (process_alert rule alert st) = false_positives st.
Proof.
  unfold process_alert. destruct (malicious_ip_of alert) as [ip|]; [|done].
  destruct (Alerts.truthy (Some ip)); [|done].
  destruct (decide (ip ∈ false_positives st)); [done|].
  destruct (dd_read (alerts_by_ip st) ip) as [seen d].
  by destruct (decide (alert ∈ seen)).
Qed.

(** X24. What the loaded set can hold: whatever the file contains, no
    loaded entry is empty, starts with [#] or has white space around
    it.  And since [mark_as_false_positive] ignores the empty text, the
    empty text is never in the false-positive set, whatever the file
    held and through every analysis cycle, mark and engine alert. *)
Theorem false_positives_never_empty (content : option string) :
  (forall x, x ∈ load_false_positives content ->
     x <> "" /\ startswith "#" x = false /\ strip x = x) /\
  (forall trace : list producer,
     "" ∉ false_positives (run_all trace (start (load_false_positives content)))).
Proof.
  assert (Hload : forall x, x ∈ load_false_positives content ->
                    x <> "" /\ startswith "#" x = false /\ strip x = x).
  { unfold load_false_positives. destruct content as [text|].
    - apply (foldl_inv
               (fun acc : gset string =>
                  forall x, x ∈ acc ->
                    x <> "" /\ startswith "#" x = false /\ strip x = x)).
      + intros acc line Hacc. by apply load_line_entries.
      + intros x Hx. by apply not_elem_of_empty in Hx.
    - intros x Hx. by apply not_elem_of_empty in Hx. }
  split; [exact Hload|]. intros trace. unfold run_all.
  apply (foldl_inv (fun st => "" ∉ false_positives st)).
  - intros st [[rules|ip]|am ip alert rule] Hst; cbn [apply_producer apply_event].
    + unfold analyze_traffic. revert Hst.
      apply (foldl_inv (fun st => "" ∉ false_positives st)). clear st.
      intros st r Hst. unfold run_rule. destruct (enabled r); [|done].
      revert Hst. apply (foldl_inv (fun st => "" ∉ false_positives st)).
      intros s a Hs. by rewrite process_alert_false_positives.
    + unfold mark_as_false_positive.
      destruct (String.eqb_spec ip "") as [->|Hne]; cbn [negb]; [done|].
      cbn [false_positives]. intros [Hx%elem_of_singleton|Hx]%elem_of_union;
        [congruence|done].
    + unfold add_alert. destruct am; [done|].
      destruct (dd_read (alerts_by_ip st) ip) as [seen d].
      by destruct (decide (alert ∈ seen)).
  - cbn [start false_positives]. intros Hx. by destruct (Hload _ Hx) as [? _].
Qed.

End FpFileFacts.

(* ===================================================================== *)
(** * The DNS and ARP stores: what reaches the tables *)
(* ===================================================================== *)

Module StoresFacts.
Import PyStr Capture Stores.

(** X25. [_store_dns_data] never writes: for every decoded record it
    returns [False] and leaves [dns_queries] as it was, because its call
    of [add_dns_query] passes ten positional arguments to a method of
    three parameters; [add_dns_query] itself, called with the arguments
    it accepts, appends one row. *)
Theorem dns_store_never_writes (layers : layers_t) (src_ip : string)
    (current_time : Z) (tbl : list dns_row) :
  _store_dns_data layers src_ip current_time tbl = (false, tbl) /\
  forall domain type : string,
    py_call 3 0 3 (Ok (add_dns_query src_ip domain type current_time tbl))
    = Ok (true, tbl ++ [mkDns current_time src_ip domain type]).
Proof.
  split; [|done]. unfold _store_dns_data.
  by destruct (truthy (get_layer_value layers "dns_qry_name")).
Qed.


End StoresFacts.
